(** * Aftershock monitor: the forecasting contract and its front-end helpers

  The repository ships the browser front end (Next.js pages, components and
  the helpers of [utils/api.js] and [utils/formatters.js]); the forecasting
  service behind [/api/predict] is described by the design document only.

  Conventions of the embedding:
  - a JavaScript string is a [string]; one character stands for one UTF-16
    code unit, so [String.length] is the [length] property;
  - a finite JavaScript number is embedded by its exact rational value
    ([Q]); comparisons, [toFixed], [Math.round], [Math.abs], [Math.max] and
    [Math.min] are exact on it, and where the front end subtracts,
    multiplies or divides in [formatProbability], [calculateHazardZones]
    and the quality bars, the result is rounded to binary64 ([Binary64]);
  - [Math.pow] of the front end is a parameter: the language leaves its
    result implementation-approximated; the power, [exp] and [ln] of the
    forecasting contract are the real functions of [Reals];
  - an object literal used as a lookup table is the list of its own
    properties in source order; an object used as a table of counters is a
    [gmap]. *)

From Stdlib Require Import ZArith QArith Qround Qabs Reals Psatz List String Ascii.
From Stdlib Require Import DecimalString DecimalN DecimalZ DecimalPos Sorted Qreals Qpower.
From stdpp Require Import gmap strings list sorting.
Import ListNotations.
Local Open Scope string_scope.

(** ** JavaScript values shared by the helpers *)

Module Js.

(** Property names every plain object inherits from [Object.prototype]. *)
Definition Object_prototype : list string :=
  [ "constructor"; "__proto__"; "hasOwnProperty"; "isPrototypeOf";
    "propertyIsEnumerable"; "toLocaleString"; "toString"; "valueOf";
    "__defineGetter__"; "__defineSetter__"; "__lookupGetter__";
    "__lookupSetter__" ].

Definition inherited (k : string) : bool :=
  bool_decide (k ∈ Object_prototype).

(** Own-property lookup in an object literal. *)
Fixpoint own {V : Type} (o : list (string * V)) (k : string) : option V :=
  match o with
  | [] => None
  | (k', v) :: o' => if decide (k' = k) then Some v else own o' k
  end.

(** A string is falsy exactly when it is empty. *)
Definition truthy_string (s : string) : bool :=
  match s with
  | EmptyString => false
  | String _ _ => true
  end.

(** Numbers: the finite values and NaN (the infinities cannot arrive in a
    JSON body and no operation modelled here produces them). *)
Inductive number : Type :=
| NaN
| Fin (q : Q).

(** [ToNumber] applied to the result of a property read whose value, when
    present, is a number: [undefined] becomes NaN. *)
Definition ToNumber (v : option number) : number :=
  match v with
  | None => NaN
  | Some n => n
  end.

(** [x - y]. *)
Definition sub (x y : number) : number :=
  match x, y with
  | Fin a, Fin b => Fin (a - b)
  | _, _ => NaN
  end.

(** [String.prototype.substring(0, n)] for a non-negative integer [n]:
    the first [min n length] code units. *)
Definition substring0 (n : nat) (s : string) : string :=
  String.substring 0 n s.

(** Decimal digits of a natural number ("0" for zero). *)
Definition digits (n : N) : string :=
  NilZero.string_of_uint (N.to_uint n).

Fixpoint zeros (k : nat) : string :=
  match k with
  | O => ""
  | S k' => String "0" (zeros k')
  end.

Definition drop_string (n : nat) (s : string) : string :=
  String.substring n (String.length s - n) s.

(** The decimal expansion of the integer [n] with a point before its last
    [f] digits, padded with zeros on the left up to [f + 1] digits. *)
Definition fixed_point (n : N) (f : nat) : string :=
  let m := digits n in
  match f with
  | O => m
  | _ =>
      let k := String.length m in
      let m := if (k <=? f)%nat then zeros (f + 1 - k) ++ m else m in
      let k := String.length m in
      substring0 (k - f) m ++ "." ++ drop_string (k - f) m
  end.

(** [Number.prototype.toFixed(f)] on a finite number.  Below 10^21 the
    result is [fixed_point n f] for the integer [n] closest to [x * 10^f]
    (the larger one on a tie), with a minus sign when [x < 0].  From 10^21
    on the method switches to [ToString], whose output depends on the
    binary64 digits: that branch is [None]. *)
Definition toFixed (x : Q) (f : nat) : option string :=
  let s := if Qlt_le_dec x 0 then "-" else "" in
  let x := Qabs x in
  if Qlt_le_dec x (inject_Z (10 ^ 21)) then
    let n := Z.to_N (Qfloor (x * inject_Z (10 ^ Z.of_nat f) + (1 # 2))) in
    Some (s ++ fixed_point n f)
  else None.

End Js.

(** ** Numbers as JavaScript computes them: binary64 *)

(** A finite Number is embedded by its exact rational value.  The result
    of an arithmetic operation is the real result rounded to the nearest
    binary64 value, to the one with an even significand on a tie; an
    operation whose result is always exact (a comparison, [Math.abs],
    [toFixed]) needs none of this. *)

Module Binary64.
Local Open Scope Q_scope.

Definition pow2 (k : Z) : Q := 2 ^ k.

(** The exponent [e] of a positive rational: [2^e <= a < 2^(e+1)]. *)
Definition floor_log2 (a : Q) : Z :=
  let e0 := (Z.log2 (Qnum a) - Z.log2 (Z.pos (Qden a)))%Z in
  if Qle_bool (pow2 e0) a then e0 else (e0 - 1)%Z.

(** The nearest integer, the even one on a tie. *)
Definition nearest_even (m : Q) : Z :=
  let f := Qfloor m in
  match Qcompare (m - inject_Z f) (1 # 2) with
  | Lt => f
  | Gt => (f + 1)%Z
  | Eq => if Z.even f then f else (f + 1)%Z
  end.

(** The exponent of the last place of the significand of [a]: 52 below
    the exponent of [a], and that of the subnormal numbers below
    [2^(-1022)]. *)
Definition ulp_exponent (a : Q) : Z :=
  (Z.max (floor_log2 a) (-1022) - 52)%Z.

(** Rounding of a positive value to 53 significant bits. *)
Definition round_pos (a : Q) : Q :=
  inject_Z (nearest_even (a / pow2 (ulp_exponent a))) * pow2 (ulp_exponent a).

(** Rounding of any value, the exponent not bounded above. *)
Definition round (x : Q) : Q :=
  match Qcompare x 0 with
  | Gt => round_pos x
  | Lt => - round_pos (- x)
  | Eq => 0
  end.

(** A Number: NaN, an infinity, or a finite value.  The two zeros are one
    value: no operation used here tells them apart. *)
Inductive num : Type :=
| NaN
| Inf (negative : bool)
| Fin (q : Q).

Definition negative (x : Q) : bool := negb (Qle_bool 0 x).

(** The Number for a real result: the rounded value, or an infinity when
    the rounded value is beyond the largest finite one. *)
Definition of_Q (x : Q) : num :=
  let r := round x in
  if Qle_bool (pow2 1024) (Qabs r) then Inf (negative r) else Fin (Qred r).

(** [x * y]. *)
Definition mul (x y : num) : num :=
  match x, y with
  | NaN, _ | _, NaN => NaN
  | Fin a, Fin b => of_Q (a * b)
  | Inf s, Inf t => Inf (xorb s t)
  | Inf s, Fin b | Fin b, Inf s =>
      if Qeq_bool b 0 then NaN else Inf (xorb s (negative b))
  end.

(** [x - y]. *)
Definition sub (x y : num) : num :=
  match x, y with
  | NaN, _ | _, NaN => NaN
  | Fin a, Fin b => of_Q (a - b)
  | Inf s, Inf t => if Bool.eqb s t then NaN else Inf s
  | Inf s, Fin _ => Inf s
  | Fin _, Inf t => Inf (negb t)
  end.

(** [x / y], for a divisor that is not the negative zero. *)
Definition div (x y : num) : num :=
  match x, y with
  | NaN, _ | _, NaN => NaN
  | Fin a, Fin b =>
      if Qeq_bool b 0
      then (if Qeq_bool a 0 then NaN else Inf (negative a))
      else of_Q (a / b)
  | Inf _, Inf _ => NaN
  | Inf s, Fin b => Inf (xorb s (negative b))
  | Fin _, Inf _ => Fin 0
  end.

(** [x < y] and [x <= y]: false when an operand is NaN. *)
Definition lt (x y : num) : bool :=
  match x, y with
  | NaN, _ | _, NaN => false
  | Inf s, Inf t => s && negb t
  | Inf s, Fin _ => s
  | Fin _, Inf t => negb t
  | Fin a, Fin b => negb (Qle_bool b a)
  end.

Definition le (x y : num) : bool :=
  match x, y with
  | NaN, _ | _, NaN => false
  | Inf s, Inf t => s || negb t
  | Inf s, Fin _ => s
  | Fin _, Inf t => negb t
  | Fin a, Fin b => Qle_bool a b
  end.

(** A decimal literal of the source: the Number nearest to it. *)
Definition literal (x : Q) : num := of_Q x.

End Binary64.

(** ** utils/formatters.js *)

Module Formatters.

(** The table of [getRiskLevelColor]. *)
Definition colors : list (string * string) :=
  [ ("CRITICAL", "#dc2626");
    ("HIGH", "#f59e0b");
    ("ELEVATED", "#fbbf24");
    ("MODERATE", "#10b981") ].

(** [colors[level] || '#4b5563'].  A [level] that names a member of
    [Object.prototype] reads that member, which is truthy and is not a
    colour string: the result is then [None]. *)
Definition getRiskLevelColor (level : string) : option string :=
  match Js.own colors level with
  | Some c => Some (if Js.truthy_string c then c else "#4b5563")
  | None => if Js.inherited level then None else Some "#4b5563"
  end.

(** [`${(probability * 100).toFixed(1)}%`]: the product is the binary64
    one, and [toFixed] renders that Number. *)
Definition formatProbability (probability : Q) : option string :=
  match Js.toFixed (Binary64.round (probability * 100)) 1 with
  | Some s => Some (s ++ "%")
  | None => None
  end.

(** The [place] argument: the catalogue sends a string or [null], and a
    missing property reads as [undefined]. *)
Inductive place_arg : Type :=
| PlaceNull
| PlaceUndefined
| PlaceString (s : string).

(** [!place]. *)
Definition falsy_place (place : place_arg) : bool :=
  match place with
  | PlaceNull | PlaceUndefined => true
  | PlaceString s => negb (Js.truthy_string s)
  end.

(** [truncatePlace(place, maxLength = 50)]: [maxLength] is a count of
    characters, [None] when the caller leaves it out. *)
Definition truncatePlace (place : place_arg) (maxLength : option nat) : string :=
  let maxLength := default 50%nat maxLength in
  if falsy_place place then "Unknown location"
  else
    match place with
    | PlaceString s =>
        if (String.length s <=? maxLength)%nat then s
        else Js.substring0 maxLength s ++ "..."
    | _ => "Unknown location"
    end.

End Formatters.

(** ** tailwind.config.js: the colour palette of the theme *)

Module Tailwind.

Definition theme_extend_colors : list (string * string) :=
  [ ("bg-dark", "#0a0e27");
    ("bg-card", "#1a1f3a");
    ("text-primary", "#e8eaed");
    ("text-secondary", "#9aa0a6");
    ("map-bg", "#0f1419");
    ("risk-critical", "#dc2626");
    ("risk-high", "#f59e0b");
    ("risk-elevated", "#fbbf24");
    ("risk-moderate", "#10b981");
    ("quality-high", "#10b981");
    ("quality-medium", "#f59e0b");
    ("quality-low", "#dc2626");
    ("no-model", "#4b5563") ].

End Tailwind.

(** ** utils/api.js: the HTTP client *)

Module Api.

(** Values that cross the HTTP boundary. *)
#[warnings="-register-all"]
Inductive value : Type :=
| VUndefined
| VNull
| VBool (b : bool)
| VNumber (n : Js.number)
| VString (s : string)
| VObject (fields : list (string * value)).

(** The [i]-th actual argument of a call; a missing one is [undefined]. *)
Definition arg (args : list value) (i : nat) : value :=
  nth i args VUndefined.

(** A parameter with a default value: the default replaces [undefined]. *)
Definition default_param (actual dflt : value) : value :=
  match actual with
  | VUndefined => dflt
  | v => v
  end.

(** A POST handed to the axios instance. *)
Record request : Type := { url : string; body : list (string * value) }.

(** What axios resolves with. *)
Record response : Type := { data : value }.

Inductive outcome (A : Type) : Type :=
| Returned (a : A)
| Thrown (error : value).
Arguments Returned {A} a.
Arguments Thrown {A} error.

(** The observable effects of the client: the requests sent, in order, and
    the argument lists of the calls of [console.error]. *)
Record world : Type := { sent : list request; console : list (list value) }.

Definition io (A : Type) : Type := world -> outcome A * world.

Definition ret {A : Type} (a : A) : io A := fun w => (Returned a, w).

Definition throw {A : Type} (e : value) : io A := fun w => (Thrown e, w).

Definition bind {A B : Type} (m : io A) (k : A -> io B) : io B :=
  fun w =>
    match m w with
    | (Returned a, w') => k a w'
    | (Thrown e, w') => (Thrown e, w')
    end.

Definition try_catch {A : Type} (m : io A) (handler : value -> io A) : io A :=
  fun w =>
    match m w with
    | (Returned a, w') => (Returned a, w')
    | (Thrown e, w') => handler e w'
    end.

#[global] Instance io_ret : MRet io := @ret.
#[global] Instance io_bind : MBind io := fun A B k m => bind m k.

(** [api.post(url, body)] against a server that answers or fails. *)
Definition api_post (server : request -> outcome response)
    (u : string) (b : list (string * value)) : io response :=
  fun w =>
    let rq := {| url := u; body := b |} in
    (server rq, {| sent := sent w ++ [rq]; console := console w |}).

Definition console_error (args : list value) : io unit :=
  fun w => (Returned tt, {| sent := sent w; console := console w ++ [args] |}).

(** [predictAftershocks(magnitude, latitude, longitude, tectonicSetting = null)]. *)
Definition predictAftershocks (server : request -> outcome response)
    (args : list value) : io value :=
  let magnitude := arg args 0 in
  let latitude := arg args 1 in
  let longitude := arg args 2 in
  let tectonicSetting := default_param (arg args 3) VNull in
  try_catch
    (response ← api_post server "/api/predict"
                   [ ("magnitude", magnitude);
                     ("latitude", latitude);
                     ("longitude", longitude);
                     ("tectonic_setting", tectonicSetting) ];
     mret (data response))
    (fun error =>
       console_error [VString "Error predicting aftershocks:"; error] ;;
       throw error).

End Api.

(** ** components/Earthquake/DetailPanel.js *)

Module DetailPanel.
Import Api.

(** [earthquake.prop] on the selected earthquake, an object. *)
Definition prop (earthquake : list (string * value)) (k : string) : value :=
  match Js.own earthquake k with
  | Some v => v
  | None => VUndefined
  end.

(** The component state touched by [fetchPredictions]. *)
Record panel : Type :=
  { predictions : value; loading : bool; error : option string }.

(** [response.predictions]; reading a property of [undefined] or [null]
    throws. *)
Definition read_predictions (response : value) : outcome value :=
  match response with
  | VUndefined | VNull => Thrown (VString "TypeError")
  | VObject fields => Returned (prop fields "predictions")
  | _ => Returned VUndefined
  end.

(** The three state setters of the panel used by [fetchPredictions]. *)
Definition setLoading (b : bool) (st : panel) : panel :=
  {| predictions := predictions st; loading := b; error := error st |}.

Definition setError (e : option string) (st : panel) : panel :=
  {| predictions := predictions st; loading := loading st; error := e |}.

Definition setPredictions (p : value) (st : panel) : panel :=
  {| predictions := p; loading := loading st; error := error st |}.

(** The [catch] block: the error text is shown and the error logged. *)
Definition failed (err : value) (st : panel) (w : world) : panel * world :=
  (setError (Some "Failed to load predictions") st,
   {| sent := sent w; console := console w ++ [[err]] |}).

(** [fetchPredictions]: the panel shows the spinner, asks for the
    forecast of the selected earthquake with three arguments, stores the
    forecast or the error text, and hides the spinner. *)
Definition fetchPredictions (server : request -> outcome response)
    (earthquake : list (string * value)) (st : panel) (w : world)
  : panel * world :=
  let st := setError None (setLoading true st) in
  let '(st, w) :=
    match predictAftershocks server
            [ prop earthquake "magnitude";
              prop earthquake "latitude";
              prop earthquake "longitude" ] w with
    | (Returned response, w') =>
        match read_predictions response with
        | Returned p => (setPredictions p st, w')
        | Thrown err => failed err st w'
        end
    | (Thrown err, w') => failed err st w'
    end in
  (setLoading false st, w).

End DetailPanel.

(** ** pages/models.js *)

Module ModelsPage.

(** One entry of the coverage list, as the page reads it. *)
Record model_summary : Type :=
  { region_id : string; quality : string; tectonic_setting : string;
    sequences : nat; aftershocks : nat }.

(** The body of the coverage query. *)
Record coverage_response : Type :=
  { total_models : nat; has_global_fallback : bool;
    coverage : list model_summary }.

(** The literal [{ high: 0, medium: 0, low: 0, unknown: 0 }]. *)
Definition stats0 : gmap string nat :=
  {[ "high" := 0%nat; "medium" := 0%nat; "low" := 0%nat; "unknown" := 0%nat ]}.

(** [stats[quality] = (stats[quality] || 0) + 1].  A [quality] that names a
    member of [Object.prototype] reads that member instead of a counter and
    leaves the table of counters: [None]. *)
Definition bump (stats : gmap string nat) (quality : string)
  : option (gmap string nat) :=
  if Js.inherited quality then None
  else Some (<[ quality := (default 0 (stats !! quality) + 1)%nat ]> stats).

(** [forEach] over the qualities, threading the table. *)
Fixpoint forEach (stats : gmap string nat) (qualities : list string)
  : option (gmap string nat) :=
  match qualities with
  | [] => Some stats
  | q :: rest =>
      match bump stats q with
      | Some stats' => forEach stats' rest
      | None => None
      end
  end.

Section WithLowerCase.
(** [String.prototype.toLowerCase], whatever it does beyond ASCII. *)
Variable toLowerCase : string -> string.

(** [getQualityStats()] over the [coverage] state of the page ([None]
    while it is still [null]). *)
Definition getQualityStats (cov : option coverage_response)
  : option (gmap string nat) :=
  match cov with
  | None => Some ∅
  | Some c =>
      forEach stats0 (map (fun model => toLowerCase (quality model)) (coverage c))
  end.

(** Number of listed models whose tier is [tier]. *)
Definition models_with_tier (tier : string) (c : coverage_response) : nat :=
  length (filter (fun model => toLowerCase (quality model) = tier) (coverage c)).
End WithLowerCase.

(** ASCII lower-casing, the part of [toLowerCase] the tiers exercise. *)
Definition lower_ascii (a : ascii) : ascii :=
  let n := nat_of_ascii a in
  if ((65 <=? n) && (n <=? 90))%nat then ascii_of_nat (n + 32) else a.

Fixpoint toLowerCase_ascii (s : string) : string :=
  match s with
  | EmptyString => EmptyString
  | String a s' => String (lower_ascii a) (toLowerCase_ascii s')
  end.

End ModelsPage.

(** ** components/Map/EarthquakeMap.js *)

Module EarthquakeMap.
Import Binary64.

Record zones : Type := { critical : num; high : num; moderate : num }.

Section WithMathPow.

(** [Math.pow]: the language leaves its result implementation-approximated. *)
Variable Math_pow : num -> num -> num.

(** [calculateHazardZones(magnitude)]. *)
Definition calculateHazardZones (magnitude : num) : zones :=
  let baseRadius := mul (Math_pow (Fin 10) (sub magnitude (Fin 2))) (Fin 1000) in
  {| critical := mul baseRadius (literal 0.3);
     high := mul baseRadius (literal 0.6);
     moderate := mul baseRadius (literal 1.0) |}.

End WithMathPow.

End EarthquakeMap.

(** ** components/Forecast/ProbabilityChart.js *)

Module ProbabilityChart.

(** A value of the [magnitude_probabilities] map: an object whose fields
    hold numbers. *)
Definition entry_value : Type := list (string * Js.number).

(** [Object.entries(probabilities)]: the map is kept as its own
    properties in enumeration order (the keys, of the form "M5.0", are not
    array indices, so that is insertion order). *)
Definition Object_entries (probabilities : list (string * entry_value))
  : list (string * entry_value) := probabilities.

(** [(a, b) => b[1].magnitude - a[1].magnitude]. *)
Definition comparator (a b : string * entry_value) : Js.number :=
  Js.sub (Js.ToNumber (Js.own (snd b) "magnitude"))
         (Js.ToNumber (Js.own (snd a) "magnitude")).

(** [SortCompare]: the comparator's result, NaN read as +0; [true] when
    [x] must come after [y]. *)
Definition comes_after {A : Type} (comparefn : A -> A -> Js.number) (x y : A) : bool :=
  match comparefn x y with
  | Js.NaN => false
  | Js.Fin v => if Qlt_le_dec 0 v then true else false
  end.

(** [Array.prototype.sort]: a stable sort, here by insertion. *)
Fixpoint insert_sorted {A : Type} (comparefn : A -> A -> Js.number)
    (x : A) (l : list A) : list A :=
  match l with
  | [] => [x]
  | y :: l' =>
      if comes_after comparefn x y then y :: insert_sorted comparefn x l'
      else x :: y :: l'
  end.

Fixpoint Array_sort {A : Type} (comparefn : A -> A -> Js.number)
    (l : list A) : list A :=
  match l with
  | [] => []
  | x :: l' => insert_sorted comparefn x (Array_sort comparefn l')
  end.

Definition sortedProbs (probabilities : list (string * entry_value))
  : list (string * entry_value) :=
  Array_sort comparator (Object_entries probabilities).

(** [labels] and [datasets[0].data] of the chart, bar by bar. *)
Definition labels (probabilities : list (string * entry_value)) : list string :=
  map fst (sortedProbs probabilities).

Definition chart_data (probabilities : list (string * entry_value))
  : list (option Js.number) :=
  map (fun e => Js.own (snd e) "percentage") (sortedProbs probabilities).

End ProbabilityChart.

(** ** The forecasting service: data model (design document, section 3) *)

Module Model.

(** Modelled from the spec: the forecasting service (ModelRegistry,
    ModelSelector, ForecastEngine, RiskClassifier) is not among the sources,
    only its HTTP client is.  This is the quality tier of section 3. *)
Inductive quality_tier : Type := High | Medium | Low | Unknown.

(** Modelled from the spec: a RegionalModel (section 3).  The global
    fallback model has the same shape. *)
Record RegionalModel : Type :=
  { identifier : string;
    cell : Z * Z;
    tectonic : string;
    omori_K : R;
    omori_c : R;
    omori_p : R;
    gr_a : R;
    gr_b : R;
    r_squared : R;
    quality : quality_tier;
    training_sequences : nat;
    training_aftershocks : nat }.

(** Modelled from the spec: a Mainshock (section 3); coordinates and
    magnitude are the decimals of the request. *)
Record Mainshock : Type :=
  { magnitude : Q;
    latitude : Q;
    longitude : Q;
    tectonic_setting : option string }.

(** Modelled from the spec: the request domain of section 6,
    latitude in [-90,90] and longitude in [-180,180). *)
Definition in_domain (ms : Mainshock) : Prop :=
  (-90 <= latitude ms)%Q /\ (latitude ms <= 90)%Q /\
  (-180 <= longitude ms)%Q /\ (longitude ms < 180)%Q.

(** Modelled from the spec: the load-time validity of the parameters
    (section 4.3, edge-case policy). *)
Definition valid_model (m : RegionalModel) : Prop :=
  (0 < omori_K m)%R /\ (0 < gr_b m)%R /\ (0 < omori_p m)%R /\ (0 <= omori_c m)%R.

End Model.

(** ** ModelRegistry (section 4.1) *)

Module Registry.
Import Model.

(** Modelled from the spec: the registry is the mapping from grid-cell id
    to regional model plus the mandatory global fallback; a registry
    without the fallback does not exist (its absence is fatal at start). *)
Record ModelRegistry : Type :=
  { regional : gmap (Z * Z) RegionalModel;
    global : RegionalModel;
    search_radius : Z }.

(** Modelled from the spec: [lookupByCell]. *)
Definition lookupByCell (reg : ModelRegistry) (cellId : Z * Z) : option RegionalModel :=
  regional reg !! cellId.

(** Modelled from the spec: the cell distance of the bounded search of
    [lookupByTectonic], which the service itself is missing to tell; here
    the larger of the two offsets, counted in cells. *)
Definition cell_distance (x y : Z * Z) : Z :=
  Z.max (Z.abs (fst x - fst y)) (Z.abs (snd x - snd y)) / 5.

(** Modelled from the spec: one step of the search for the nearest model
    of [lookupByTectonic], the nearer of a candidate and the best so far. *)
Definition nearer (near : Z * Z) (best : option RegionalModel) (m : RegionalModel)
  : option RegionalModel :=
  match best with
  | None => Some m
  | Some b =>
      if (cell_distance near (cell m) <? cell_distance near (cell b))%Z
      then Some m else Some b
  end.

(** Modelled from the spec: [lookupByTectonic], the nearest regional model
    sharing the tag within the bounded cell-distance search. *)
Definition lookupByTectonic (reg : ModelRegistry) (setting : string) (near : Z * Z)
  : option RegionalModel :=
  foldl (nearer near) None
    (filter (fun m => tectonic m = setting /\
                      (cell_distance near (cell m) <= search_radius reg)%Z)
            (snd <$> map_to_list (regional reg))).

(** Modelled from the spec: [globalFallback]. *)
Definition globalFallback (reg : ModelRegistry) : RegionalModel := global reg.

End Registry.

(** ** ModelSelector (section 4.2) *)

Module Selector.
Import Model Registry.

(** Modelled from the spec: the provenance tag of the ModelSelector
    (section 3: regional, tectonic_fallback, global). *)
Inductive source : Type := regional_source | tectonic_fallback | global_source.

(** Modelled from the spec: the output of the ModelSelector, the selected
    model plus its provenance tag. *)
Record Selected : Type := { model : RegionalModel; provenance : source }.

(** Modelled from the spec: the grid cell id,
    [(floor(lat/5)*5, floor(lon/5)*5)]. *)
Definition cellId (lat lon : Q) : Z * Z :=
  ((Qfloor (lat / 5) * 5)%Z, (Qfloor (lon / 5) * 5)%Z).

(** Modelled from the spec: the minimum-quality gate,
    training_sequences >= 3 and training_aftershocks >= 30. *)
Definition passes_gate (m : RegionalModel) : bool :=
  (3 <=? training_sequences m)%nat && (30 <=? training_aftershocks m)%nat.

(** Modelled from the spec: the gate of the ModelSelector applied to the
    result of a lookup; a model that fails it counts as absent. *)
Definition gated (src : source) (m : option RegionalModel) : option Selected :=
  match m with
  | Some r => if passes_gate r then Some {| model := r; provenance := src |} else None
  | None => None
  end.

(** Modelled from the spec: step 1 of the ModelSelector, the exact-cell
    model, if it passes the gate. *)
Definition exact_cell (reg : ModelRegistry) (ms : Mainshock) : option Selected :=
  gated regional_source (lookupByCell reg (cellId (latitude ms) (longitude ms))).

(** Modelled from the spec: the tectonic setting the ModelSelector knows,
    explicit or inferred from the cell's own tag. *)
Definition known_setting (reg : ModelRegistry) (ms : Mainshock) : option string :=
  match tectonic_setting ms with
  | Some s => Some s
  | None => tectonic <$> lookupByCell reg (cellId (latitude ms) (longitude ms))
  end.

(** Modelled from the spec: step 2 of the ModelSelector, the nearest model
    with the same tag, same gate. *)
Definition tectonic_neighbour (reg : ModelRegistry) (ms : Mainshock) : option Selected :=
  match known_setting reg ms with
  | Some s =>
      gated tectonic_fallback
        (lookupByTectonic reg s (cellId (latitude ms) (longitude ms)))
  | None => None
  end.

(** Modelled from the spec: step 3 of the ModelSelector, the global
    fallback, which always succeeds. *)
Definition global_fallback (reg : ModelRegistry) (ms : Mainshock) : option Selected :=
  Some {| model := globalFallback reg; provenance := global_source |}.

(** Modelled from the spec: the ordered list of selection strategies of
    the ModelSelector (section 9). *)
Definition strategies : list (ModelRegistry -> Mainshock -> option Selected) :=
  [ exact_cell; tectonic_neighbour; global_fallback ].

(** Modelled from the spec: the strategies of the ModelSelector are tried
    in order and the first present result wins; [None] is "no model". *)
Fixpoint first_present (ss : list (ModelRegistry -> Mainshock -> option Selected))
    (reg : ModelRegistry) (ms : Mainshock) : option Selected :=
  match ss with
  | [] => None
  | s :: rest =>
      match s reg ms with
      | Some sel => Some sel
      | None => first_present rest reg ms
      end
  end.

(** Modelled from the spec: the resolution of the ModelSelector. *)
Definition selectModel (reg : ModelRegistry) (ms : Mainshock) : option Selected :=
  first_present strategies reg ms.

End Selector.

(** ** ForecastEngine (section 4.3) *)

Module Engine.
Import Model.
Local Open Scope R_scope.

Section Numerics.

(** Modelled from the spec: the small positive epsilon of the
    ForecastEngine at which inputs are floored, and the tolerance within
    which [p] counts as 1; the design document fixes neither value. *)
Variables (eps tol : R).

(** Modelled from the spec: the fixed horizon set of the ForecastEngine,
    in days. *)
Definition horizons : list R := [1; 7; 30; 365].

(** Modelled from the spec: the reference magnitude of the ForecastEngine. *)
Definition m_ref : R := 2.5.

(** Modelled from the spec: in the ForecastEngine an input is floored at
    epsilon before it is raised to a power or its logarithm is taken. *)
Definition floor_eps (x : R) : R := Rmax x eps.

(** Modelled from the spec: [rate(t) = K / (t + c)^p]. *)
Definition rate (m : RegionalModel) (t : R) : R :=
  omori_K m / Rpower (floor_eps (t + omori_c m)) (omori_p m).

(** Modelled from the spec: the closed-form integral of the rate from 0 to
    [D], logarithmic when [p] is within the tolerance of 1, a power law
    otherwise. *)
Definition cumulative (m : RegionalModel) (D : R) : R :=
  if Rlt_dec (Rabs (omori_p m - 1)) tol then
    omori_K m * ln (floor_eps (D + omori_c m) / floor_eps (omori_c m))
  else
    omori_K m / (1 - omori_p m) *
    (Rpower (floor_eps (D + omori_c m)) (1 - omori_p m)
     - Rpower (floor_eps (omori_c m)) (1 - omori_p m)).

(** Modelled from the spec:
    [expectedCount(m) = cumulative(365) * 10^(-b (m - m_ref))]. *)
Definition expectedCount (m : RegionalModel) (threshold : R) : R :=
  cumulative m 365 * Rpower 10 (- gr_b m * (threshold - m_ref)).

(** Modelled from the spec: the clamp to [0,1] of the ForecastEngine. *)
Definition clamp01 (x : R) : R := Rmax 0 (Rmin 1 x).

(** Modelled from the spec: [P(m) = 1 - exp(-expectedCount(m))], clamped
    to [0,1]. *)
Definition P (m : RegionalModel) (threshold : R) : R :=
  clamp01 (1 - exp (- expectedCount m threshold)).

(** Modelled from the spec: the monotonic repair of the ForecastEngine;
    along increasing thresholds, a value above its predecessor is clamped
    down to it. *)
Fixpoint enforce_monotone (prev : R) (raw : list R) : list R :=
  match raw with
  | [] => []
  | x :: rest =>
      let y := Rmin prev (clamp01 x) in
      y :: enforce_monotone y rest
  end.

(** Modelled from the spec: the probabilities the ForecastEngine emits for
    the thresholds, taken in increasing order; [evaluate] is the arithmetic
    that evaluates [P], exact or rounded. *)
Definition magnitude_probabilities (evaluate : RegionalModel -> R -> R)
    (m : RegionalModel) (thresholds : list R) : list R :=
  enforce_monotone 1 (map (evaluate m) thresholds).

End Numerics.

(** Modelled from the spec: the thresholds of the ForecastEngine, from the
    mainshock magnitude down in steps of 0.5. *)
Fixpoint steps_down (top : Q) (n : nat) : list Q :=
  match n with
  | O => [top]
  | S n' => top :: steps_down (top - (1 # 2)) n'
  end.

(** Modelled from the spec: the thresholds of the ForecastEngine from the
    mainshock magnitude down to 2.5, listed in increasing order, the order
    in which their probabilities are emitted (none when the mainshock is
    below 2.5). *)
Definition thresholds (ms : Mainshock) : list Q :=
  if Qlt_le_dec (magnitude ms) (5 # 2) then []
  else
    rev (steps_down (magnitude ms)
           (Z.to_nat (Qfloor ((magnitude ms - (5 # 2)) / (1 # 2))))).

End Engine.

(** ** RiskClassifier (section 4.4): the levels and their colours *)

Module RiskClassifier.

(** Modelled from the spec: the four levels of the RiskClassifier, which is
    not among the sources. *)
Inductive RiskLevel : Type := CRITICAL | HIGH | ELEVATED | MODERATE.

(** The spelling of a level in [risk_assessment.level], the key
    [getRiskLevelColor] receives. *)
Definition level_name (l : RiskLevel) : string :=
  match l with
  | CRITICAL => "CRITICAL"
  | HIGH => "HIGH"
  | ELEVATED => "ELEVATED"
  | MODERATE => "MODERATE"
  end.

(** Modelled from the spec: the colour column of the table of the
    RiskClassifier (section 4.4), as the design document writes it. *)
Definition table_color (l : RiskLevel) : string :=
  match l with
  | CRITICAL => "#dc2626"
  | HIGH => "#f59e0b"
  | ELEVATED => "#fbbf24"
  | MODERATE => "#10b981"
  end.

(** The key of a level in the theme palette. *)
Definition theme_key (l : RiskLevel) : string :=
  match l with
  | CRITICAL => "risk-critical"
  | HIGH => "risk-high"
  | ELEVATED => "risk-elevated"
  | MODERATE => "risk-moderate"
  end.

End RiskClassifier.

(** ** Shapes and measures used in the statements *)

Module Shapes.

(** The four quality tiers, in lower case. *)
Definition tiers : list string := [ "high"; "medium"; "low"; "unknown" ].

(** A value of [magnitude_probabilities] in the documented shape: its
    fields are [probability] and [percentage], nothing else. *)
Definition documented_shape (v : ProbabilityChart.entry_value) : Prop :=
  Forall (fun k => k = "probability" \/ k = "percentage") (map fst v).

(** Occurrences of [k] among the qualities. *)
Definition occurrences (k : string) (qs : list string) : nat :=
  length (filter (fun q => q = k) qs).

(** One decimal: the integer part of the tenths [k], a point, the last
    digit. *)
Definition tenths_ok (k : Z) : bool :=
  String.eqb (Js.fixed_point (Z.to_N k) 1)
             (Js.digits (Z.to_N (k / 10)) ++ "." ++ Js.digits (Z.to_N (k mod 10))).

(** A list of reals that never increases from one element to the next. *)
Definition non_increasing (l : list R) : Prop :=
  StronglySorted (fun x y => (y <= x)%R) l.

End Shapes.

(** ** Numbers: comparison, [Math] and string conversion *)

Module JsNum.
Import Js.

(** A number is falsy exactly when it is 0 or NaN. *)
Definition truthy (x : number) : bool :=
  match x with
  | NaN => false
  | Fin q => negb (Qeq_bool q 0)
  end.

(** [x >= y]; a comparison with NaN is false. *)
Definition ge (x y : number) : bool :=
  match x, y with
  | Fin a, Fin b => Qle_bool b a
  | _, _ => false
  end.

(** [x * y]. *)
Definition mul (x y : number) : number :=
  match x, y with
  | Fin a, Fin b => Fin (a * b)
  | _, _ => NaN
  end.

(** [Math.max(x, y)] and [Math.min(x, y)]: NaN when an argument is NaN. *)
Definition Math_max (x y : number) : number :=
  match x, y with
  | Fin a, Fin b => Fin (if Qle_bool a b then b else a)
  | _, _ => NaN
  end.

Definition Math_min (x y : number) : number :=
  match x, y with
  | Fin a, Fin b => Fin (if Qle_bool a b then a else b)
  | _, _ => NaN
  end.

(** [Math.abs(x)]. *)
Definition Math_abs (x : number) : number :=
  match x with
  | NaN => NaN
  | Fin a => Fin (Qabs a)
  end.

(** [Math.round(x)]: the integer closest to [x], the larger one on a tie. *)
Definition Math_round (x : number) : option Z :=
  match x with
  | NaN => None
  | Fin a => Some (Qfloor (a + (1 # 2)))
  end.

(** [x.toFixed(f)] on a number: "NaN" for NaN. *)
Definition toFixed (x : number) (f : nat) : option string :=
  match x with
  | NaN => Some "NaN"
  | Fin a => Js.toFixed a f
  end.

(** The string of an integer-valued number below 10^21 in absolute value,
    as a template literal prints it; beyond that the exponent notation,
    which is not modelled ([None]). *)
Definition integer_to_string (z : Z) : option string :=
  if (Z.abs z <? 10 ^ 21)%Z then Some (NilZero.string_of_int (Z.to_int z))
  else None.

End JsNum.

(** ** utils/formatters.js: the remaining formatters *)

Module Format.
Import Js.

(** An argument that is a string, [null] or [undefined]. *)
Inductive nullable : Type :=
| Null
| Undefined
| Str (s : string).

(** The degree sign, one code unit (U+00B0). *)
Definition degree : string := String (ascii_of_nat 176) "".

(** [`M${magnitude.toFixed(1)}`]. *)
Definition formatMagnitude (magnitude : number) : option string :=
  match JsNum.toFixed magnitude 1 with
  | Some s => Some ("M" ++ s)
  | None => None
  end.

(** [`${Math.round(depth)} km`]. *)
Definition formatDepth (depth : number) : option string :=
  match JsNum.Math_round depth with
  | None => Some "NaN km"
  | Some z =>
      match JsNum.integer_to_string z with
      | Some s => Some (s ++ " km")
      | None => None
      end
  end.

(** [formatCoordinates(lat, lon)]. *)
Definition formatCoordinates (lat lon : number) : option string :=
  let latDir := if JsNum.ge lat (Fin 0) then "N" else "S" in
  let lonDir := if JsNum.ge lon (Fin 0) then "E" else "W" in
  match JsNum.toFixed (JsNum.Math_abs lat) 2, JsNum.toFixed (JsNum.Math_abs lon) 2 with
  | Some a, Some b =>
      Some (a ++ degree ++ latDir ++ ", " ++ b ++ degree ++ lonDir)
  | _, _ => None
  end.

(** [getMagnitudeColor(magnitude)]. *)
Definition getMagnitudeColor (magnitude : number) : string :=
  if JsNum.ge magnitude (Fin 7) then "#dc2626"
  else if JsNum.ge magnitude (Fin 6) then "#f59e0b"
  else if JsNum.ge magnitude (Fin 5) then "#fbbf24"
  else "#10b981".

(** The table of [getQualityColor]. *)
Definition quality_colors : list (string * string) :=
  [ ("high", "#10b981");
    ("medium", "#f59e0b");
    ("low", "#dc2626");
    ("unknown", "#4b5563") ].

(** [colors.unknown]. *)
Definition colors_unknown : string :=
  match own quality_colors "unknown" with
  | Some c => c
  | None => ""
  end.

Section WithLowerCase.
(** [String.prototype.toLowerCase], whatever it does beyond ASCII. *)
Variable toLowerCase : string -> string.

(** [quality?.toLowerCase()]: [undefined] for [null] and [undefined], and
    [undefined] used as a key is the string "undefined". *)
Definition quality_key (quality : nullable) : string :=
  match quality with
  | Null | Undefined => "undefined"
  | Str s => toLowerCase s
  end.

(** [colors[quality?.toLowerCase()] || colors.unknown].  A key that names
    a member of [Object.prototype] reads that member, which is truthy and
    is not a colour string: the result is then [None]. *)
Definition getQualityColor (quality : nullable) : option string :=
  match own quality_colors (quality_key quality) with
  | Some c => Some (if truthy_string c then c else colors_unknown)
  | None => if inherited (quality_key quality) then None else Some colors_unknown
  end.
End WithLowerCase.

(** ASCII upper-casing. *)
Definition upper_ascii (a : ascii) : ascii :=
  let n := nat_of_ascii a in
  if ((97 <=? n) && (n <=? 122))%nat then ascii_of_nat (n - 32) else a.

Fixpoint toUpperCase_ascii (s : string) : string :=
  match s with
  | EmptyString => EmptyString
  | String a s' => String (upper_ascii a) (toUpperCase_ascii s')
  end.

(** Strings of ASCII characters, on which [toUpperCase] and [toLowerCase]
    are the character-wise ASCII mappings. *)
Fixpoint ascii_only (s : string) : bool :=
  match s with
  | EmptyString => true
  | String a s' => (nat_of_ascii a <? 128)%nat && ascii_only s'
  end.

(** [formatQuality(quality)] on ASCII text:
    [quality.charAt(0).toUpperCase() + quality.slice(1).toLowerCase()]. *)
Definition formatQuality (quality : nullable) : string :=
  match quality with
  | Null | Undefined => "Unknown"
  | Str EmptyString => "Unknown"
  | Str (String a rest) =>
      toUpperCase_ascii (String a "") ++ ModelsPage.toLowerCase_ascii rest
  end.

(** [s.replace(a, b)] for a pattern and a replacement of one character
    each: the first occurrence only. *)
Fixpoint replace_first (a b : ascii) (s : string) : string :=
  match s with
  | EmptyString => EmptyString
  | String c s' =>
      if Ascii.eqb c a then String b s' else String c (replace_first a b s')
  end.

(** [model.tectonic_setting.replace('_', ' ')] of the models table and
    [model_info.source.replace('_', ' ')] of the detail panel. *)
Definition humanize (s : string) : string := replace_first "_" " " s.

(** Occurrences of a character. *)
Fixpoint count_char (a : ascii) (s : string) : nat :=
  match s with
  | EmptyString => 0
  | String c s' => ((if Ascii.eqb c a then 1 else 0) + count_char a s')%nat
  end.

End Format.

(** ** The earthquakes of the catalogue feed *)

Module Quakes.

(** An earthquake as the components read it; [id] is [None] when the
    property is missing ([undefined]). *)
Record quake : Type :=
  { id : option string;
    magnitude : Js.number;
    latitude : Js.number;
    longitude : Js.number;
    place : Formatters.place_arg }.

(** [x === y] on two ids (strings or [undefined]). *)
Definition id_eqb (x y : option string) : bool := bool_decide (x = y).

End Quakes.

(** ** components/Map/EarthquakeMap.js: styles, markers and the view *)

Module MapView.
Import Js Quakes.

(** The result of reading a key of an object literal: an own property,
    nothing ([undefined]), or a member of [Object.prototype]. *)
Inductive read (V : Type) : Type :=
| Own (v : V)
| Missing
| Prototype (k : string).
Arguments Own {V} v.
Arguments Missing {V}.
Arguments Prototype {V} k.

Definition read_key {V : Type} (o : list (string * V)) (k : string) : read V :=
  match own o k with
  | Some v => Own v
  | None => if inherited k then Prototype k else Missing
  end.

Record zone_style : Type :=
  { fillColor : string; fillOpacity : Q; color : string; weight : Q; opacity : Q }.

(** [getZoneStyle(zoneType, magnitude)]. *)
Definition getZoneStyle (zoneType : string) (magnitude : number) : read zone_style :=
  let color := Format.getMagnitudeColor magnitude in
  let styles :=
    [ ("critical",
       {| fillColor := color; fillOpacity := 0.35; color := color;
          weight := 2; opacity := 0.8 |});
      ("high",
       {| fillColor := color; fillOpacity := 0.20; color := color;
          weight := 1.5; opacity := 0.6 |});
      ("moderate",
       {| fillColor := color; fillOpacity := 0.10; color := color;
          weight := 1; opacity := 0.4 |}) ] in
  read_key styles zoneType.

(** The radius [calculateHazardZones] gives a zone type, in metres. *)
Definition zone_radius (Math_pow : Binary64.num -> Binary64.num -> Binary64.num)
    (zoneType : string) (magnitude : Binary64.num) : option Binary64.num :=
  let zones := EarthquakeMap.calculateHazardZones Math_pow magnitude in
  if decide (zoneType = "critical") then Some (EarthquakeMap.critical zones)
  else if decide (zoneType = "high") then Some (EarthquakeMap.high zones)
  else if decide (zoneType = "moderate") then Some (EarthquakeMap.moderate zones)
  else None.

(** [EpicenterMarker]: [Math.max(8, Math.min(24, mag * 4))]. *)
Definition marker_radius (mag : number) : number :=
  JsNum.Math_max (Fin 8) (JsNum.Math_min (Fin 24) (JsNum.mul mag (Fin 4))).

(** [Math.max(48, radius * 4)]. *)
Definition containerSize (mag : number) : number :=
  JsNum.Math_max (Fin 48) (JsNum.mul (marker_radius mag) (Fin 4)).

(** [isSelected] of a marker:
    [selectedEarthquake && selectedEarthquake.id === eq.id], as a
    condition. *)
Definition marker_isSelected (selectedEarthquake : option quake) (eq : quake) : bool :=
  match selectedEarthquake with
  | None => false
  | Some sel => id_eqb (id sel) (id eq)
  end.

(** The [center] and [zoom] props: [center] is an array or missing, [zoom]
    a number or missing. *)
Record props : Type :=
  { center : option (number * number); zoom : option number }.

(** The view state of the [EarthquakeMap] component. *)
Record view : Type := { mapCenter : number * number; mapZoom : number }.

(** [zoom] as a condition: a missing prop, 0 and NaN are falsy. *)
Definition zoom_given (z : option number) : bool :=
  match z with
  | None => false
  | Some n => JsNum.truthy n
  end.

(** [useState(center || [20, 0])] and [useState(zoom || 2)]. *)
Definition initial_view (p : props) : view :=
  {| mapCenter := default (Fin 20, Fin 0) (center p);
     mapZoom := if zoom_given (zoom p) then default (Fin 2) (zoom p) else Fin 2 |}.

(** The effect run when the props change:
    [if (center) setMapCenter(center); if (zoom) setMapZoom(zoom)]. *)
Definition props_changed (p : props) (v : view) : view :=
  {| mapCenter := default (mapCenter v) (center p);
     mapZoom := if zoom_given (zoom p) then default (mapZoom v) (zoom p)
                else mapZoom v |}.

(** The view after the component was mounted with [p] and its props
    changed to each element of [ps] in turn. *)
Definition view_after (p : props) (ps : list props) : view :=
  foldl (fun v q => props_changed q v) (props_changed p (initial_view p)) ps.

End MapView.

(** ** components/Earthquake/EarthquakeList.js *)

Module EarthquakeList.
Import Quakes.

(** [selectedEarthquake?.id === eq.id]. *)
Definition isSelected (selectedEarthquake : option quake) (eq : quake) : bool :=
  match selectedEarthquake with
  | None => id_eqb None (id eq)
  | Some sel => id_eqb (id sel) (id eq)
  end.

End EarthquakeList.

(** ** utils/api.js: the earthquakes feed *)

Module Client.
Import Api.

(** A GET handed to the axios instance. *)
Record get_request : Type :=
  { path : string; params : list (string * value) }.

(** The observable effects: the GET requests sent, in order, and the
    argument lists of the calls of [console.error]. *)
Record net : Type :=
  { requested : list get_request; logged : list (list value) }.

(** [try { response = await api.get(path, {params}); return response.data }
    catch (error) { console.error(msg, error); throw error }], the body
    of a GET helper; [D] is the type of [response.data]. *)
Definition get_data {D : Type} (server : get_request -> outcome D)
    (p : string) (ps : list (string * value)) (msg : string) (w : net)
  : outcome D * net :=
  let rq := {| path := p; params := ps |} in
  let w' := {| requested := requested w ++ [rq]; logged := logged w |} in
  match server rq with
  | Returned d => (Returned d, w')
  | Thrown e =>
      (Thrown e,
       {| requested := requested w'; logged := logged w' ++ [[VString msg; e]] |})
  end.

(** [fetchRecentEarthquakes(days = 7, minMagnitude = 4.0)]. *)
Definition fetchRecentEarthquakes {D : Type} (server : get_request -> outcome D)
    (args : list value) : net -> outcome D * net :=
  let days := default_param (arg args 0) (VNumber (Js.Fin 7)) in
  let minMagnitude := default_param (arg args 1) (VNumber (Js.Fin 4)) in
  get_data server "/api/earthquakes"
    [ ("days", days); ("min_magnitude", minMagnitude) ]
    "Error fetching earthquakes:".

End Client.

(** ** pages/index.js: the live monitor *)

Module Home.
Import Js Quakes Api.

(** The body of the earthquakes feed: [data] itself may be missing
    ([undefined] or [null]), and so may its [earthquakes] list. *)
Inductive feed : Type :=
| FeedMissing
| FeedObject (earthquakes : option (list quake)).

(** The state of the page. *)
Record home : Type :=
  { earthquakes : list quake;
    selectedEarthquake : option quake;
    timeFilter : number;
    loading : bool;
    error : option string;
    mapCenter : number * number;
    mapZoom : number;
    showSidebar : bool }.

(** The initial [useState] values. *)
Definition initial : home :=
  {| earthquakes := [];
     selectedEarthquake := None;
     timeFilter := Fin 7;
     loading := true;
     error := None;
     mapCenter := (Fin 20, Fin 0);
     mapZoom := Fin 2;
     showSidebar := true |}.

(** The [try] block of [loadEarthquakes] once the data has arrived; reading
    [data.earthquakes] of a missing [data] throws. *)
Definition loaded (data : feed) (st : home) : outcome home :=
  match data with
  | FeedMissing => Thrown (VString "TypeError")
  | FeedObject eqs =>
      let st :=
        {| earthquakes := default [] eqs;
           selectedEarthquake := selectedEarthquake st;
           timeFilter := timeFilter st; loading := loading st;
           error := error st; mapCenter := mapCenter st;
           mapZoom := mapZoom st; showSidebar := showSidebar st |} in
      match eqs with
      | Some (latest :: _) =>
          Returned
            {| earthquakes := earthquakes st;
               selectedEarthquake := selectedEarthquake st;
               timeFilter := timeFilter st; loading := loading st;
               error := error st;
               mapCenter := (latitude latest, longitude latest);
               mapZoom := Fin 5; showSidebar := showSidebar st |}
      | _ => Returned st
      end
  end.

(** The [catch] block: the error text is shown and the error logged. *)
Definition failed (err : value) (st : home) (w : Client.net) : home * Client.net :=
  ({| earthquakes := earthquakes st;
      selectedEarthquake := selectedEarthquake st;
      timeFilter := timeFilter st; loading := loading st;
      error := Some "Failed to load earthquakes. Please try again.";
      mapCenter := mapCenter st; mapZoom := mapZoom st;
      showSidebar := showSidebar st |},
   {| Client.requested := Client.requested w;
      Client.logged := Client.logged w ++ [[err]] |}).

Definition setLoading (b : bool) (st : home) : home :=
  {| earthquakes := earthquakes st;
     selectedEarthquake := selectedEarthquake st;
     timeFilter := timeFilter st; loading := b; error := error st;
     mapCenter := mapCenter st; mapZoom := mapZoom st;
     showSidebar := showSidebar st |}.

Definition setError (e : option string) (st : home) : home :=
  {| earthquakes := earthquakes st;
     selectedEarthquake := selectedEarthquake st;
     timeFilter := timeFilter st; loading := loading st; error := e;
     mapCenter := mapCenter st; mapZoom := mapZoom st;
     showSidebar := showSidebar st |}.

(** [loadEarthquakes]. *)
Definition loadEarthquakes (server : Client.get_request -> outcome feed)
    (st : home) (w : Client.net) : home * Client.net :=
  let st := setError None (setLoading true st) in
  let '(st, w) :=
    match Client.fetchRecentEarthquakes server
            [ VNumber (timeFilter st); VNumber (Fin 4) ] w with
    | (Returned data, w') =>
        match loaded data st with
        | Returned st' => (st', w')
        | Thrown err => failed err st w'
        end
    | (Thrown err, w') => failed err st w'
    end in
  (setLoading false st, w).

(** [handleEarthquakeClick(earthquake)]. *)
Definition handleEarthquakeClick (earthquake : quake) (st : home) : home :=
  {| earthquakes := earthquakes st;
     selectedEarthquake := Some earthquake;
     timeFilter := timeFilter st; loading := loading st; error := error st;
     mapCenter := (latitude earthquake, longitude earthquake);
     mapZoom := Fin 7; showSidebar := showSidebar st |}.

(** The success callback of [handleLocationClick]. *)
Definition located (lat lon : number) (st : home) : home :=
  {| earthquakes := earthquakes st;
     selectedEarthquake := selectedEarthquake st;
     timeFilter := timeFilter st; loading := loading st; error := error st;
     mapCenter := (lat, lon);
     mapZoom := Fin 8; showSidebar := showSidebar st |}.

(** [onClose] of the detail panel: [setSelectedEarthquake(null)]. *)
Definition closeDetail (st : home) : home :=
  {| earthquakes := earthquakes st;
     selectedEarthquake := None;
     timeFilter := timeFilter st; loading := loading st; error := error st;
     mapCenter := mapCenter st; mapZoom := mapZoom st;
     showSidebar := showSidebar st |}.

(** [setShowSidebar(!showSidebar)]. *)
Definition toggleSidebar (st : home) : home :=
  {| earthquakes := earthquakes st;
     selectedEarthquake := selectedEarthquake st;
     timeFilter := timeFilter st; loading := loading st; error := error st;
     mapCenter := mapCenter st; mapZoom := mapZoom st;
     showSidebar := negb (showSidebar st) |}.

(** What can happen to the page: the time filter is changed to another
    value (which reloads the feed, answered by [server]), an earthquake is
    clicked, the browser reports a position, the detail panel is closed,
    the sidebar toggled. *)
Inductive event : Type :=
| TimeFilterChanged (days : number) (server : Client.get_request -> outcome feed)
| EarthquakeClicked (earthquake : quake)
| Located (lat lon : number)
| DetailClosed
| SidebarToggled.

Definition setTimeFilter (days : number) (st : home) : home :=
  {| earthquakes := earthquakes st;
     selectedEarthquake := selectedEarthquake st;
     timeFilter := days; loading := loading st; error := error st;
     mapCenter := mapCenter st; mapZoom := mapZoom st;
     showSidebar := showSidebar st |}.

Definition step (st : home * Client.net) (e : event) : home * Client.net :=
  let '(s, w) := st in
  match e with
  | TimeFilterChanged days server => loadEarthquakes server (setTimeFilter days s) w
  | EarthquakeClicked earthquake => (handleEarthquakeClick earthquake s, w)
  | Located lat lon => (located lat lon s, w)
  | DetailClosed => (closeDetail s, w)
  | SidebarToggled => (toggleSidebar s, w)
  end.

(** The page after its first load, answered by [server], and the events. *)
Definition run (server : Client.get_request -> outcome feed) (es : list event)
    (w : Client.net) : home * Client.net :=
  foldl step (loadEarthquakes server initial w) es.

(** The props the page hands to [EarthquakeMap]. *)
Definition map_props (st : home) : MapView.props :=
  {| MapView.center := Some (mapCenter st); MapView.zoom := Some (mapZoom st) |}.

End Home.

(** ** components/Forecast/DecayCurveChart.js *)

Module DecayCurveChart.

(** [Object.values(forecasts)], in enumeration order. *)
Definition Object_values (forecasts : list (string * ProbabilityChart.entry_value))
  : list ProbabilityChart.entry_value := map snd forecasts.

(** [(a, b) => a.days - b.days]. *)
Definition comparator (a b : ProbabilityChart.entry_value) : Js.number :=
  Js.sub (Js.ToNumber (Js.own a "days")) (Js.ToNumber (Js.own b "days")).

Definition sortedForecasts (forecasts : list (string * ProbabilityChart.entry_value))
  : list ProbabilityChart.entry_value :=
  ProbabilityChart.Array_sort comparator (Object_values forecasts).

(** [datasets[0].data]: [f.rate_per_day], point by point. *)
Definition chart_data (forecasts : list (string * ProbabilityChart.entry_value))
  : list (option Js.number) :=
  map (fun f => Js.own f "rate_per_day") (sortedForecasts forecasts).

(** The [days] of a forecast that has them, 0 otherwise. *)
Definition days_of (f : ProbabilityChart.entry_value) : Q :=
  match Js.own f "days" with
  | Some (Js.Fin d) => d
  | _ => 0
  end.

(** A forecast whose [days] field is a finite number. *)
Definition has_days (f : ProbabilityChart.entry_value) : Prop :=
  exists d : Q, Js.own f "days" = Some (Js.Fin d).

End DecayCurveChart.

(** ** components/Forecast/ProbabilityChart.js: the bar colours *)

Module BarColors.

(** [0.8 - (idx * 0.1)], the alpha of bar [idx]. *)
Definition alpha (idx : nat) : Q := 0.8 - inject_Z (Z.of_nat idx) * 0.1.

(** The alphas of [backgroundColor], bar by bar. *)
Definition backgroundAlphas (probabilities : list (string * ProbabilityChart.entry_value))
  : list Q :=
  map alpha (seq 0 (length (ProbabilityChart.sortedProbs probabilities))).

(** The bars drawn with a positive alpha. *)
Definition visible_bars (probabilities : list (string * ProbabilityChart.entry_value))
  : nat :=
  length (List.filter (fun a => if Qlt_le_dec 0 a then true else false)
                      (backgroundAlphas probabilities)).

End BarColors.

(** ** pages/models.js: the quality bars and the table *)

Module ModelsTable.
Import ModelsPage.

(** [coverage.coverage.slice(0, 20)], the rows of the table. *)
Definition rows (c : coverage_response) : list model_summary :=
  firstn 20 (coverage c).

(** [coverage.coverage.length > 20]: the "Showing 20 of ..." footer. *)
Definition shows_footer (c : coverage_response) : bool :=
  (20 <? length (coverage c))%nat.

(** [(count / coverage.total_models) * 100]: the quotient and the product
    are the binary64 ones.  Both operands of the quotient are integers
    below 2^53, which are Numbers. *)
Definition percentage (count : nat) (c : coverage_response) : Binary64.num :=
  Binary64.mul
    (Binary64.div (Binary64.Fin (inject_Z (Z.of_nat count)))
                  (Binary64.Fin (inject_Z (Z.of_nat (total_models c)))))
    (Binary64.Fin 100).

End ModelsTable.

(** ** Measures used in the statements about the formatters *)

Module Measures.

(** How severe a colour of the palette is: red, orange, yellow, then the
    rest. *)
Definition severity (c : string) : nat :=
  if decide (c = "#dc2626") then 3
  else if decide (c = "#f59e0b") then 2
  else if decide (c = "#fbbf24") then 1
  else 0.

(** The key of a quality tier in the theme palette. *)
Definition theme_quality_key (tier : string) : string :=
  if decide (tier = "unknown") then "no-model" else "quality-" ++ tier.

(** The integer a decimal string denotes, if it is one. *)
Definition parse_integer (s : string) : option Z :=
  match NilZero.int_of_string s with
  | Some d => Some (Z.of_int d)
  | None => None
  end.

End Measures.

(** ** Sample data: a small registry and the scenarios of section 8 *)

Module Samples.
Import Model.

(** Scenario 1: K = 30, c = 1.0, p = 1.0. *)
Definition honshu : RegionalModel :=
  {| identifier := "region_35_135"; cell := (35, 135)%Z;
     tectonic := "subduction_zone";
     omori_K := 30; omori_c := 1; omori_p := 1; gr_a := 4; gr_b := 1;
     r_squared := 0.9; quality := High;
     training_sequences := 12; training_aftershocks := 480 |}.

(** Scenarios 2 and 4: K = 50, c = 0.5, p = 1.1, two training sequences. *)
Definition sparse : RegionalModel :=
  {| identifier := "region_35_140"; cell := (35, 140)%Z;
     tectonic := "subduction_zone";
     omori_K := 50; omori_c := 0.5; omori_p := 1.1; gr_a := 4; gr_b := 1;
     r_squared := 0.4; quality := Low;
     training_sequences := 2; training_aftershocks := 45 |}.

Definition worldwide : RegionalModel :=
  {| identifier := "global_fallback"; cell := (0, 0)%Z;
     tectonic := "global";
     omori_K := 20; omori_c := 0; omori_p := 1.2; gr_a := 4; gr_b := 1;
     r_squared := 0.7; quality := Medium;
     training_sequences := 300; training_aftershocks := 4200 |}.

Definition registry : Registry.ModelRegistry :=
  {| Registry.regional := {[ (35, 135)%Z := honshu; (35, 140)%Z := sparse ]};
     Registry.global := worldwide;
     Registry.search_radius := 3 |}.

Definition nagano : Mainshock :=
  {| magnitude := 6.5; latitude := 36.2; longitude := 138.3;
     tectonic_setting := None |}.

Definition offshore : Mainshock :=
  {| magnitude := 5.8; latitude := 36; longitude := 141.7;
     tectonic_setting := None |}.

Definition kyushu : Mainshock :=
  {| magnitude := 5.1; latitude := 31.4; longitude := 131.2;
     tectonic_setting := Some "subduction_zone" |}.

Definition atlantic : Mainshock :=
  {| magnitude := 4.9; latitude := -12.5; longitude := -14;
     tectonic_setting := None |}.

(** The Number written [0.0015], [0x1.89374bc6a7efap-10]. *)
Definition p_0015 : Q := 3458764513820541 # 2305843009213693952.

(** A stand-in for [Math.pow] in the examples, never negative and
    non-decreasing in the exponent: the power of the integer part of the
    exponent, so the exact power at an integer exponent. *)
Definition pow_step (b x : Binary64.num) : Binary64.num :=
  match b, x with
  | Binary64.Fin b, Binary64.Fin x => Binary64.of_Q (b ^ Qfloor x)
  | Binary64.Fin _, Binary64.Inf true => Binary64.Fin 0
  | Binary64.Fin _, Binary64.Inf false => Binary64.Inf false
  | _, _ => Binary64.NaN
  end.

End Samples.

(** * Properties *)

(** ** Strings *)

Lemma string_length_append (s t : string) :
  String.length (s ++ t) = (String.length s + String.length t)%nat.
Proof.
  induction s as [| a s IH]; simpl; [reflexivity | now rewrite IH].
Qed.

Lemma string_append_assoc (s t u : string) :
  (s ++ t) ++ u = s ++ (t ++ u).
Proof.
  induction s as [| a s IH]; [reflexivity |].
  change (String a ((s ++ t) ++ u) = String a (s ++ (t ++ u))).
  f_equal. exact IH.
Qed.

Lemma string_length_substring0 (n : nat) (s : string) :
  (n <= String.length s)%nat -> String.length (Js.substring0 n s) = n.
Proof.
  unfold Js.substring0. revert s.
  induction n as [| n IH]; intros s Hn.
  - destruct s; reflexivity.
  - destruct s as [| a s]; simpl in *; [lia |].
    rewrite IH; [reflexivity | lia].
Qed.

(** ** Risk colours *)

(** C4: for each of the four risk levels, [getRiskLevelColor] returns the
    colour of the table of section 4.4, and the theme palette binds the
    level's key to the same colour. *)
Theorem risk_level_color_table (l : RiskClassifier.RiskLevel) :
  Formatters.getRiskLevelColor (RiskClassifier.level_name l)
    = Some (RiskClassifier.table_color l)
  /\ Js.own Tailwind.theme_extend_colors (RiskClassifier.theme_key l)
    = Some (RiskClassifier.table_color l)
  /\ RiskClassifier.table_color l
     = match l with
       | RiskClassifier.CRITICAL => "#dc2626"
       | RiskClassifier.HIGH => "#f59e0b"
       | RiskClassifier.ELEVATED => "#fbbf24"
       | RiskClassifier.MODERATE => "#10b981"
       end.
Proof.
  destruct l; repeat split; vm_compute; reflexivity.
Qed.

(** ** Place names *)

Example truncatePlace_short :
  Formatters.truncatePlace (Formatters.PlaceString "10 km S of Town") None
  = "10 km S of Town".
Proof. reflexivity. Qed.

Example truncatePlace_cut :
  Formatters.truncatePlace (Formatters.PlaceString "10 km S of Town") (Some 5%nat)
  = "10 km...".
Proof. reflexivity. Qed.

Example truncatePlace_null :
  Formatters.truncatePlace Formatters.PlaceNull (Some 5%nat) = "Unknown location".
Proof. reflexivity. Qed.

(** C8: [truncatePlace] returns ['Unknown location'] for [null],
    [undefined] and the empty string; a non-empty string no longer than
    [maxLength] (50 when left out) unchanged; and otherwise the first
    [maxLength] characters of the place, a prefix of it, followed by
    ['...'], a result of length [maxLength + 3]. *)
Theorem truncatePlace_cases (place : Formatters.place_arg) (maxLength : option nat) :
  let n := default 50%nat maxLength in
  let r := Formatters.truncatePlace place maxLength in
  match place with
  | Formatters.PlaceNull | Formatters.PlaceUndefined => r = "Unknown location"
  | Formatters.PlaceString "" => r = "Unknown location"
  | Formatters.PlaceString s =>
      if decide (String.length s <= n)%nat then r = s
      else r = String.substring 0 n s ++ "..."
           /\ String.length r = (n + 3)%nat
           /\ String.length (String.substring 0 n s) = n
           /\ String.prefix (String.substring 0 n s) s = true
  end.
Proof.
  intros n r. subst r.
  destruct place as [| | s]; try reflexivity.
  destruct s as [| a s]; [reflexivity |].
  remember (String a s) as s0 eqn:Es0.
  assert (Hr : Formatters.truncatePlace (Formatters.PlaceString s0) maxLength
               = if (String.length s0 <=? n)%nat then s0
                 else Js.substring0 n s0 ++ "...")
    by (subst s0; reflexivity).
  rewrite Hr. clear Hr.
  destruct (decide (String.length s0 <= n)%nat) as [Hle | Hgt].
  - apply Nat.leb_le in Hle. now rewrite Hle.
  - assert (Hleb : (String.length s0 <=? n)%nat = false) by (apply Nat.leb_gt; lia).
    rewrite Hleb.
    pose proof (string_length_substring0 n s0 ltac:(lia)) as Hs.
    unfold Js.substring0 in *.
    split; [reflexivity |]. split; [| split].
    + rewrite string_length_append, Hs. reflexivity.
    + exact Hs.
    + apply prefix_correct. rewrite Hs. reflexivity.
Qed.

(** ** The forecast request *)

(** The body [predictAftershocks] posts for its four parameters. *)
Lemma predictAftershocks_sent (server : Api.request -> Api.outcome Api.response)
    (args : list Api.value) (w : Api.world) :
  Api.sent (snd (Api.predictAftershocks server args w))
  = (Api.sent w ++
    [ {| Api.url := "/api/predict";
         Api.body :=
           [ ("magnitude", Api.arg args 0);
             ("latitude", Api.arg args 1);
             ("longitude", Api.arg args 2);
             ("tectonic_setting", Api.default_param (Api.arg args 3) Api.VNull) ] |} ])%list.
Proof.
  unfold Api.predictAftershocks, Api.try_catch, mbind, Api.io_bind, Api.bind,
    Api.api_post, mret, Api.io_ret, Api.ret, Api.console_error, Api.throw.
  destruct (server _); reflexivity.
Qed.

(** C6: every call [predictAftershocks(magnitude, latitude, longitude,
    tectonicSetting)] posts to [/api/predict] one body with exactly the keys
    [magnitude], [latitude], [longitude] and [tectonic_setting], bound to the
    arguments, [tectonic_setting] being [null] when the fourth argument is
    left out; the call of the detail panel is such a call. *)
Theorem predictAftershocks_request_body
    (server : Api.request -> Api.outcome Api.response)
    (magnitude latitude longitude : Api.value) (tectonicSetting : option Api.value)
    (earthquake : list (string * Api.value)) (st : DetailPanel.panel)
    (w : Api.world) :
  let args :=
    ([magnitude; latitude; longitude] ++
     match tectonicSetting with Some v => [v] | None => [] end)%list in
  let posted := {|
    Api.url := "/api/predict";
    Api.body :=
      [ ("magnitude", magnitude);
        ("latitude", latitude);
        ("longitude", longitude);
        ("tectonic_setting",
          match tectonicSetting with
          | None | Some Api.VUndefined => Api.VNull
          | Some v => v
          end) ] |} in
  Api.sent (snd (Api.predictAftershocks server args w)) = (Api.sent w ++ [posted])%list
  /\ map fst (Api.body posted)
     = ["magnitude"; "latitude"; "longitude"; "tectonic_setting"]
  /\ Api.sent (snd (DetailPanel.fetchPredictions server earthquake st w))
     = (Api.sent w ++
       [ {| Api.url := "/api/predict";
            Api.body :=
              [ ("magnitude", DetailPanel.prop earthquake "magnitude");
                ("latitude", DetailPanel.prop earthquake "latitude");
                ("longitude", DetailPanel.prop earthquake "longitude");
                ("tectonic_setting", Api.VNull) ] |} ])%list.
Proof.
  intros args posted. split; [| split].
  - subst args posted. rewrite predictAftershocks_sent.
    destruct tectonicSetting as [[] |]; reflexivity.
  - reflexivity.
  - unfold DetailPanel.fetchPredictions.
    match goal with
    | |- context [Api.predictAftershocks server ?a w] =>
        pose proof (predictAftershocks_sent server a w) as Hs;
        destruct (Api.predictAftershocks server a w) as [[response | err] w']
    end; simpl in Hs.
    + destruct (DetailPanel.read_predictions response); simpl; exact Hs.
    + simpl. exact Hs.
Qed.

(** ** The probability chart *)

Lemma documented_shape_no_magnitude (v : ProbabilityChart.entry_value) :
  Shapes.documented_shape v -> Js.own v "magnitude" = None.
Proof.
  unfold Shapes.documented_shape.
  induction v as [| [k x] v IH]; intros H; simpl in *; [reflexivity |].
  inversion H as [| ? ? Hk Hv]; subst.
  destruct (decide (k = "magnitude")) as [-> | _].
  - destruct Hk as [Hk | Hk]; discriminate Hk.
  - apply IH, Hv.
Qed.

Lemma Array_sort_no_order {A : Type} (comparefn : A -> A -> Js.number) (l : list A) :
  (forall x y, In x l -> In y l -> comparefn x y = Js.NaN) ->
  ProbabilityChart.Array_sort comparefn l = l.
Proof.
  induction l as [| x l IH]; intros H; simpl; [reflexivity |].
  rewrite IH by (intros; apply H; now right).
  destruct l as [| y l']; simpl; [reflexivity |].
  unfold ProbabilityChart.comes_after.
  rewrite (H x y) by (simpl; auto). reflexivity.
Qed.

(** The sort only rearranges its input. *)
Lemma insert_sorted_permutation {A : Type} (comparefn : A -> A -> Js.number)
    (x : A) (l : list A) :
  Permutation (ProbabilityChart.insert_sorted comparefn x l) (x :: l).
Proof.
  induction l as [| y l IH]; simpl; [reflexivity |].
  destruct (ProbabilityChart.comes_after comparefn x y); [| reflexivity].
  rewrite IH. apply perm_swap.
Qed.

Lemma Array_sort_permutation {A : Type} (comparefn : A -> A -> Js.number)
    (l : list A) :
  Permutation (ProbabilityChart.Array_sort comparefn l) l.
Proof.
  induction l as [| x l IH]; simpl; [reflexivity |].
  rewrite insert_sorted_permutation. now constructor.
Qed.

Example sortedProbs_with_magnitude :
  ProbabilityChart.labels
    [ ("M4.0", [("magnitude", Js.Fin 4); ("percentage", Js.Fin 60)]);
      ("M6.0", [("magnitude", Js.Fin 6); ("percentage", Js.Fin 2)]);
      ("M5.0", [("magnitude", Js.Fin 5); ("percentage", Js.Fin 20)]) ]
  = ["M6.0"; "M5.0"; "M4.0"].
Proof. reflexivity. Qed.

(** C10: when every value of the magnitude-probabilities map has only the
    fields [probability] and [percentage], the comparator is NaN on every
    pair of entries, the sort leaves the entries as they are, and the bars
    of the chart come in the enumeration order of the map. *)
Theorem ProbabilityChart_keeps_enumeration_order
    (probabilities : list (string * ProbabilityChart.entry_value)) :
  Forall (fun e => Shapes.documented_shape (snd e)) probabilities ->
  (forall a b, In a probabilities -> In b probabilities ->
     ProbabilityChart.comparator a b = Js.NaN)
  /\ ProbabilityChart.sortedProbs probabilities
     = ProbabilityChart.Object_entries probabilities
  /\ ProbabilityChart.labels probabilities = map fst probabilities
  /\ ProbabilityChart.chart_data probabilities
     = map (fun e => Js.own (snd e) "percentage") probabilities.
Proof.
  intros Hshape.
  assert (Hnan : forall a b, In a probabilities -> In b probabilities ->
                   ProbabilityChart.comparator a b = Js.NaN).
  { intros a b Ha Hb. rewrite Forall_forall in Hshape.
    unfold ProbabilityChart.comparator.
    rewrite (documented_shape_no_magnitude (snd b))
      by (apply Hshape, list_elem_of_In, Hb).
    reflexivity. }
  assert (Hsort : ProbabilityChart.sortedProbs probabilities = probabilities)
    by (apply Array_sort_no_order, Hnan).
  unfold ProbabilityChart.labels, ProbabilityChart.chart_data.
  rewrite Hsort. repeat split; try reflexivity. exact Hnan.
Qed.

Lemma ProbabilityChart_keeps_enumeration_order_witness :
  ProbabilityChart.labels
    [ ("M3.0", [("probability", Js.Fin (9 # 10)); ("percentage", Js.Fin 90)]);
      ("M5.0", [("probability", Js.Fin (2 # 10)); ("percentage", Js.Fin 20)]);
      ("M4.0", [("probability", Js.Fin (6 # 10)); ("percentage", Js.Fin 60)]) ]
  = ["M3.0"; "M5.0"; "M4.0"].
Proof.
  refine (proj1 (proj2 (proj2 (ProbabilityChart_keeps_enumeration_order _ _)))).
  unfold Shapes.documented_shape; simpl.
  repeat match goal with
         | |- Forall _ _ => constructor
         | |- _ \/ _ => (left; reflexivity) || (right; reflexivity)
         end.
Defined.

(** ** Quality statistics of the model explorer *)

Lemma occurrences_cons (k q : string) (qs : list string) :
  Shapes.occurrences k (q :: qs)
  = ((if decide (q = k) then 1 else 0) + Shapes.occurrences k qs)%nat.
Proof.
  unfold Shapes.occurrences. rewrite filter_cons.
  destruct (decide (q = k)); reflexivity.
Qed.

Lemma models_with_tier_occurrences (toLowerCase : string -> string)
    (tier : string) (c : ModelsPage.coverage_response) :
  ModelsPage.models_with_tier toLowerCase tier c
  = Shapes.occurrences tier
      (map (fun model => toLowerCase (ModelsPage.quality model)) (ModelsPage.coverage c)).
Proof.
  unfold ModelsPage.models_with_tier, Shapes.occurrences.
  induction (ModelsPage.coverage c) as [| m l IH]; [reflexivity |].
  rewrite map_cons, !filter_cons.
  destruct (decide (toLowerCase (ModelsPage.quality m) = tier)); simpl; now rewrite IH.
Qed.

(** The loop adds to each counter the occurrences of its key. *)
Lemma forEach_counts (qs : list string) :
  forall stats : gmap string nat,
  Forall (fun q => Js.inherited q = false) qs ->
  exists stats' : gmap string nat,
    ModelsPage.forEach stats qs = Some stats'
    /\ forall k : string,
         stats' !! k
         = match Shapes.occurrences k qs with
           | O => stats !! k
           | S n => Some (default 0%nat (stats !! k) + S n)%nat
           end.
Proof.
  induction qs as [| q qs IH]; intros stats Hq.
  - exists stats. split; [reflexivity | intros k; reflexivity].
  - inversion Hq as [| ? ? Hq1 Hq2]; subst.
    simpl. unfold ModelsPage.bump. rewrite Hq1.
    destruct (IH (<[ q := (default 0%nat (stats !! q) + 1)%nat ]> stats) Hq2)
      as (stats' & Hrun & Hlook).
    exists stats'. split; [exact Hrun |].
    intros k. rewrite Hlook, occurrences_cons.
    destruct (decide (q = k)) as [-> | Hne].
    + rewrite lookup_insert_eq. simpl.
      destruct (Shapes.occurrences k qs); f_equal; lia.
    + rewrite lookup_insert_ne by exact Hne. reflexivity.
Qed.

Lemma tiers_not_inherited (q : string) :
  q ∈ Shapes.tiers -> Js.inherited q = false.
Proof.
  unfold Shapes.tiers. intros H.
  repeat (apply elem_of_cons in H; destruct H as [-> | H]; [reflexivity |]).
  now apply elem_of_nil in H.
Qed.

Lemma occurrences_tiers_total (qs : list string) :
  Forall (fun q => q ∈ Shapes.tiers) qs ->
  (Shapes.occurrences "high" qs + Shapes.occurrences "medium" qs
   + Shapes.occurrences "low" qs + Shapes.occurrences "unknown" qs)%nat = length qs.
Proof.
  induction qs as [| q qs IH]; intros H; [reflexivity |].
  inversion H as [| ? ? Hq Hqs]; subst.
  rewrite !occurrences_cons. specialize (IH Hqs).
  unfold Shapes.tiers in Hq.
  repeat (apply elem_of_cons in Hq; destruct Hq as [-> | Hq];
          [simpl; lia |]).
  now apply elem_of_nil in Hq.
Qed.

Lemma occurrences_outside (k : string) (qs : list string) :
  Forall (fun q => q ∈ Shapes.tiers) qs -> k ∉ Shapes.tiers -> Shapes.occurrences k qs = 0%nat.
Proof.
  induction qs as [| q qs IH]; intros H Hk; [reflexivity |].
  inversion H as [| ? ? Hq Hqs]; subst.
  rewrite occurrences_cons, (IH Hqs Hk).
  destruct (decide (q = k)) as [-> | _]; [contradiction | reflexivity].
Qed.

(** C7: when the lower-cased tier of every listed model is one of high,
    medium, low and unknown, [getQualityStats] returns exactly those four
    counters, each the number of models of its tier, and they add up to
    the length of the coverage list. *)
Theorem getQualityStats_counts (toLowerCase : string -> string)
    (c : ModelsPage.coverage_response) :
  Forall (fun model => toLowerCase (ModelsPage.quality model) ∈ Shapes.tiers)
         (ModelsPage.coverage c) ->
  exists stats : gmap string nat,
    ModelsPage.getQualityStats toLowerCase (Some c) = Some stats
    /\ dom stats = list_to_set Shapes.tiers
    /\ (forall tier, tier ∈ Shapes.tiers ->
          stats !! tier = Some (ModelsPage.models_with_tier toLowerCase tier c))
    /\ (ModelsPage.models_with_tier toLowerCase "high" c
        + ModelsPage.models_with_tier toLowerCase "medium" c
        + ModelsPage.models_with_tier toLowerCase "low" c
        + ModelsPage.models_with_tier toLowerCase "unknown" c)%nat
       = length (ModelsPage.coverage c).
Proof.
  intros Htiers.
  set (qs := map (fun model => toLowerCase (ModelsPage.quality model))
                 (ModelsPage.coverage c)).
  assert (Hqs : Forall (fun q => q ∈ Shapes.tiers) qs)
    by (subst qs; rewrite Forall_map; exact Htiers).
  destruct (forEach_counts qs ModelsPage.stats0) as (stats & Hrun & Hlook).
  { eapply Forall_impl; [exact Hqs |]. apply tiers_not_inherited. }
  assert (Htier : forall tier, tier ∈ Shapes.tiers ->
            stats !! tier = Some (Shapes.occurrences tier qs)).
  { intros tier Hin. rewrite Hlook.
    assert (H0 : ModelsPage.stats0 !! tier = Some 0%nat).
    { unfold Shapes.tiers in Hin.
      repeat (apply elem_of_cons in Hin; destruct Hin as [-> | Hin];
              [reflexivity |]).
      now apply elem_of_nil in Hin. }
    rewrite H0. destruct (Shapes.occurrences tier qs); reflexivity. }
  exists stats. split; [exact Hrun |]. split; [| split].
  - apply set_eq. intros k. rewrite elem_of_dom, elem_of_list_to_set.
    split.
    + intros [n Hn]. destruct (decide (k ∈ Shapes.tiers)) as [Hin | Hout]; [exact Hin |].
      rewrite Hlook, (occurrences_outside k qs Hqs Hout) in Hn.
      exfalso. apply Hout.
      assert (Hd : k ∈ dom ModelsPage.stats0) by (apply elem_of_dom; eauto).
      unfold ModelsPage.stats0 in Hd. unfold Shapes.tiers.
      rewrite !dom_insert_L, dom_singleton_L in Hd.
      rewrite !elem_of_union, !elem_of_singleton in Hd.
      rewrite !elem_of_cons. tauto.
    + intros Hin. rewrite (Htier k Hin). eauto.
  - intros tier Hin. rewrite (Htier tier Hin), models_with_tier_occurrences.
    reflexivity.
  - rewrite !models_with_tier_occurrences. fold qs.
    rewrite (occurrences_tiers_total qs Hqs). subst qs. apply length_map.
Qed.

Lemma getQualityStats_counts_witness :
  exists stats : gmap string nat,
    ModelsPage.getQualityStats ModelsPage.toLowerCase_ascii
      (Some {| ModelsPage.total_models := 3; ModelsPage.has_global_fallback := true;
               ModelsPage.coverage :=
                 [ {| ModelsPage.region_id := "region_35_135";
                      ModelsPage.quality := "High";
                      ModelsPage.tectonic_setting := "subduction_zone";
                      ModelsPage.sequences := 12; ModelsPage.aftershocks := 480 |};
                   {| ModelsPage.region_id := "region_-35_-75";
                      ModelsPage.quality := "LOW";
                      ModelsPage.tectonic_setting := "subduction_zone";
                      ModelsPage.sequences := 3; ModelsPage.aftershocks := 31 |};
                   {| ModelsPage.region_id := "region_35_-120";
                      ModelsPage.quality := "high";
                      ModelsPage.tectonic_setting := "transform_fault";
                      ModelsPage.sequences := 7; ModelsPage.aftershocks := 150 |} ] |})
    = Some stats
    /\ stats !! "high" = Some 2%nat.
Proof.
  match goal with
  | |- context [ModelsPage.getQualityStats _ (Some ?c)] =>
      destruct (getQualityStats_counts ModelsPage.toLowerCase_ascii c)
        as (stats & Hrun & _ & Hcount & _)
  end.
  - repeat constructor.
  - exists stats. split; [exact Hrun |].
    rewrite (Hcount "high") by (repeat constructor). reflexivity.
Defined.

(** ** Floors and comparisons of rationals *)

Lemma Qfloor_unique (x : Q) (z : Z) :
  (inject_Z z <= x)%Q -> (x < inject_Z (z + 1))%Q -> Qfloor x = z.
Proof.
  intros Hle Hlt.
  pose proof (Qfloor_le x) as Hf. pose proof (Qlt_floor x) as Hc.
  assert (H1 : (inject_Z z < inject_Z (Qfloor x + 1))%Q)
    by (eapply Qle_lt_trans; eassumption).
  assert (H2 : (inject_Z (Qfloor x) < inject_Z (z + 1))%Q)
    by (eapply Qle_lt_trans; eassumption).
  rewrite <- Zlt_Qlt in H1, H2. lia.
Qed.

Lemma Qle_bool_false (x y : Q) : Qle_bool x y = false -> (y < x)%Q.
Proof.
  intros H. apply Qnot_le_lt. intros Hle.
  apply Qle_bool_iff in Hle. congruence.
Qed.

(** ** Rounding to binary64 *)

Section Binary64Facts.
Local Open Scope Q_scope.
Import Binary64.

(** *** Powers of two *)

Lemma pow2_pos (k : Z) : 0 < pow2 k.
Proof. apply Qpower_0_lt. reflexivity. Qed.

Lemma pow2_add (a b : Z) : pow2 (a + b) == pow2 a * pow2 b.
Proof. apply Qpower_plus. discriminate. Qed.

Lemma pow2_sub (a b : Z) : pow2 (a - b) == pow2 a / pow2 b.
Proof. apply Qpower_minus. discriminate. Qed.

Lemma pow2_le (a b : Z) : (a <= b)%Z -> pow2 a <= pow2 b.
Proof. intros H. apply Qpower_le_compat_l; [exact H | discriminate]. Qed.

Lemma pow2_lt (a b : Z) : (a < b)%Z -> pow2 a < pow2 b.
Proof. intros H. apply Qpower_lt_compat_l; [exact H | reflexivity]. Qed.

Lemma pow2_lt_inv (a b : Z) : pow2 a < pow2 b -> (a < b)%Z.
Proof. intros H. apply (Qpower_lt_compat_l_inv 2); [exact H | reflexivity]. Qed.

Lemma pow2_Z (k : Z) : (0 <= k)%Z -> pow2 k == inject_Z (2 ^ k).
Proof. intros H. unfold pow2. rewrite Zpower_Qpower by exact H. reflexivity. Qed.

Lemma pow2_succ (k : Z) : pow2 (k + 1) == 2 * pow2 k.
Proof. rewrite pow2_add. change (pow2 1) with 2. ring. Qed.

(** *** The exponent of a positive rational *)

Lemma Qdiv_bounds (N D PA PB : Q) :
  0 < PB -> PA <= N -> N < 2 * PA -> PB <= D -> D < 2 * PB ->
  PA / PB < 2 * (N / D) /\ N / D < 2 * (PA / PB).
Proof.
  intros HPB H1 H2 H3 H4.
  assert (HD : 0 < D) by lra.
  assert (HPA : 0 < PA) by lra.
  assert (Hx : D * / D == 1) by (apply Qmult_inv_r; lra).
  assert (Hy : PB * / PB == 1) by (apply Qmult_inv_r; lra).
  assert (Hxp : 0 < / D) by (apply Qinv_lt_0_compat; exact HD).
  assert (Hyp : 0 < / PB) by (apply Qinv_lt_0_compat; exact HPB).
  unfold Qdiv. set (x := / D) in *. set (y := / PB) in *.
  split.
  - assert (E : 2 * (N * x) - PA * y == (2 * N * PB - PA * D) * (x * y)).
    { transitivity (2 * N * x * (PB * y) - PA * y * (D * x)); [rewrite Hx, Hy; ring | ring]. }
    assert (0 < (2 * N * PB - PA * D) * (x * y)); [| lra].
    apply Qmult_lt_0_compat; [nra | apply Qmult_lt_0_compat; assumption].
  - assert (E : 2 * (PA * y) - N * x == (2 * PA * D - N * PB) * (x * y)).
    { transitivity (2 * PA * y * (D * x) - N * x * (PB * y)); [rewrite Hx, Hy; ring | ring]. }
    assert (0 < (2 * PA * D - N * PB) * (x * y)); [| lra].
    apply Qmult_lt_0_compat; [nra | apply Qmult_lt_0_compat; assumption].
Qed.

Lemma floor_log2_spec (a : Q) :
  0 < a -> pow2 (floor_log2 a) <= a /\ a < pow2 (floor_log2 a + 1).
Proof.
  intros Ha. destruct a as [n d].
  assert (Hn : (0 < n)%Z) by (unfold Qlt in Ha; simpl in Ha; lia).
  unfold floor_log2. cbn [Qnum Qden].
  set (ln := Z.log2 n). set (ld := Z.log2 (Z.pos d)).
  destruct (Z.log2_spec n Hn) as [Hn1 Hn2]. fold ln in Hn1, Hn2.
  destruct (Z.log2_spec (Z.pos d) eq_refl) as [Hd1 Hd2]. fold ld in Hd1, Hd2.
  assert (Hln : (0 <= ln)%Z) by apply Z.log2_nonneg.
  assert (Hld : (0 <= ld)%Z) by apply Z.log2_nonneg.
  assert (Ea : n # d == inject_Z n / inject_Z (Z.pos d)) by apply Qmake_Qdiv.
  assert (Ep : pow2 (ln - ld) == pow2 ln / pow2 ld) by apply pow2_sub.
  assert (B : pow2 ln / pow2 ld < 2 * (inject_Z n / inject_Z (Z.pos d))
              /\ inject_Z n / inject_Z (Z.pos d) < 2 * (pow2 ln / pow2 ld)).
  { apply Qdiv_bounds.
    - apply pow2_pos.
    - rewrite pow2_Z by exact Hln. rewrite <- Zle_Qle. exact Hn1.
    - rewrite <- (pow2_succ ln), pow2_Z by lia. rewrite <- Zlt_Qlt. exact Hn2.
    - rewrite pow2_Z by exact Hld. rewrite <- Zle_Qle. exact Hd1.
    - rewrite <- (pow2_succ ld), pow2_Z by lia. rewrite <- Zlt_Qlt. exact Hd2. }
  rewrite <- Ea, <- Ep in B. destruct B as [B1 B2].
  destruct (Qle_bool (pow2 (ln - ld)) (n # d)) eqn:Hc.
  - apply Qle_bool_iff in Hc. split; [exact Hc |].
    rewrite pow2_succ. exact B2.
  - assert (Hlt : n # d < pow2 (ln - ld)).
    { apply Qnot_le_lt. intros H. apply Qle_bool_iff in H. congruence. }
    replace (ln - ld - 1 + 1)%Z with (ln - ld)%Z by lia.
    split; [| exact Hlt].
    assert (E : pow2 (ln - ld) == 2 * pow2 (ln - ld - 1)).
    { rewrite <- pow2_succ. replace (ln - ld - 1 + 1)%Z with (ln - ld)%Z by lia. reflexivity. }
    lra.
Qed.

Lemma floor_log2_ge (a : Q) (k : Z) : 0 < a -> pow2 k <= a -> (k <= floor_log2 a)%Z.
Proof.
  intros Ha H. destruct (floor_log2_spec a Ha) as [_ H2].
  assert (pow2 k < pow2 (floor_log2 a + 1)) by lra.
  apply pow2_lt_inv in H0. lia.
Qed.

Lemma floor_log2_lt (a : Q) (k : Z) : 0 < a -> a < pow2 k -> (floor_log2 a < k)%Z.
Proof.
  intros Ha H. destruct (floor_log2_spec a Ha) as [H1 _].
  assert (pow2 (floor_log2 a) < pow2 k) by lra.
  apply pow2_lt_inv in H0. exact H0.
Qed.

Lemma floor_log2_mono (a b : Q) : 0 < a -> a <= b -> (floor_log2 a <= floor_log2 b)%Z.
Proof.
  intros Ha H. apply floor_log2_ge; [lra |].
  destruct (floor_log2_spec a Ha) as [H1 _]. lra.
Qed.

(** *** The nearest integer *)

Lemma Qfloor_bounds (m : Q) : inject_Z (Qfloor m) <= m /\ m < inject_Z (Qfloor m) + 1.
Proof.
  split; [apply Qfloor_le |].
  pose proof (Qlt_floor m) as H. rewrite inject_Z_plus in H. exact H.
Qed.

Lemma nearest_even_cases (m : Q) :
  let r := m - inject_Z (Qfloor m) in
  (nearest_even m = Qfloor m /\ r <= 1 # 2)
  \/ (nearest_even m = (Qfloor m + 1)%Z /\ 1 # 2 <= r).
Proof.
  intros r. unfold nearest_even. fold r.
  destruct (Qcompare_spec r (1 # 2)) as [Hc | Hc | Hc].
  - destruct (Z.even (Qfloor m)); [left | right]; split; try reflexivity; lra.
  - left. split; [reflexivity | lra].
  - right. split; [reflexivity | lra].
Qed.

Lemma nearest_even_error (m : Q) : Qabs (inject_Z (nearest_even m) - m) <= 1 # 2.
Proof.
  destruct (Qfloor_bounds m) as [H1 H2].
  apply Qabs_Qle_condition.
  destruct (nearest_even_cases m) as [[-> H] | [-> H]]; cbv zeta in H;
    rewrite ?inject_Z_plus; change (inject_Z 1) with 1; split; lra.
Qed.

Lemma nearest_even_le (m : Q) (N : Z) : m <= inject_Z N -> (nearest_even m <= N)%Z.
Proof.
  intros H. destruct (Qfloor_bounds m) as [H1 H2].
  assert (HfN : (Qfloor m <= N)%Z) by (rewrite Zle_Qle; lra).
  destruct (nearest_even_cases m) as [[-> Hr] | [-> Hr]]; cbv zeta in Hr; [exact HfN |].
  destruct (Z.eq_dec (Qfloor m) N) as [E | E]; [| lia].
  rewrite E in Hr. lra.
Qed.

Lemma nearest_even_ge (m : Q) (N : Z) : inject_Z N <= m -> (N <= nearest_even m)%Z.
Proof.
  intros H.
  assert (HfN : (N <= Qfloor m)%Z).
  { rewrite <- (Qfloor_Z N). apply Qfloor_resp_le. exact H. }
  destruct (nearest_even_cases m) as [[-> _] | [-> _]]; lia.
Qed.

Lemma nearest_even_mono (m m' : Q) : m <= m' -> (nearest_even m <= nearest_even m')%Z.
Proof.
  intros H.
  pose proof (Qfloor_resp_le _ _ H) as Hf.
  destruct (Z.eq_dec (Qfloor m) (Qfloor m')) as [E | E].
  - unfold nearest_even. rewrite <- E.
    destruct (Qcompare_spec (m - inject_Z (Qfloor m)) (1 # 2)) as [Hc | Hc | Hc];
      destruct (Qcompare_spec (m' - inject_Z (Qfloor m)) (1 # 2)) as [Hc' | Hc' | Hc'];
      destruct (Z.even (Qfloor m)); try lia; exfalso; lra.
  - destruct (nearest_even_cases m) as [[-> _] | [-> _]];
      destruct (nearest_even_cases m') as [[-> _] | [-> _]]; lia.
Qed.

Lemma nearest_even_nonneg (m : Q) : 0 <= m -> (0 <= nearest_even m)%Z.
Proof. intros H. apply nearest_even_ge. exact H. Qed.

(** *** Rounding a positive value *)

Lemma Qdiv_mult_pow2 (a : Q) (q : Z) : a / pow2 q * pow2 q == a.
Proof. unfold Qdiv. rewrite <- Qmult_assoc, (Qmult_comm (/ _)), Qmult_inv_r; [ring |].
  pose proof (pow2_pos q). lra. Qed.

Lemma Qmult_div_pow2 (a : Q) (q : Z) : a * pow2 q / pow2 q == a.
Proof. apply Qdiv_mult_l.  pose proof (pow2_pos q). lra. Qed.

Lemma Qle_div_pow2 (a b : Q) (q : Z) : a <= b -> a / pow2 q <= b / pow2 q.
Proof.
  intros H. unfold Qdiv. apply Qmult_le_compat_r; [exact H |].
  apply Qlt_le_weak, Qinv_lt_0_compat, pow2_pos.
Qed.

(** On its own grid: an integer multiple of the last place above (below)
    the value is above (below) the rounded value. *)
Lemma round_pos_le_grid (a : Q) (N : Z) :
  a <= inject_Z N * pow2 (ulp_exponent a) ->
  round_pos a <= inject_Z N * pow2 (ulp_exponent a).
Proof.
  intros H. unfold round_pos.
  apply Qmult_le_compat_r; [| apply Qlt_le_weak, pow2_pos].
  rewrite <- Zle_Qle. apply nearest_even_le.
  rewrite <- (Qmult_div_pow2 (inject_Z N) (ulp_exponent a)).
  apply Qle_div_pow2. exact H.
Qed.

Lemma round_pos_ge_grid (a : Q) (N : Z) :
  inject_Z N * pow2 (ulp_exponent a) <= a ->
  inject_Z N * pow2 (ulp_exponent a) <= round_pos a.
Proof.
  intros H. unfold round_pos.
  apply Qmult_le_compat_r; [| apply Qlt_le_weak, pow2_pos].
  rewrite <- Zle_Qle. apply nearest_even_ge.
  rewrite <- (Qmult_div_pow2 (inject_Z N) (ulp_exponent a)).
  apply Qle_div_pow2. exact H.
Qed.

Lemma round_pos_nonneg (a : Q) : 0 <= a -> 0 <= round_pos a.
Proof.
  intros H. pose proof (round_pos_ge_grid a 0) as G.
  assert (E : inject_Z 0 * pow2 (ulp_exponent a) == 0) by ring.
  rewrite E in G. apply G. exact H.
Qed.

(** A multiple of a coarser power of two lies on the grid. *)
Lemma pow2_multiple (N k q : Z) :
  (q <= k)%Z -> inject_Z N * pow2 k == inject_Z (N * 2 ^ (k - q)) * pow2 q.
Proof.
  intros H. rewrite inject_Z_mult, <- pow2_Z by lia.
  rewrite <- Qmult_assoc, <- pow2_add. replace (k - q + q)%Z with k by lia. reflexivity.
Qed.

Lemma round_pos_le_multiple (a : Q) (N k : Z) :
  (ulp_exponent a <= k)%Z -> a <= inject_Z N * pow2 k -> round_pos a <= inject_Z N * pow2 k.
Proof.
  intros Hk H. rewrite (pow2_multiple N k _ Hk) in *. apply round_pos_le_grid. exact H.
Qed.

Lemma round_pos_ge_multiple (a : Q) (N k : Z) :
  (ulp_exponent a <= k)%Z -> inject_Z N * pow2 k <= a -> inject_Z N * pow2 k <= round_pos a.
Proof.
  intros Hk H. rewrite (pow2_multiple N k _ Hk) in *. apply round_pos_ge_grid. exact H.
Qed.

Lemma ulp_exponent_mono (a b : Q) : 0 < a -> a <= b -> (ulp_exponent a <= ulp_exponent b)%Z.
Proof.
  intros Ha H. unfold ulp_exponent. pose proof (floor_log2_mono a b Ha H). lia.
Qed.

Lemma round_pos_mono (a b : Q) : 0 < a -> a <= b -> round_pos a <= round_pos b.
Proof.
  intros Ha H.
  pose proof (ulp_exponent_mono a b Ha H) as Hq.
  destruct (Z.eq_dec (ulp_exponent a) (ulp_exponent b)) as [E | E].
  - unfold round_pos. rewrite E.
    apply Qmult_le_compat_r; [| apply Qlt_le_weak, pow2_pos].
    rewrite <- Zle_Qle. apply nearest_even_mono, Qle_div_pow2, H.
  - assert (Hb : 0 < b) by lra.
    destruct (floor_log2_spec a Ha) as [_ Ha2].
    destruct (floor_log2_spec b Hb) as [Hb1 _].
    set (E1 := (ulp_exponent a + 53)%Z).
    assert (HE : (floor_log2 a + 1 <= E1 /\ E1 <= floor_log2 b)%Z
                 /\ ulp_exponent b = (floor_log2 b - 52)%Z).
    { unfold E1, ulp_exponent in *. lia. }
    destruct HE as [[HE1 HE2] HE3].
    apply Qle_trans with (inject_Z 1 * pow2 E1).
    + apply round_pos_le_multiple; [unfold E1; lia |].
      assert (pow2 (floor_log2 a + 1) <= pow2 E1) by (apply pow2_le; lia).
      change (inject_Z 1) with 1. lra.
    + apply Qle_trans with (inject_Z 1 * pow2 (floor_log2 b)).
      * change (inject_Z 1) with 1.
        assert (pow2 E1 <= pow2 (floor_log2 b)) by (apply pow2_le; lia). lra.
      * apply round_pos_ge_multiple; [lia |]. change (inject_Z 1) with 1. lra.
Qed.

Lemma round_pos_error (a : Q) :
  Qabs (round_pos a - a) <= pow2 (ulp_exponent a - 1).
Proof.
  unfold round_pos. set (q := ulp_exponent a).
  pose proof (nearest_even_error (a / pow2 q)) as H.
  pose proof (pow2_pos q) as Hp.
  pose proof (Qdiv_mult_pow2 a q) as Ea.
  set (t := a / pow2 q) in *. set (n := inject_Z (nearest_even t)) in *.
  assert (E : n * pow2 q - a == (n - t) * pow2 q) by (rewrite <- Ea; ring).
  rewrite E, Qabs_Qmult, (Qabs_pos (pow2 q)) by lra.
  assert (E2 : pow2 (q - 1) == (1 # 2) * pow2 q).
  { rewrite pow2_sub. change (pow2 1) with 2. field. }
  rewrite E2. apply Qmult_le_compat_r; [exact H | lra].
Qed.

(** *** Rounding any value *)

Lemma round_pos_eq (x : Q) : 0 < x -> round x = round_pos x.
Proof.
  intros H. unfold round. destruct (Qcompare_spec x 0) as [E | E | E]; [lra | lra | reflexivity].
Qed.

Lemma round_neg_eq (x : Q) : x < 0 -> round x = - round_pos (- x).
Proof.
  intros H. unfold round. destruct (Qcompare_spec x 0) as [E | E | E]; [lra | reflexivity | lra].
Qed.

Lemma round_zero_eq (x : Q) : x == 0 -> round x = 0.
Proof.
  intros H. unfold round. destruct (Qcompare_spec x 0) as [E | E | E]; [reflexivity | lra | lra].
Qed.

Lemma round_nonneg (x : Q) : 0 <= x -> 0 <= round x.
Proof.
  intros H. destruct (Qlt_le_dec 0 x) as [Hp | Hz].
  - rewrite round_pos_eq by exact Hp. apply round_pos_nonneg. exact H.
  - rewrite round_zero_eq by lra. lra.
Qed.

Lemma round_nonpos (x : Q) : x <= 0 -> round x <= 0.
Proof.
  intros H. destruct (Qlt_le_dec x 0) as [Hn | Hz].
  - rewrite round_neg_eq by exact Hn.
    assert (0 <= round_pos (- x)) by (apply round_pos_nonneg; lra). lra.
  - rewrite round_zero_eq by lra. lra.
Qed.

Lemma round_mono (x y : Q) : x <= y -> round x <= round y.
Proof.
  intros H. destruct (Qlt_le_dec 0 x) as [Hx | Hx].
  - rewrite !round_pos_eq by lra. apply round_pos_mono; assumption.
  - destruct (Qlt_le_dec y 0) as [Hy | Hy].
    + rewrite !round_neg_eq by lra.
      assert (round_pos (- y) <= round_pos (- x)) by (apply round_pos_mono; lra). lra.
    + pose proof (round_nonpos x Hx). pose proof (round_nonneg y Hy). lra.
Qed.

(** Below [2^E] the last place is at most [2^(E - 53)]. *)
Lemma ulp_exponent_below (a : Q) (E : Z) :
  0 < a -> a < pow2 E -> (ulp_exponent a <= Z.max (E - 53) (-1074))%Z.
Proof.
  intros Ha H. pose proof (floor_log2_lt a E Ha H). unfold ulp_exponent. lia.
Qed.

Lemma round_le_multiple (x : Q) (N k E : Z) :
  0 <= x -> x < pow2 E -> (E - 53 <= k)%Z -> (-1074 <= k)%Z ->
  x <= inject_Z N * pow2 k -> round x <= inject_Z N * pow2 k.
Proof.
  intros H0 HE Hk1 Hk2 H. destruct (Qlt_le_dec 0 x) as [Hx | Hx].
  - rewrite round_pos_eq by exact Hx. apply round_pos_le_multiple; [| exact H].
    pose proof (ulp_exponent_below x E Hx HE). lia.
  - rewrite round_zero_eq by lra. lra.
Qed.

Lemma round_error (x : Q) (E : Z) :
  Qabs x < pow2 E -> (-1021 <= E)%Z -> Qabs (round x - x) <= pow2 (E - 54).
Proof.
  intros H HE.
  assert (Hpos : forall a, 0 < a -> a < pow2 E -> Qabs (round_pos a - a) <= pow2 (E - 54)).
  { intros a Ha Hlt. eapply Qle_trans; [apply round_pos_error |].
    apply pow2_le. pose proof (ulp_exponent_below a E Ha Hlt). lia. }
  destruct (Qlt_le_dec 0 x) as [Hx | Hx].
  - rewrite round_pos_eq by exact Hx. apply Hpos; [exact Hx |].
    rewrite Qabs_pos in H by lra. exact H.
  - destruct (Qlt_le_dec x 0) as [Hn | Hz].
    + rewrite round_neg_eq by exact Hn.
      rewrite Qabs_neg in H by lra.
      specialize (Hpos (- x) ltac:(lra) H).
      assert (E1 : - round_pos (- x) - x == - (round_pos (- x) - - x)) by ring.
      rewrite E1, Qabs_opp. exact Hpos.
    + rewrite round_zero_eq by lra.
      assert (E1 : 0 - x == 0) by lra. rewrite E1. simpl.
      apply Qlt_le_weak, pow2_pos.
Qed.

(** A value on the grid of its own binade is not moved. *)
Lemma round_pos_on_grid (a : Q) (N k : Z) :
  (ulp_exponent a <= k)%Z -> a == inject_Z N * pow2 k -> round_pos a == a.
Proof.
  intros Hk E. apply Qle_antisym.
  - rewrite E at 2. apply round_pos_le_multiple; [exact Hk | rewrite E; apply Qle_refl].
  - rewrite E at 1. apply round_pos_ge_multiple; [exact Hk | rewrite E; apply Qle_refl].
Qed.

Lemma nearest_even_comp (m m' : Q) : m == m' -> nearest_even m = nearest_even m'.
Proof.
  intros E. unfold nearest_even.
  rewrite (Qfloor_comp _ _ E).
  assert (E2 : m - inject_Z (Qfloor m') == m' - inject_Z (Qfloor m')) by (rewrite E; reflexivity).
  rewrite (Qcompare_comp _ _ E2 (1 # 2) (1 # 2) (Qeq_refl _)). reflexivity.
Qed.

Lemma floor_log2_comp (a b : Q) : 0 < a -> a == b -> floor_log2 a = floor_log2 b.
Proof.
  intros Ha E. assert (Hb : 0 < b) by lra.
  destruct (floor_log2_spec a Ha) as [A1 A2]. destruct (floor_log2_spec b Hb) as [B1 B2].
  assert (H1 : (floor_log2 a <= floor_log2 b)%Z) by (apply floor_log2_ge; lra).
  assert (H2 : (floor_log2 b <= floor_log2 a)%Z) by (apply floor_log2_ge; lra).
  lia.
Qed.

Lemma round_pos_comp (a b : Q) : 0 < a -> a == b -> round_pos a == round_pos b.
Proof.
  intros Ha E. unfold round_pos, ulp_exponent.
  rewrite (floor_log2_comp a b Ha E).
  set (q := (Z.max (floor_log2 b) (-1022) - 52)%Z).
  assert (E2 : a / pow2 q == b / pow2 q) by (rewrite E; reflexivity).
  rewrite (nearest_even_comp _ _ E2). reflexivity.
Qed.

Lemma round_comp (x y : Q) : x == y -> round x == round y.
Proof.
  intros E. destruct (Qlt_le_dec 0 x) as [Hx | Hx].
  - rewrite !round_pos_eq by lra. apply round_pos_comp; assumption.
  - destruct (Qlt_le_dec x 0) as [Hn | Hz].
    + rewrite !round_neg_eq by lra.
      assert (round_pos (- x) == round_pos (- y)); [| lra].
      apply round_pos_comp; [lra | rewrite E; reflexivity].
    + rewrite !round_zero_eq by lra. reflexivity.
Qed.

(** The rounded value is on the grid of its own binade, so rounding it
    again does not move it. *)
Lemma round_pos_idempotent (a : Q) : 0 < a -> round (round_pos a) == round_pos a.
Proof.
  intros Ha.
  destruct (floor_log2_spec a Ha) as [_ Hup].
  set (q := ulp_exponent a).
  assert (Hq : (floor_log2 a + 1 <= q + 53)%Z /\ (-1074 <= q)%Z) by (unfold q, ulp_exponent; lia).
  set (n := nearest_even (a / pow2 q)).
  assert (Hr : round_pos a = inject_Z n * pow2 q) by reflexivity.
  pose proof (pow2_pos q) as Hp.
  assert (Hn0 : (0 <= n)%Z).
  { apply nearest_even_nonneg. apply Qle_shift_div_l; [exact Hp | lra]. }
  assert (Hn1 : (n <= 2 ^ 53)%Z).
  { apply nearest_even_le. apply Qle_shift_div_r; [exact Hp |].
    rewrite <- pow2_Z, <- pow2_add by lia.
    assert (pow2 (floor_log2 a + 1) <= pow2 (53 + q)) by (apply pow2_le; lia). lra. }
  destruct (Z.eq_dec n 0%Z) as [E0 | E0].
  { rewrite Hr, E0. rewrite round_zero_eq; ring. }
  assert (Hrp : 0 < round_pos a).
  { rewrite Hr. apply Qmult_lt_0_compat; [| exact Hp].
    change 0 with (inject_Z 0). rewrite <- Zlt_Qlt. lia. }
  rewrite round_pos_eq by exact Hrp.
  destruct (Z.eq_dec n (2 ^ 53)%Z) as [E1 | E1].
  - apply (round_pos_on_grid _ (2 ^ 52)%Z (q + 1)%Z).
    + assert (Hlt : round_pos a < pow2 (q + 54)).
      { rewrite Hr, E1, <- pow2_Z, <- pow2_add by lia. apply pow2_lt. lia. }
      pose proof (floor_log2_lt _ _ Hrp Hlt). unfold ulp_exponent. lia.
    + rewrite Hr, E1, <- !pow2_Z, <- !pow2_add by lia.
      replace (52 + (q + 1))%Z with (53 + q)%Z by lia. reflexivity.
  - apply (round_pos_on_grid _ n q); [| rewrite Hr; reflexivity].
    assert (Hlt : round_pos a < pow2 (q + 53)).
    { assert (E : pow2 (q + 53) == inject_Z (2 ^ 53) * pow2 q).
      { rewrite (Z.add_comm q 53), pow2_add. rewrite (pow2_Z 53) by lia. reflexivity. }
      rewrite Hr, E.
      apply Qmult_lt_compat_r; [exact Hp |]. rewrite <- Zlt_Qlt. lia. }
    pose proof (floor_log2_lt _ _ Hrp Hlt) as Hfl.
    unfold ulp_exponent at 1. lia.
Qed.

Lemma round_idempotent (x : Q) : round (round x) == round x.
Proof.
  destruct (Qlt_le_dec 0 x) as [Hx | Hx].
  - rewrite (round_pos_eq x Hx). apply round_pos_idempotent. exact Hx.
  - destruct (Qlt_le_dec x 0) as [Hn | Hz].
    + rewrite (round_neg_eq x Hn).
      assert (Hpos : 0 < - x) by lra.
      pose proof (round_pos_nonneg (- x) (Qlt_le_weak _ _ Hpos)) as Hr.
      pose proof (round_pos_idempotent (- x) Hpos) as Hi.
      destruct (Qlt_le_dec 0 (round_pos (- x))) as [Hrp | Hrz].
      * rewrite round_neg_eq by lra.
        rewrite round_pos_eq in Hi by exact Hrp.
        assert (round_pos (- - round_pos (- x)) == round_pos (round_pos (- x))); [| lra].
        apply round_pos_comp; [lra | ring].
      * rewrite round_zero_eq by lra. lra.
    + rewrite (round_zero_eq x) by lra. rewrite round_zero_eq; reflexivity.
Qed.

(** *** Numbers *)

Lemma Qlt_Qle_bool_false (a b : Q) : b < a -> Qle_bool a b = false.
Proof.
  intros H. destruct (Qle_bool a b) eqn:E; [| reflexivity].
  apply Qle_bool_iff in E. lra.
Qed.

Lemma negative_nonneg (x : Q) : 0 <= x -> negative x = false.
Proof. intros H. unfold negative. apply Qle_bool_iff in H. rewrite H. reflexivity. Qed.

Lemma negative_neg (x : Q) : x < 0 -> negative x = true.
Proof. intros H. unfold negative. rewrite Qlt_Qle_bool_false by exact H. reflexivity. Qed.

Lemma of_Q_cases (x : Q) :
  (exists r, of_Q x = Fin r /\ r == round x /\ Qabs (round x) < pow2 1024)
  \/ (of_Q x = Inf (negative (round x)) /\ pow2 1024 <= Qabs (round x)).
Proof.
  unfold of_Q. cbv zeta. destruct (Qle_bool (pow2 1024) (Qabs (round x))) eqn:E.
  - right. split; [reflexivity |]. apply Qle_bool_iff. exact E.
  - left. exists (Qred (round x)). split; [reflexivity |]. split; [apply Qred_correct |].
    apply Qle_bool_false. exact E.
Qed.

Lemma of_Q_Fin (x r : Q) :
  of_Q x = Fin r -> r == round x /\ Qabs r < pow2 1024.
Proof.
  intros H. destruct (of_Q_cases x) as [(r' & E & Hr & Hb) | [E _]]; rewrite E in H; [| discriminate].
  injection H as <-. split; [exact Hr |]. rewrite Hr. exact Hb.
Qed.

Lemma of_Q_not_NaN (x : Q) : of_Q x <> NaN.
Proof. destruct (of_Q_cases x) as [(r & E & _) | [E _]]; rewrite E; discriminate. Qed.

Lemma of_Q_le (x y : Q) : x <= y -> le (of_Q x) (of_Q y) = true.
Proof.
  intros H. pose proof (round_mono x y H) as Hm.
  pose proof (pow2_pos 1024) as Hp.
  destruct (of_Q_cases x) as [(r & -> & Hr & Hb) | [-> Hb]];
    destruct (of_Q_cases y) as [(r' & -> & Hr' & Hb') | [-> Hb']]; simpl.
  - apply Qle_bool_iff. rewrite Hr, Hr'. exact Hm.
  - destruct (Qlt_le_dec (round y) 0) as [Hn | Hn].
    + exfalso. rewrite Qabs_neg in Hb' by lra.
      apply Qabs_Qlt_condition in Hb. lra.
    + rewrite negative_nonneg by exact Hn. reflexivity.
  - destruct (Qlt_le_dec (round x) 0) as [Hn | Hn].
    + rewrite negative_neg by exact Hn. reflexivity.
    + exfalso. rewrite Qabs_pos in Hb by exact Hn.
      apply Qabs_Qlt_condition in Hb'. lra.
  - destruct (Qlt_le_dec (round x) 0) as [Hn | Hn].
    + rewrite (negative_neg _ Hn). reflexivity.
    + rewrite (negative_nonneg _ Hn). rewrite Qabs_pos in Hb by exact Hn.
      rewrite negative_nonneg by lra. reflexivity.
Qed.

Lemma of_Q_nonneg (x : Q) : 0 <= x -> le (Fin 0) (of_Q x) = true.
Proof.
  intros H. pose proof (round_nonneg x H) as Hr.
  destruct (of_Q_cases x) as [(r & -> & Er & _) | [-> _]]; simpl.
  - apply Qle_bool_iff. rewrite Er. exact Hr.
  - rewrite negative_nonneg by exact Hr. reflexivity.
Qed.

Lemma of_Q_finite (x : Q) :
  Qabs (round x) < pow2 1024 -> of_Q x = Fin (Qred (round x)).
Proof.
  intros H. unfold of_Q. cbv zeta. rewrite Qlt_Qle_bool_false by exact H. reflexivity.
Qed.

Lemma of_Q_comp (x y : Q) : x == y -> of_Q x = of_Q y.
Proof.
  intros E. pose proof (round_comp x y E) as Er.
  unfold of_Q. cbv zeta.
  assert (Eb : Qle_bool (pow2 1024) (Qabs (round x)) = Qle_bool (pow2 1024) (Qabs (round y))).
  { destruct (Qle_bool (pow2 1024) (Qabs (round y))) eqn:Hy.
    - apply Qle_bool_iff. apply Qle_bool_iff in Hy. rewrite Er. exact Hy.
    - apply Qlt_Qle_bool_false. apply Qle_bool_false in Hy. rewrite Er. exact Hy. }
  assert (En : negative (round x) = negative (round y)).
  { unfold negative. f_equal.
    destruct (Qle_bool 0 (round y)) eqn:Hy.
    - apply Qle_bool_iff. apply Qle_bool_iff in Hy. rewrite Er. exact Hy.
    - apply Qlt_Qle_bool_false. apply Qle_bool_false in Hy. rewrite Er. exact Hy. }
  rewrite Eb, En, (Qred_complete _ _ Er). reflexivity.
Qed.

(** Rounding a Number again gives the same Number. *)
Lemma of_Q_idempotent (x r : Q) : of_Q x = Fin r -> of_Q r = Fin r.
Proof.
  intros H. unfold of_Q in H. cbv zeta in H.
  destruct (Qle_bool (pow2 1024) (Qabs (round x))) eqn:Hb; [discriminate |].
  injection H as <-.
  assert (E : round (Qred (round x)) == round x).
  { rewrite (round_comp _ _ (Qred_correct (round x))). apply round_idempotent. }
  apply Qle_bool_false in Hb.
  rewrite of_Q_finite by (rewrite E; exact Hb).
  rewrite (Qred_complete _ _ E). reflexivity.
Qed.

Lemma num_mul_result (x y : num) :
  mul x y = NaN \/ (exists s, mul x y = Inf s) \/ (exists t, mul x y = of_Q t).
Proof.
  destruct x as [| s | a], y as [| t | b]; simpl; eauto;
    match goal with |- context [Qeq_bool ?b 0] => destruct (Qeq_bool b 0) end; eauto.
Qed.

(** [x * 1.0] is [x] for a Number that a multiplication returned. *)
Lemma num_mul_one (x y : num) : mul (mul x y) (literal 1.0) = mul x y.
Proof.
  assert (E1 : literal 1.0 = Fin 1) by (vm_compute; reflexivity). rewrite E1.
  destruct (num_mul_result x y) as [-> | [[s ->] | [t ->]]]; [reflexivity | |].
  - simpl. destruct s; reflexivity.
  - destruct (of_Q_cases t) as [(r & E & Hr & Hb) | [E Hb]]; rewrite E.
    + simpl. rewrite (of_Q_comp (r * 1) r) by ring.
      apply (of_Q_idempotent t). exact E.
    + simpl. destruct (negative (round t)); reflexivity.
Qed.

Lemma num_le_lt_false (x y : num) : le x y = true -> lt y x = false.
Proof.
  destruct x as [| s | a], y as [| t | b]; simpl; try discriminate; try reflexivity.
  - destruct s, t; simpl; congruence.
  - destruct s; simpl; congruence.
  - destruct t; simpl; congruence.
  - intros ->. reflexivity.
Qed.

Lemma num_lt_irrefl (x : num) : lt x x = false.
Proof.
  destruct x as [| s | a]; simpl; [reflexivity | destruct s; reflexivity |].
  assert (Qle_bool a a = true) by (apply Qle_bool_iff, Qle_refl). rewrite H. reflexivity.
Qed.

Lemma num_le_trans (x y z : num) : le x y = true -> le y z = true -> le x z = true.
Proof.
  destruct x as [| s | a], y as [| t | b], z as [| u | c]; simpl; try discriminate; try tauto;
    try (destruct s, t, u; simpl; congruence);
    try (destruct t; simpl; congruence);
    try (destruct s, t; simpl; congruence).
  - destruct s; simpl; congruence.
  - intros H1 H2. apply Qle_bool_iff in H1, H2. apply Qle_bool_iff. lra.
Qed.

Lemma num_not_lt_le (x y : num) : x <> NaN -> y <> NaN -> lt x y = false -> le y x = true.
Proof.
  destruct x as [| s | a], y as [| t | b]; simpl; try congruence.
  - intros _ _. destruct s, t; simpl; congruence.
  - intros _ _. destruct s; simpl; congruence.
  - intros _ _. destruct t; simpl; congruence.
  - intros _ _ H. destruct (Qle_bool b a); [reflexivity | discriminate].
Qed.

(** Multiplication by a positive finite Number is non-decreasing. *)
Lemma num_mul_le_compat_r (x y : num) (c : Q) :
  0 < c -> le x y = true -> le (mul x (Fin c)) (mul y (Fin c)) = true.
Proof.
  intros Hc.
  assert (Ec : Qeq_bool c 0 = false).
  { destruct (Qeq_bool c 0) eqn:E; [| reflexivity]. apply Qeq_bool_iff in E. lra. }
  assert (En : negative c = false) by (apply negative_nonneg; lra).
  destruct x as [| s | a], y as [| t | b]; simpl; try discriminate; rewrite ?Ec, ?En.
  - destruct s, t; simpl; congruence.
  - intros ->. simpl. destruct (of_Q_cases (b * c)) as [(r & -> & _) | [-> _]]; reflexivity.
  - intros Ht. destruct t; [discriminate |]. simpl.
    destruct (of_Q_cases (a * c)) as [(r & -> & _) | [-> _]]; simpl; [reflexivity |].
    apply orb_true_r.
  - intros H. apply Qle_bool_iff in H. apply of_Q_le.
    apply Qmult_le_compat_r; lra.
Qed.

(** Subtraction of a finite Number is non-decreasing. *)
Lemma num_sub_le_compat_r (x y : num) (c : Q) :
  le x y = true -> le (sub x (Fin c)) (sub y (Fin c)) = true.
Proof.
  destruct x as [| s | a], y as [| t | b]; simpl; try discriminate; try tauto.
  - intros ->. destruct (of_Q_cases (b - c)) as [(r & -> & _) | [-> _]]; reflexivity.
  - intros Ht. destruct t; [discriminate |].
    destruct (of_Q_cases (a - c)) as [(r & -> & _) | [-> _]]; simpl; [reflexivity |].
    apply orb_true_r.
  - intros H. apply Qle_bool_iff in H. apply of_Q_le. lra.
Qed.

Lemma round_relative_error (a : Q) :
  pow2 (-1022) <= a -> Qabs (round a - a) <= a * pow2 (-53).
Proof.
  intros H. pose proof (pow2_pos (-1022)) as Hp.
  assert (Ha : 0 < a) by lra.
  rewrite round_pos_eq by exact Ha.
  eapply Qle_trans; [apply round_pos_error |].
  pose proof (floor_log2_ge a (-1022) Ha H) as He.
  destruct (floor_log2_spec a Ha) as [Hlow _].
  assert (E : (ulp_exponent a - 1 = floor_log2 a + -53)%Z) by (unfold ulp_exponent; lia).
  rewrite E, pow2_add.
  apply Qmult_le_compat_r; [exact Hlow | apply Qlt_le_weak, pow2_pos].
Qed.

Lemma num_mul_Fin_bound (x : num) (c b : Q) : mul x (Fin c) = Fin b -> Qabs b < pow2 1024.
Proof.
  destruct x as [| s | a]; simpl; [discriminate | destruct (Qeq_bool c 0); discriminate |].
  intros H. apply of_Q_Fin in H. apply H.
Qed.

(** *** Known values *)

(** The Numbers written [0.1] and [0.15]; a tie goes to the even
    significand ([2^53 + 1] down, [2^53 + 3] up); half of the smallest
    subnormal number goes to 0 and three halves of it to twice it; the
    largest finite Number is [2^1024 - 2^971], and the middle between it
    and [2^1024] is the first value that overflows. *)
Example binary64_known_values :
  round 0.1 == 3602879701896397 # 36028797018963968
  /\ round 0.15 == 5404319552844595 # 36028797018963968
  /\ round (inject_Z (2 ^ 53 + 1)) == inject_Z (2 ^ 53)
  /\ round (inject_Z (2 ^ 53 + 3)) == inject_Z (2 ^ 53 + 4)
  /\ round (pow2 (-1075)) == 0
  /\ round (3 * pow2 (-1075)) == pow2 (-1073)
  /\ of_Q (pow2 1024 - pow2 971) = Fin (Qred (pow2 1024 - pow2 971))
  /\ of_Q (pow2 1024 - pow2 970) = Inf false
  /\ of_Q (- (pow2 1024 - pow2 970)) = Inf true
  /\ mul (Fin (1 # 3)) (Fin 0) = Fin 0
  /\ div (Fin 1) (Fin 0) = Inf false
  /\ div (Fin 0) (Fin 0) = NaN.
Proof. repeat split; vm_compute; reflexivity. Qed.

End Binary64Facts.

(** ** Percentages *)

(** The Numbers written [0.0176], [0.0004], [0.0025] and [1]. *)
Example formatProbability_0176 :
  Formatters.formatProbability (Binary64.round 0.0176) = Some "1.8%".
Proof. vm_compute. reflexivity. Qed.

Example formatProbability_small :
  Formatters.formatProbability (Binary64.round 0.0004) = Some "0.0%".
Proof. vm_compute. reflexivity. Qed.

Example formatProbability_tie :
  Formatters.formatProbability (Binary64.round 0.0025) = Some "0.3%".
Proof. vm_compute. reflexivity. Qed.

Example formatProbability_one :
  Formatters.formatProbability 1 = Some "100.0%".
Proof. vm_compute. reflexivity. Qed.

Example toFixed_negative :
  Js.toFixed (- (1 # 100)) 1 = Some "-0.0".
Proof. vm_compute. reflexivity. Qed.

Lemma tenths_table :
  forallb Shapes.tenths_ok (map Z.of_nat (seq 0 1001)) = true.
Proof. vm_compute. reflexivity. Qed.

Lemma fixed_point_tenths (k : Z) :
  (0 <= k <= 1000)%Z ->
  Js.fixed_point (Z.to_N k) 1
  = Js.digits (Z.to_N (k / 10)) ++ "." ++ Js.digits (Z.to_N (k mod 10)).
Proof.
  intros Hk. apply String.eqb_eq.
  pose proof tenths_table as Ht. rewrite forallb_forall in Ht.
  apply (Ht k). rewrite <- (Z2Nat.id k) by lia.
  apply in_map, in_seq. lia.
Qed.

(** A value between 0 and 100 stays there when it is rounded to binary64,
    and moves by at most [2^(-47)]. *)
Lemma round_percent (y : Q) :
  (0 <= y)%Q -> (y <= 100)%Q ->
  (0 <= Binary64.round y)%Q
  /\ (Binary64.round y <= 100)%Q
  /\ (Qabs (Binary64.round y - y) <= 1 # 140737488355328)%Q.
Proof.
  intros H0 H1. split; [apply round_nonneg; exact H0 |].
  assert (E7 : (Binary64.pow2 7 == 128)%Q) by reflexivity.
  split.
  - assert (E : (100 == inject_Z 100 * Binary64.pow2 0)%Q) by reflexivity.
    rewrite E. apply (round_le_multiple y 100 0 7); try lia; try exact H0.
    + rewrite E7. lra.
    + rewrite <- E. exact H1.
  - assert (E : (1 # 140737488355328 == Binary64.pow2 (7 - 54))%Q) by reflexivity.
    rewrite E. apply round_error; [| lia].
    rewrite Qabs_pos, E7 by exact H0. lra.
Qed.

(** C5: for a probability [p] in [0,1], [formatProbability p] is the
    decimal rendering of [n / 10] followed by ['%'], where [n] is the
    integer closest (the larger one on a tie) to ten times [x], and [x]
    is the binary64 product of [p] and 100.  [x] is within [2^(-47)] of
    the exact [p * 100], so [n / 10] is the exact percentage rounded to
    one decimal place whenever [p * 1000] is not within [2^(-43)] of the
    middle of two integers. *)
Theorem formatProbability_rounded_product (p : Q) :
  (0 <= p)%Q -> (p <= 1)%Q ->
  let x := Binary64.round (p * 100) in
  let n := Qfloor (x * 10 + (1 # 2)) in
  Formatters.formatProbability p
  = Some (Js.digits (Z.to_N (n / 10)) ++ "." ++ Js.digits (Z.to_N (n mod 10)) ++ "%")
  /\ (inject_Z n - (1 # 2) <= x * 10)%Q
  /\ (x * 10 < inject_Z n + (1 # 2))%Q
  /\ (0 <= n <= 1000)%Z
  /\ (Qabs (x - p * 100) <= 1 # 140737488355328)%Q
  /\ (forall N : Z,
        (inject_Z N - (1 # 2) + (1 # 8796093022208) <= p * 100 * 10)%Q ->
        (p * 100 * 10 <= inject_Z N + (1 # 2) - (1 # 8796093022208))%Q ->
        n = N).
Proof.
  intros H0 H1 x n.
  destruct (round_percent (p * 100)) as (Hx0 & Hx1 & Herr); [lra | lra |].
  fold x in Hx0, Hx1, Herr.
  assert (Habs : (Qabs x == x)%Q) by (apply Qabs_pos; exact Hx0).
  assert (Hn : Qfloor (Qabs x * inject_Z (10 ^ Z.of_nat 1) + (1 # 2)) = n).
  { subst n. apply Qfloor_comp. rewrite Habs.
    change (inject_Z (10 ^ Z.of_nat 1)) with 10%Q. reflexivity. }
  assert (Hrange : (0 <= n <= 1000)%Z).
  { subst n. split.
    - change 0%Z with (Qfloor (1 # 2)). apply Qfloor_resp_le. lra.
    - change 1000%Z with (Qfloor (1000 + (1 # 2))). apply Qfloor_resp_le. lra. }
  split; [| split; [| split; [| split; [| split]]]].
  - unfold Formatters.formatProbability, Js.toFixed. fold x.
    destruct (Qlt_le_dec x 0) as [Hneg | _]; [lra |].
    destruct (Qlt_le_dec (Qabs x) (inject_Z (10 ^ 21))) as [_ | Hbig].
    + rewrite Hn, (fixed_point_tenths n Hrange). simpl.
      rewrite !string_append_assoc. reflexivity.
    + exfalso. rewrite Habs in Hbig.
      change (inject_Z (10 ^ 21)) with (1000000000000000000000 # 1)%Q in Hbig. lra.
  - pose proof (Qfloor_le (x * 10 + (1 # 2))) as Hle. fold n in Hle. lra.
  - pose proof (Qlt_floor (x * 10 + (1 # 2))) as Hlt. fold n in Hlt.
    rewrite inject_Z_plus in Hlt. change (inject_Z 1) with 1%Q in Hlt. lra.
  - exact Hrange.
  - exact Herr.
  - intros N HN1 HN2. subst n.
    apply Qabs_Qle_condition in Herr.
    apply Qfloor_unique.
    + lra.
    + rewrite inject_Z_plus. change (inject_Z 1) with 1%Q. lra.
Qed.

Lemma formatProbability_rounded_product_witness :
  Formatters.formatProbability (176 # 10000) = Some "1.8%".
Proof.
  refine (proj1 (formatProbability_rounded_product (176 # 10000) _ _)).
  - unfold Qle; simpl; lia.
  - unfold Qle; simpl; lia.
Defined.

(** C5 as it was stated does not hold.  The Number written [0.0015] is a
    little above 0.0015, so its exact product with 100 is nearer to 0.2
    than to 0.1 and its rendering to one decimal place is ["0.2"]; the
    binary64 product is the Number written [0.15], a little below 0.15,
    and [formatProbability] prints ["0.1%"]. *)
Lemma formatProbability_not_the_exact_product :
  (Binary64.round 0.0015 == Samples.p_0015)%Q
  /\ (0 <= Samples.p_0015)%Q /\ (Samples.p_0015 <= 1)%Q
  /\ Js.toFixed (Samples.p_0015 * 100) 1 = Some "0.2"
  /\ (Binary64.round (Samples.p_0015 * 100) == Binary64.round 0.15)%Q
  /\ Formatters.formatProbability Samples.p_0015 = Some "0.1%".
Proof.
  split; [vm_compute; reflexivity |].
  split; [unfold Qle; simpl; lia |]. split; [unfold Qle; simpl; lia |].
  split; [vm_compute; reflexivity |].
  split; vm_compute; reflexivity.
Qed.

(** ** Hazard zones *)

Section HazardZones.
Local Open Scope Q_scope.
Import Binary64.

(** The Numbers written [0.3] and [0.6]. *)
Lemma literal_03 : literal 0.3 = Fin (5404319552844595 # 18014398509481984).
Proof. vm_compute. reflexivity. Qed.

Lemma literal_06 : literal 0.6 = Fin (5404319552844595 # 9007199254740992).
Proof. vm_compute. reflexivity. Qed.

Lemma literal_10 : literal 1.0 = Fin 1.
Proof. vm_compute. reflexivity. Qed.

(** Multiplication of a non-negative Number by a positive finite one is
    non-decreasing in the latter. *)
Lemma num_mul_le_compat_l (x : num) (c d : Q) :
  le (Fin 0) x = true -> 0 < c -> c <= d ->
  le (mul x (Fin c)) (mul x (Fin d)) = true.
Proof.
  intros Hx Hc Hd.
  assert (Ec : forall e, 0 < e -> Qeq_bool e 0 = false).
  { intros e He. destruct (Qeq_bool e 0) eqn:E; [| reflexivity]. apply Qeq_bool_iff in E. lra. }
  destruct x as [| s | b]; simpl in *; [discriminate | |].
  - destruct s; [discriminate |]. rewrite !Ec by lra.
    rewrite !negative_nonneg by lra. reflexivity.
  - apply Qle_bool_iff in Hx. apply of_Q_le.
    rewrite (Qmult_comm b c), (Qmult_comm b d). apply Qmult_le_compat_r; lra.
Qed.

Lemma num_mul_nonneg (x : num) (c : Q) :
  le (Fin 0) x = true -> 0 < c -> le (Fin 0) (mul x (Fin c)) = true.
Proof.
  intros Hx Hc. destruct x as [| s | b]; simpl in *; [discriminate | |].
  - destruct s; [discriminate |].
    destruct (Qeq_bool c 0) eqn:E; [apply Qeq_bool_iff in E; lra |].
    rewrite negative_nonneg by lra. reflexivity.
  - apply Qle_bool_iff in Hx. apply of_Q_nonneg.
    apply Qmult_le_0_compat; lra.
Qed.

(** In the normal range the product with 0.3 is positive, finite and
    below the product with 0.6, which is below the Number itself. *)
Lemma radii_strict (b : Q) :
  pow2 (-1020) <= b -> b < pow2 1024 ->
  exists r3 r6 : Q,
    of_Q (b * (5404319552844595 # 18014398509481984)) = Fin r3
    /\ of_Q (b * (5404319552844595 # 9007199254740992)) = Fin r6
    /\ 0 < r3 /\ r3 < r6 /\ r6 < b.
Proof.
  intros Hlow Hup.
  set (t3 := b * (5404319552844595 # 18014398509481984)).
  set (t6 := b * (5404319552844595 # 9007199254740992)).
  assert (E20 : pow2 (-1020) == 4 * pow2 (-1022)).
  { replace (-1020)%Z with (2 + -1022)%Z by reflexivity. rewrite pow2_add. reflexivity. }
  pose proof (pow2_pos (-1022)) as Hp.
  assert (Eu : pow2 (-53) == 1 # 9007199254740992) by reflexivity.
  assert (H3 : pow2 (-1022) <= t3) by (unfold t3; lra).
  assert (H6 : pow2 (-1022) <= t6) by (unfold t6; lra).
  pose proof (round_relative_error t3 H3) as R3.
  pose proof (round_relative_error t6 H6) as R6.
  rewrite Eu in R3, R6.
  apply Qabs_Qle_condition in R3. apply Qabs_Qle_condition in R6.
  assert (F3 : Qabs (round t3) < pow2 1024).
  { apply Qabs_Qlt_condition. unfold t3 in *. split; lra. }
  assert (F6 : Qabs (round t6) < pow2 1024).
  { apply Qabs_Qlt_condition. unfold t6 in *. split; lra. }
  exists (Qred (round t3)), (Qred (round t6)).
  split; [exact (of_Q_finite t3 F3) |]. split; [exact (of_Q_finite t6 F6) |].
  rewrite !Qred_correct. unfold t3, t6 in *. repeat split; lra.
Qed.

(** The three radii in terms of the base radius; the product with [1.0]
    is the base radius itself. *)
Lemma calculateHazardZones_unfold (Math_pow : num -> num -> num) (magnitude : num) :
  EarthquakeMap.calculateHazardZones Math_pow magnitude
  = let baseRadius := mul (Math_pow (Fin 10) (sub magnitude (Fin 2))) (Fin 1000) in
    {| EarthquakeMap.critical :=
         mul baseRadius (Fin (5404319552844595 # 18014398509481984));
       EarthquakeMap.high :=
         mul baseRadius (Fin (5404319552844595 # 9007199254740992));
       EarthquakeMap.moderate := baseRadius |}.
Proof.
  unfold EarthquakeMap.calculateHazardZones. cbv zeta.
  rewrite literal_03, literal_06, num_mul_one. reflexivity.
Qed.

(** The radii of a non-negative base radius that a multiplication returned. *)
Lemma radii_ordered (x y : num) :
  let base := mul x y in
  le (Fin 0) base = true ->
  le (Fin 0) (mul base (Fin (5404319552844595 # 18014398509481984))) = true
  /\ le (mul base (Fin (5404319552844595 # 18014398509481984)))
        (mul base (Fin (5404319552844595 # 9007199254740992))) = true
  /\ le (mul base (Fin (5404319552844595 # 9007199254740992))) base = true.
Proof.
  intros base Hb. split; [apply num_mul_nonneg; [exact Hb | reflexivity] |]. split.
  - apply num_mul_le_compat_l; [exact Hb | reflexivity | unfold Qle; simpl; lia].
  - pose proof (num_mul_one x y) as E1. fold base in E1. rewrite <- E1 at 2.
    rewrite literal_10.
    apply num_mul_le_compat_l; [exact Hb | reflexivity | unfold Qle; simpl; lia].
Qed.

(** When [Math.pow(10, x)] is never negative, the radii are three NaNs or
    they are ordered. *)
Lemma hazard_radii_ordered (Math_pow : num -> num -> num) (magnitude : num) :
  (forall x : num, lt (Math_pow (Fin 10) x) (Fin 0) = false) ->
  let z := EarthquakeMap.calculateHazardZones Math_pow magnitude in
  (EarthquakeMap.critical z = NaN /\ EarthquakeMap.high z = NaN
   /\ EarthquakeMap.moderate z = NaN)
  \/ (le (EarthquakeMap.critical z) (EarthquakeMap.high z) = true
      /\ le (EarthquakeMap.high z) (EarthquakeMap.moderate z) = true).
Proof.
  intros Hpow z. subst z. rewrite calculateHazardZones_unfold. cbv zeta.
  cbn [EarthquakeMap.critical EarthquakeMap.high EarthquakeMap.moderate].
  specialize (Hpow (sub magnitude (Fin 2))).
  destruct (Math_pow (Fin 10) (sub magnitude (Fin 2))) as [| s | a] eqn:EP.
  - left. repeat split; reflexivity.
  - right. apply radii_ordered. apply num_mul_nonneg; [| reflexivity].
    apply num_not_lt_le; [discriminate | discriminate | exact Hpow].
  - right. apply radii_ordered. apply num_mul_nonneg; [| reflexivity].
    apply num_not_lt_le; [discriminate | discriminate | exact Hpow].
Qed.

(** The stand-in for [Math.pow] of the examples is never negative and
    non-decreasing in the exponent. *)
Lemma pow_step_nonneg (x : num) : lt (Samples.pow_step (Fin 10) x) (Fin 0) = false.
Proof.
  destruct x as [| s | a]; simpl; [reflexivity | destruct s; reflexivity |].
  apply num_le_lt_false, of_Q_nonneg. apply Qpower_0_le. discriminate.
Qed.

Lemma pow_step_mono (x y : num) :
  le x y = true ->
  le (Samples.pow_step (Fin 10) x) (Samples.pow_step (Fin 10) y) = true.
Proof.
  destruct x as [| s | a], y as [| t | b]; simpl; try discriminate.
  - destruct s, t; simpl; try discriminate; reflexivity.
  - intros ->. apply of_Q_nonneg. apply Qpower_0_le. discriminate.
  - intros Ht. destruct t; [discriminate |].
    destruct (of_Q_cases (10 ^ Qfloor a)) as [(r & -> & _) | [-> _]]; simpl; [reflexivity |].
    apply orb_true_r.
  - intros H. apply Qle_bool_iff in H. apply of_Q_le.
    apply Qpower_le_compat_l; [apply Qfloor_resp_le; exact H | discriminate].
Qed.

(** C9: the three radii of [calculateHazardZones m] are the binary64
    products of the base radius, the binary64 value of
    [Math.pow(10, m - 2) * 1000], with the Numbers written 0.3 and 0.6,
    and the base radius itself.  A non-negative base radius gives
    non-negative radii with critical <= high <= moderate; a finite base
    radius of at least [2^(-1020)] gives strictly positive radii with
    critical < high < moderate.  Each radius is non-decreasing in the
    base radius, and the base radius is non-decreasing in the magnitude
    when [Math.pow(10, x)] is non-decreasing in [x]. *)
Theorem calculateHazardZones_radii (Math_pow : num -> num -> num) (m m' : num) :
  let z := EarthquakeMap.calculateHazardZones Math_pow m in
  let z' := EarthquakeMap.calculateHazardZones Math_pow m' in
  let base := mul (Math_pow (Fin 10) (sub m (Fin 2))) (Fin 1000) in
  let base' := mul (Math_pow (Fin 10) (sub m' (Fin 2))) (Fin 1000) in
  (EarthquakeMap.critical z = mul base (Fin (5404319552844595 # 18014398509481984))
   /\ EarthquakeMap.high z = mul base (Fin (5404319552844595 # 9007199254740992))
   /\ EarthquakeMap.moderate z = base)
  /\ (le (Fin 0) base = true ->
      le (Fin 0) (EarthquakeMap.critical z) = true
      /\ le (EarthquakeMap.critical z) (EarthquakeMap.high z) = true
      /\ le (EarthquakeMap.high z) (EarthquakeMap.moderate z) = true)
  /\ (forall b : Q, base = Fin b -> pow2 (-1020) <= b ->
      lt (Fin 0) (EarthquakeMap.critical z) = true
      /\ lt (EarthquakeMap.critical z) (EarthquakeMap.high z) = true
      /\ lt (EarthquakeMap.high z) (EarthquakeMap.moderate z) = true)
  /\ (le base base' = true ->
      le (EarthquakeMap.critical z) (EarthquakeMap.critical z') = true
      /\ le (EarthquakeMap.high z) (EarthquakeMap.high z') = true
      /\ le (EarthquakeMap.moderate z) (EarthquakeMap.moderate z') = true)
  /\ ((forall x y : num,
         le x y = true -> le (Math_pow (Fin 10) x) (Math_pow (Fin 10) y) = true) ->
      le m m' = true -> le base base' = true).
Proof.
  intros z z' base base'.
  subst z z'. rewrite !calculateHazardZones_unfold. cbv zeta. fold base base'.
  cbn [EarthquakeMap.critical EarthquakeMap.high EarthquakeMap.moderate].
  split; [repeat split |]. split; [| split; [| split]].
  - apply radii_ordered.
  - intros b Eb Hlow.
    pose proof (num_mul_Fin_bound _ _ _ Eb) as Hup.
    assert (Hb0 : 0 < b) by (pose proof (pow2_pos (-1020)); lra).
    rewrite Qabs_pos in Hup by lra.
    destruct (radii_strict b Hlow Hup) as (r3 & r6 & E3 & E6 & H0 & H36 & H6b).
    rewrite Eb. simpl. rewrite E3, E6. simpl.
    rewrite !Qlt_Qle_bool_false by assumption. repeat split; reflexivity.
  - intros Hle. split; [| split; [| exact Hle]];
      apply num_mul_le_compat_r; try exact Hle; reflexivity.
  - intros Hmono Hm. apply num_mul_le_compat_r; [reflexivity |].
    apply Hmono. apply num_sub_le_compat_r. exact Hm.
Qed.

Lemma calculateHazardZones_radii_witness :
  lt (EarthquakeMap.critical (EarthquakeMap.calculateHazardZones Samples.pow_step (Fin 5)))
     (EarthquakeMap.high (EarthquakeMap.calculateHazardZones Samples.pow_step (Fin 5)))
  = true
  /\ le (EarthquakeMap.critical (EarthquakeMap.calculateHazardZones Samples.pow_step (Fin 5)))
        (EarthquakeMap.critical (EarthquakeMap.calculateHazardZones Samples.pow_step (Fin 6)))
     = true.
Proof.
  destruct (calculateHazardZones_radii Samples.pow_step (Fin 5) (Fin 6))
    as (_ & _ & Hstrict & Hbase & Hmag).
  split.
  - refine (proj1 (proj2 (Hstrict 1000000 _ _))).
    + vm_compute. reflexivity.
    + apply Qlt_le_weak, Qlt_trans with 1; [apply (pow2_lt (-1020) 0); lia | reflexivity].
  - refine (proj1 (Hbase (Hmag pow_step_mono _))). reflexivity.
Defined.

(** C9 as it was stated does not hold.  The magnitudes 0 and [2^(-70)]
    are two Numbers, and subtracting 2 from either gives the Number -2:
    whatever [Math.pow] returns, the two earthquakes get the same radii,
    so no radius is strictly increasing in the magnitude.  And a base
    radius that underflows to 0, as for the magnitude -400 when
    [Math.pow(10, -402)] is 0, gives three radii that are 0, neither
    strictly positive nor strictly ordered. *)
Lemma calculateHazardZones_not_strictly_increasing :
  (exists m m' : Q,
     m < m' /\ round m == m /\ round m' == m'
     /\ forall Math_pow : num -> num -> num,
          EarthquakeMap.calculateHazardZones Math_pow (Fin m)
          = EarthquakeMap.calculateHazardZones Math_pow (Fin m'))
  /\ (forall Math_pow : num -> num -> num,
        Math_pow (Fin 10) (Fin (-402)) = Fin 0 ->
        EarthquakeMap.calculateHazardZones Math_pow (Fin (-400))
        = {| EarthquakeMap.critical := Fin 0;
             EarthquakeMap.high := Fin 0;
             EarthquakeMap.moderate := Fin 0 |}).
Proof.
  split.
  - exists 0, (pow2 (-70)). split; [reflexivity |]. split; [reflexivity |].
    split; [vm_compute; reflexivity |].
    intros Math_pow. unfold EarthquakeMap.calculateHazardZones.
    assert (E : sub (Fin 0) (Fin 2) = sub (Fin (pow2 (-70))) (Fin 2))
      by (vm_compute; reflexivity).
    rewrite E. reflexivity.
  - intros Math_pow Hpow. unfold EarthquakeMap.calculateHazardZones.
    assert (E : sub (Fin (-400)) (Fin 2) = Fin (-402)) by (vm_compute; reflexivity).
    rewrite E, Hpow. vm_compute. reflexivity.
Qed.

End HazardZones.

(** ** Model selection *)

Lemma first_present_strategies (reg : Registry.ModelRegistry) (ms : Model.Mainshock) :
  Selector.selectModel reg ms
  = Some match Selector.exact_cell reg ms with
         | Some sel => sel
         | None =>
             match Selector.tectonic_neighbour reg ms with
             | Some sel => sel
             | None => {| Selector.model := Registry.globalFallback reg;
                          Selector.provenance := Selector.global_source |}
             end
         end.
Proof.
  unfold Selector.selectModel, Selector.strategies. simpl.
  destruct (Selector.exact_cell reg ms); [reflexivity |].
  destruct (Selector.tectonic_neighbour reg ms); reflexivity.
Qed.

Lemma gated_passes (src : Selector.source) (m : option Model.RegionalModel)
    (sel : Selector.Selected) :
  Selector.gated src m = Some sel ->
  Selector.provenance sel = src
  /\ Selector.passes_gate (Selector.model sel) = true
  /\ m = Some (Selector.model sel).
Proof.
  unfold Selector.gated. destruct m as [r |]; [| discriminate].
  destruct (Selector.passes_gate r) eqn:Hg; [| discriminate].
  intros [= <-]. simpl. auto.
Qed.

Lemma cellId_in_grid (lat lon : Q) :
  (-90 <= lat)%Q -> (lat <= 90)%Q -> (-180 <= lon)%Q -> (lon < 180)%Q ->
  exists i j : Z,
    Selector.cellId lat lon = ((i * 5)%Z, (j * 5)%Z)
    /\ (-18 <= i <= 18)%Z /\ (-36 <= j <= 35)%Z.
Proof.
  intros Hl1 Hl2 Hn1 Hn2.
  exists (Qfloor (lat / 5)), (Qfloor (lon / 5)).
  split; [reflexivity |].
  assert (Ha : (-18 <= lat / 5)%Q) by (apply Qle_shift_div_l; lra).
  assert (Hb : (lat / 5 <= 18)%Q) by (apply Qle_shift_div_r; lra).
  assert (Hc : (-36 <= lon / 5)%Q) by (apply Qle_shift_div_l; lra).
  assert (Hd : (lon / 5 < 36)%Q) by (apply Qlt_shift_div_r; lra).
  repeat split.
  - change (-18)%Z with (Qfloor (-18)). apply Qfloor_resp_le, Ha.
  - change 18%Z with (Qfloor 18). apply Qfloor_resp_le, Hb.
  - change (-36)%Z with (Qfloor (-36)). apply Qfloor_resp_le, Hc.
  - pose proof (Qfloor_le (lon / 5)) as Hf.
    assert (Hlt : (inject_Z (Qfloor (lon / 5)) < inject_Z 36)%Q).
    { eapply Qle_lt_trans; [exact Hf | exact Hd]. }
    rewrite <- Zlt_Qlt in Hlt. lia.
Qed.

(** C1: for every registry and every mainshock whose latitude is in
    [-90,90] and longitude in [-180,180), the fallback chain returns a
    model: the exact-cell model when it passes the quality gate, else the
    nearest model of the same tectonic setting when that one passes the
    gate, else the global fallback; the cell it consults is a cell of the
    5-degree grid. *)
Theorem selectModel_total (reg : Registry.ModelRegistry) (ms : Model.Mainshock) :
  Model.in_domain ms ->
  exists sel : Selector.Selected,
    Selector.selectModel reg ms = Some sel
    /\ match Selector.provenance sel with
       | Selector.regional_source =>
           Registry.lookupByCell reg
             (Selector.cellId (Model.latitude ms) (Model.longitude ms))
           = Some (Selector.model sel)
           /\ Selector.passes_gate (Selector.model sel) = true
       | Selector.tectonic_fallback =>
           Selector.exact_cell reg ms = None
           /\ Selector.passes_gate (Selector.model sel) = true
           /\ exists setting,
                Selector.known_setting reg ms = Some setting
                /\ Registry.lookupByTectonic reg setting
                     (Selector.cellId (Model.latitude ms) (Model.longitude ms))
                   = Some (Selector.model sel)
       | Selector.global_source =>
           Selector.exact_cell reg ms = None
           /\ Selector.tectonic_neighbour reg ms = None
           /\ Selector.model sel = Registry.globalFallback reg
       end
    /\ exists i j : Z,
         Selector.cellId (Model.latitude ms) (Model.longitude ms)
         = ((i * 5)%Z, (j * 5)%Z)
         /\ (-18 <= i <= 18)%Z /\ (-36 <= j <= 35)%Z.
Proof.
  intros (Hl1 & Hl2 & Hn1 & Hn2).
  rewrite first_present_strategies.
  eexists. split; [reflexivity |]. split.
  - destruct (Selector.exact_cell reg ms) as [sel |] eqn:He.
    + unfold Selector.exact_cell in He.
      destruct (gated_passes _ _ _ He) as (-> & Hg & Hm). auto.
    + destruct (Selector.tectonic_neighbour reg ms) as [sel |] eqn:Ht.
      * unfold Selector.tectonic_neighbour in Ht.
        destruct (Selector.known_setting reg ms) as [setting |]; [| discriminate].
        destruct (gated_passes _ _ _ Ht) as (-> & Hg & Hm). eauto.
      * simpl. auto.
  - apply cellId_in_grid; assumption.
Qed.

Example select_exact_cell :
  Selector.selectModel Samples.registry Samples.nagano
  = Some {| Selector.model := Samples.honshu;
            Selector.provenance := Selector.regional_source |}.
Proof. vm_compute. reflexivity. Qed.

Example select_rejects_two_sequences :
  Selector.selectModel Samples.registry Samples.offshore
  = Some {| Selector.model := Samples.worldwide;
            Selector.provenance := Selector.global_source |}.
Proof. vm_compute. reflexivity. Qed.

Example select_tectonic_neighbour :
  Selector.selectModel Samples.registry Samples.kyushu
  = Some {| Selector.model := Samples.honshu;
            Selector.provenance := Selector.tectonic_fallback |}.
Proof. vm_compute. reflexivity. Qed.

Example select_global :
  Selector.selectModel Samples.registry Samples.atlantic
  = Some {| Selector.model := Samples.worldwide;
            Selector.provenance := Selector.global_source |}.
Proof. vm_compute. reflexivity. Qed.

Lemma selectModel_total_witness :
  exists sel : Selector.Selected,
    Selector.selectModel Samples.registry Samples.nagano = Some sel.
Proof.
  destruct (selectModel_total Samples.registry Samples.nagano) as (sel & Hsel & _).
  - unfold Model.in_domain, Qle, Qlt; simpl; lia.
  - exists sel. exact Hsel.
Defined.

(** ** The forecast engine *)

Lemma exp_le (x y : R) : (x <= y)%R -> (exp x <= exp y)%R.
Proof.
  intros [Hlt | ->]; [left; apply exp_increasing, Hlt | right; reflexivity].
Qed.

Lemma ln_le_pos (x y : R) : (0 < x)%R -> (x <= y)%R -> (ln x <= ln y)%R.
Proof.
  intros Hx [Hlt | ->]; [left; apply ln_increasing; assumption | right; reflexivity].
Qed.

Lemma Rpower_10_pos (x : R) : (0 < Rpower 10 x)%R.
Proof. unfold Rpower. apply exp_pos. Qed.

(** A power with a negative exponent decreases on the positive reals. *)
Lemma Rpower_antitone (q a b : R) :
  (q <= 0)%R -> (0 < a)%R -> (a <= b)%R -> (Rpower b q <= Rpower a q)%R.
Proof.
  intros Hq Ha Hab. unfold Rpower. apply exp_le.
  pose proof (ln_le_pos a b Ha Hab). nra.
Qed.

Lemma clamp01_bounds (x : R) : (0 <= Engine.clamp01 x <= 1)%R.
Proof.
  unfold Engine.clamp01. split; [apply Rmax_l |].
  apply Rmax_lub; [lra | apply Rmin_l].
Qed.

Lemma clamp01_monotone (x y : R) :
  (x <= y)%R -> (Engine.clamp01 x <= Engine.clamp01 y)%R.
Proof.
  intros H. unfold Engine.clamp01.
  apply Rle_max_compat_l, Rle_min_compat_l, H.
Qed.

Lemma clamp01_id (x : R) : (0 <= x <= 1)%R -> Engine.clamp01 x = x.
Proof.
  intros [H0 H1]. unfold Engine.clamp01.
  rewrite (Rmin_right 1 x H1). apply Rmax_right, H0.
Qed.

(** The repair keeps every value between 0 and its predecessor. *)
Lemma enforce_monotone_bounds (raw : list R) :
  forall prev : R, (0 <= prev)%R ->
  Forall (fun y => (0 <= y <= prev)%R) (Engine.enforce_monotone prev raw).
Proof.
  induction raw as [| x raw IH]; intros prev Hprev; simpl; [constructor |].
  pose proof (clamp01_bounds x) as [Hc0 Hc1].
  assert (Hy : (0 <= Rmin prev (Engine.clamp01 x) <= prev)%R)
    by (split; [apply Rmin_glb; assumption | apply Rmin_l]).
  constructor; [exact Hy |].
  eapply Forall_impl; [apply IH; tauto |].
  simpl. intros z Hz. lra.
Qed.

Lemma enforce_monotone_sorted (raw : list R) :
  forall prev : R, (0 <= prev)%R ->
  Shapes.non_increasing (Engine.enforce_monotone prev raw).
Proof.
  unfold Shapes.non_increasing.
  induction raw as [| x raw IH]; intros prev Hprev; simpl; [constructor |].
  pose proof (clamp01_bounds x) as [Hc0 Hc1].
  assert (Hy : (0 <= Rmin prev (Engine.clamp01 x))%R)
    by (apply Rmin_glb; assumption).
  constructor; [apply IH, Hy |].
  eapply Forall_impl; [apply enforce_monotone_bounds, Hy |].
  simpl. intros z Hz. lra.
Qed.

(** Values already in [0,1] and already non-increasing pass unchanged. *)
Lemma enforce_monotone_id (raw : list R) :
  forall prev : R,
  Shapes.non_increasing raw ->
  Forall (fun x => (0 <= x <= 1)%R /\ (x <= prev)%R) raw ->
  Engine.enforce_monotone prev raw = raw.
Proof.
  unfold Shapes.non_increasing.
  induction raw as [| x raw IH]; intros prev Hs Hb; simpl; [reflexivity |].
  inversion Hs as [| ? ? Hs' Hx]; subst.
  inversion Hb as [| ? ? [Hx01 Hxp] Hb']; subst.
  rewrite (clamp01_id x Hx01), (Rmin_right prev x Hxp).
  f_equal. apply IH; [exact Hs' |].
  rewrite Forall_forall in *. intros z Hz.
  split; [apply Hb', Hz | apply Hx, Hz].
Qed.

Lemma steps_down_below (n : nat) :
  forall top : Q, Forall (fun x => (x <= top)%Q) (Engine.steps_down top n).
Proof.
  induction n as [| n IH]; intros top; simpl.
  - repeat constructor. apply Qle_refl.
  - constructor; [apply Qle_refl |].
    eapply Forall_impl; [apply IH |].
    simpl. intros x Hx. lra.
Qed.

Lemma steps_down_descending (n : nat) :
  forall top : Q, StronglySorted (fun x y => (y <= x)%Q) (Engine.steps_down top n).
Proof.
  induction n as [| n IH]; intros top; simpl.
  - repeat constructor.
  - constructor; [apply IH |].
    eapply Forall_impl; [apply steps_down_below |].
    simpl. intros x Hx. lra.
Qed.

Lemma StronglySorted_rev {A : Type} (R : A -> A -> Prop) (l : list A) :
  StronglySorted R l -> StronglySorted (fun x y => R y x) (rev l).
Proof.
  induction 1 as [| a l Hs IH Ha]; simpl; [constructor |].
  apply StronglySorted_app_2; [| exact IH | repeat constructor].
  intros x1 x2 H1 H2. apply list_elem_of_singleton in H2. subst x2.
  rewrite Forall_forall in Ha. apply Ha.
  apply list_elem_of_In, in_rev, list_elem_of_In. exact H1.
Qed.

Lemma thresholds_ascending (ms : Model.Mainshock) :
  StronglySorted Rle (map Q2R (Engine.thresholds ms)).
Proof.
  apply (StronglySorted_fmap Q2R Qle Rle); [apply Qle_Rle |].
  unfold Engine.thresholds.
  destruct (Qlt_le_dec (Model.magnitude ms) (5 # 2)); [constructor |].
  apply (StronglySorted_rev (fun x y => (y <= x)%Q)), steps_down_descending.
Qed.

Section ForecastEngine.

Variables (eps tol : R).
Hypothesis eps_pos : (0 < eps)%R.
Hypothesis tol_pos : (0 < tol)%R.

Lemma floor_eps_pos (x : R) : (0 < Engine.floor_eps eps x)%R.
Proof.
  unfold Engine.floor_eps.
  eapply Rlt_le_trans; [exact eps_pos | apply Rmax_r].
Qed.

Lemma floor_eps_monotone (x y : R) :
  (x <= y)%R -> (Engine.floor_eps eps x <= Engine.floor_eps eps y)%R.
Proof. intros H. unfold Engine.floor_eps. apply Rle_max_compat_r, H. Qed.

(** The cumulative count never decreases when the horizon grows. *)
Lemma cumulative_monotone (m : Model.RegionalModel) (D1 D2 : R) :
  (0 < Model.omori_K m)%R -> (D1 <= D2)%R ->
  (Engine.cumulative eps tol m D1 <= Engine.cumulative eps tol m D2)%R.
Proof.
  intros HK HD. unfold Engine.cumulative.
  set (K := Model.omori_K m) in *. set (p := Model.omori_p m).
  set (fc := Engine.floor_eps eps (Model.omori_c m)).
  set (x1 := Engine.floor_eps eps (D1 + Model.omori_c m)).
  set (x2 := Engine.floor_eps eps (D2 + Model.omori_c m)).
  assert (Hfc : (0 < fc)%R) by apply floor_eps_pos.
  assert (Hx1 : (0 < x1)%R) by apply floor_eps_pos.
  assert (Hx : (x1 <= x2)%R) by (apply floor_eps_monotone; lra).
  destruct (Rlt_dec (Rabs (p - 1)) tol) as [Hlog | Hpow].
  - apply Rmult_le_compat_l; [lra |].
    assert (Hi : (0 < / fc)%R) by (apply Rinv_0_lt_compat, Hfc).
    apply ln_le_pos; unfold Rdiv.
    + apply Rmult_lt_0_compat; assumption.
    + apply Rmult_le_compat_r; lra.
  - destruct (Rtotal_order (1 - p) 0) as [Hneg | [Hzero | Hposq]].
    + assert (Hinv : (/ (1 - p) < 0)%R) by (apply Rinv_neg, Hneg).
      pose proof (Rpower_antitone (1 - p) x1 x2 ltac:(lra) Hx1 Hx) as Hanti.
      apply Rmult_le_compat_neg_l; [| lra].
      left. unfold Rdiv. apply Rmult_pos_neg; assumption.
    + exfalso. apply Hpow.
      replace (p - 1)%R with 0%R by lra. rewrite Rabs_R0. exact tol_pos.
    + assert (Hinv : (0 < / (1 - p))%R) by (apply Rinv_0_lt_compat, Hposq).
      pose proof (Rle_Rpower_l x1 x2 (1 - p) ltac:(lra) (conj Hx1 Hx)) as Hmono.
      apply Rmult_le_compat_l; [| lra].
      left. unfold Rdiv. apply Rmult_lt_0_compat; assumption.
Qed.

(** Nothing has accumulated at horizon 0. *)
Lemma cumulative_0 (m : Model.RegionalModel) :
  Engine.cumulative eps tol m 0 = 0%R.
Proof.
  unfold Engine.cumulative. rewrite Rplus_0_l.
  pose proof (floor_eps_pos (Model.omori_c m)) as Hfc.
  destruct (Rlt_dec _ _).
  - unfold Rdiv. rewrite Rinv_r by lra. rewrite ln_1. ring.
  - ring.
Qed.

Lemma cumulative_nonneg (m : Model.RegionalModel) (D : R) :
  (0 < Model.omori_K m)%R -> (0 <= D)%R -> (0 <= Engine.cumulative eps tol m D)%R.
Proof.
  intros HK HD. rewrite <- (cumulative_0 m).
  apply cumulative_monotone; assumption.
Qed.

(** Away from the flooring and from [p = 1] the count is the power-law
    closed form of the design document. *)
Lemma cumulative_power_branch (m : Model.RegionalModel) (D : R) :
  (tol <= Rabs (Model.omori_p m - 1))%R -> (eps <= Model.omori_c m)%R -> (0 <= D)%R ->
  Engine.cumulative eps tol m D
  = (Model.omori_K m / (1 - Model.omori_p m)
     * (Rpower (D + Model.omori_c m) (1 - Model.omori_p m)
        - Rpower (Model.omori_c m) (1 - Model.omori_p m)))%R.
Proof.
  intros Hp Hc HD. unfold Engine.cumulative, Engine.floor_eps.
  destruct (Rlt_dec _ _) as [Hlt | _]; [lra |].
  rewrite !Rmax_left by lra. reflexivity.
Qed.

(** Within the tolerance of [p = 1] it is the logarithmic closed form. *)
Lemma cumulative_log_branch (m : Model.RegionalModel) (D : R) :
  (Rabs (Model.omori_p m - 1) < tol)%R -> (eps <= Model.omori_c m)%R -> (0 <= D)%R ->
  Engine.cumulative eps tol m D
  = (Model.omori_K m * ln ((D + Model.omori_c m) / Model.omori_c m))%R.
Proof.
  intros Hp Hc HD. unfold Engine.cumulative, Engine.floor_eps.
  destruct (Rlt_dec _ _) as [_ | Hge]; [| contradiction].
  rewrite !Rmax_left by lra. reflexivity.
Qed.

(** C3: for a valid model the cumulative expected count does not decrease
    from one horizon of the set 1, 7, 30, 365 days to a later one. *)
Theorem cumulative_non_decreasing (m : Model.RegionalModel) :
  Model.valid_model m ->
  (forall D1 D2 : R,
     In D1 Engine.horizons -> In D2 Engine.horizons -> (D1 <= D2)%R ->
     (Engine.cumulative eps tol m D1 <= Engine.cumulative eps tol m D2)%R)
  /\ StronglySorted Rle (map (Engine.cumulative eps tol m) Engine.horizons).
Proof.
  intros (HK & _ & _ & _). split.
  - intros D1 D2 _ _ HD. apply cumulative_monotone; assumption.
  - apply (StronglySorted_fmap (Engine.cumulative eps tol m) Rle Rle).
    + intros D1 D2 HD. apply cumulative_monotone; assumption.
    + unfold Engine.horizons.
      repeat first [apply SSorted_cons | apply SSorted_nil
                   | apply Forall_cons_2 | apply Forall_nil_2 | lra].
Qed.

(** The expected count above a threshold is non-negative and does not
    increase with the threshold. *)
Lemma expectedCount_antitone (m : Model.RegionalModel) (t1 t2 : R) :
  (0 < Model.omori_K m)%R -> (0 < Model.gr_b m)%R -> (t1 <= t2)%R ->
  (Engine.expectedCount eps tol m t2 <= Engine.expectedCount eps tol m t1)%R.
Proof.
  intros HK Hb Ht. unfold Engine.expectedCount.
  apply Rmult_le_compat_l; [apply cumulative_nonneg; [exact HK | lra] |].
  apply Rle_Rpower; [lra | nra].
Qed.

Lemma P_antitone (m : Model.RegionalModel) (t1 t2 : R) :
  (0 < Model.omori_K m)%R -> (0 < Model.gr_b m)%R -> (t1 <= t2)%R ->
  (Engine.P eps tol m t2 <= Engine.P eps tol m t1)%R.
Proof.
  intros HK Hb Ht. unfold Engine.P. apply clamp01_monotone.
  pose proof (expectedCount_antitone m t1 t2 HK Hb Ht) as HE.
  assert (Hexp : (exp (- Engine.expectedCount eps tol m t1)
                  <= exp (- Engine.expectedCount eps tol m t2))%R)
    by (apply exp_le; lra).
  lra.
Qed.

(** Before clamping the probability already lies in [0,1). *)
Lemma P_unclamped (m : Model.RegionalModel) (t : R) :
  (0 < Model.omori_K m)%R ->
  Engine.P eps tol m t = (1 - exp (- Engine.expectedCount eps tol m t))%R.
Proof.
  intros HK. unfold Engine.P. apply clamp01_id.
  assert (HE : (0 <= Engine.expectedCount eps tol m t)%R).
  { unfold Engine.expectedCount. apply Rmult_le_pos.
    - apply cumulative_nonneg; [exact HK | lra].
    - left. apply Rpower_10_pos. }
  pose proof (exp_pos (- Engine.expectedCount eps tol m t)) as Hpos.
  assert (Hle : (exp (- Engine.expectedCount eps tol m t) <= exp 0)%R)
    by (apply exp_le; lra).
  rewrite exp_0 in Hle. lra.
Qed.

(** C2: for a valid model the exceedance probability
    [P(m) = 1 - exp(-expectedCount(m))] does not increase with the
    threshold and lies in [0,1]; whatever arithmetic evaluates it, the
    emitted probabilities are in [0,1] and never increase along the
    thresholds, a value above its predecessor being clamped down to it; and
    with exact arithmetic the thresholds of any mainshock are emitted as
    computed. *)
Theorem exceedance_probability_monotone (m : Model.RegionalModel) (ms : Model.Mainshock) :
  Model.valid_model m ->
  (forall t1 t2 : R, (t1 <= t2)%R -> (Engine.P eps tol m t2 <= Engine.P eps tol m t1)%R)
  /\ (forall t : R,
        (0 <= Engine.P eps tol m t <= 1)%R
        /\ Engine.P eps tol m t = (1 - exp (- Engine.expectedCount eps tol m t))%R)
  /\ (forall (evaluate : Model.RegionalModel -> R -> R) (thresholds : list R),
        Shapes.non_increasing (Engine.magnitude_probabilities evaluate m thresholds)
        /\ Forall (fun x => (0 <= x <= 1)%R)
             (Engine.magnitude_probabilities evaluate m thresholds)
        /\ length (Engine.magnitude_probabilities evaluate m thresholds)
           = length thresholds)
  /\ (forall (prev x : R) (rest : list R),
        (prev < Engine.clamp01 x)%R ->
        Engine.enforce_monotone prev (x :: rest)
        = prev :: Engine.enforce_monotone prev rest)
  /\ Engine.magnitude_probabilities (Engine.P eps tol) m (map Q2R (Engine.thresholds ms))
     = map (Engine.P eps tol m) (map Q2R (Engine.thresholds ms)).
Proof.
  intros (HK & Hb & _ & _).
  split; [| split; [| split; [| split]]].
  - intros t1 t2 Ht. apply P_antitone; assumption.
  - intros t. split; [apply clamp01_bounds | apply P_unclamped, HK].
  - intros evaluate thresholds. unfold Engine.magnitude_probabilities.
    split; [apply enforce_monotone_sorted; lra |]. split.
    + apply enforce_monotone_bounds. lra.
    + generalize 1%R. induction thresholds as [| t ths IH]; intros prev; simpl;
        [reflexivity | now rewrite IH].
  - intros prev x rest Hlt. simpl.
    rewrite (Rmin_left prev (Engine.clamp01 x)) by lra. reflexivity.
  - unfold Engine.magnitude_probabilities. apply enforce_monotone_id.
    + pose proof (thresholds_ascending ms) as Hs.
      induction Hs as [| t ths Hs IH Ht]; simpl; [constructor |].
      constructor; [exact IH |].
      rewrite Forall_forall in *. intros y Hy.
      apply list_elem_of_fmap in Hy. destruct Hy as (t' & -> & Ht').
      apply P_antitone; [exact HK | exact Hb | apply Ht, Ht'].
    + rewrite Forall_forall. intros y Hy.
      apply list_elem_of_fmap in Hy. destruct Hy as (t' & -> & _).
      pose proof (clamp01_bounds (1 - exp (- Engine.expectedCount eps tol m t'))) as Hb01.
      unfold Engine.P. lra.
Qed.

End ForecastEngine.

(** ** The scenarios of section 8 on the sample models *)

Lemma honshu_valid : Model.valid_model Samples.honshu.
Proof. unfold Model.valid_model; simpl; lra. Qed.

(** Scenario 1: K = 30, c = 1, p = 1 gives [cumulative(1) = 30 ln 2]. *)
Example scenario_logarithmic_branch :
  Engine.cumulative (1 / 1000000) (1 / 1000) Samples.honshu 1 = (30 * ln 2)%R.
Proof.
  rewrite cumulative_log_branch; simpl; try lra.
  - f_equal. f_equal. lra.
  - replace (1 - 1)%R with 0%R by lra. rewrite Rabs_R0. lra.
Qed.

(** Scenario 2: K = 50, c = 0.5, p = 1.1 gives [rate(1) = 50 / 1.5^1.1]. *)
Example scenario_rate :
  Engine.rate (1 / 1000000) Samples.sparse 1 = (50 / Rpower 1.5 1.1)%R.
Proof.
  unfold Engine.rate, Engine.floor_eps. simpl.
  rewrite Rmax_left by lra. f_equal. f_equal. lra.
Qed.

Example thresholds_nagano :
  map Qred (Engine.thresholds Samples.nagano)
  = [ 5 # 2; 3; 7 # 2; 4; 9 # 2; 5; 11 # 2; 6; 13 # 2 ]%Q.
Proof. vm_compute. reflexivity. Qed.

Lemma cumulative_non_decreasing_witness :
  (Engine.cumulative (1 / 1000000) (1 / 1000) Samples.honshu 1
   <= Engine.cumulative (1 / 1000000) (1 / 1000) Samples.honshu 7)%R.
Proof.
  refine (proj1 (cumulative_non_decreasing (1 / 1000000) (1 / 1000) _ _
                   Samples.honshu _) 1%R 7%R _ _ _).
  - lra.
  - lra.
  - unfold Model.valid_model; simpl; lra.
  - simpl; auto.
  - simpl; auto.
  - lra.
Defined.

Lemma exceedance_probability_monotone_witness :
  (Engine.P (1 / 1000000) (1 / 1000) Samples.honshu 6.5
   <= Engine.P (1 / 1000000) (1 / 1000) Samples.honshu 2.5)%R.
Proof.
  refine (proj1 (exceedance_probability_monotone (1 / 1000000) (1 / 1000) _ _
                   Samples.honshu Samples.nagano _) 2.5%R 6.5%R _).
  - lra.
  - lra.
  - unfold Model.valid_model; simpl; lra.
  - lra.
Defined.

(** * Further properties of the front end *)

(** ** Numbers and their rendering *)

Lemma Qabs_opp_eq (x : Q) : Qabs (- x) = Qabs x.
Proof. destruct x as [n d]. unfold Qabs, Qopp. simpl. now rewrite Z.abs_opp. Qed.

(** [toFixed] on a non-negative number below 10^21. *)
Lemma toFixed_nonneg (x : Q) (f : nat) :
  (0 <= x)%Q -> (x < inject_Z (10 ^ 21))%Q ->
  Js.toFixed x f
  = Some (Js.fixed_point
            (Z.to_N (Qfloor (x * inject_Z (10 ^ Z.of_nat f) + (1 # 2)))) f).
Proof.
  intros H0 Hbig. unfold Js.toFixed.
  assert (Habs : (Qabs x == x)%Q) by (apply Qabs_pos; exact H0).
  destruct (Qlt_le_dec x 0) as [Hneg | _]; [lra |].
  destruct (Qlt_le_dec (Qabs x) (inject_Z (10 ^ 21))) as [_ | Hge].
  - assert (Hq : Qfloor (Qabs x * inject_Z (10 ^ Z.of_nat f) + (1 # 2))
                 = Qfloor (x * inject_Z (10 ^ Z.of_nat f) + (1 # 2)))
      by (apply Qfloor_comp; now rewrite Habs).
    rewrite Hq. reflexivity.
  - exfalso. rewrite Habs in Hge. lra.
Qed.

(** ** Magnitude colours and labels *)

Ltac split_Qle_bool :=
  repeat match goal with
         | |- context [Qle_bool ?x ?y] =>
             lazymatch x with context [Qle_bool _ _] => fail | _ => idtac end;
             lazymatch y with context [Qle_bool _ _] => fail | _ => idtac end;
             let E := fresh "E" in
             destruct (Qle_bool x y) eqn:E;
             [apply Qle_bool_iff in E | apply Qle_bool_false in E]
         end.

(** X1: the colour of a magnitude never becomes less severe when the
    magnitude grows, it is always one of the four risk colours, and a
    magnitude that is not a number gets the mildest one. *)
Theorem getMagnitudeColor_monotone (a b : Q) :
  (a <= b)%Q ->
  (Measures.severity (Format.getMagnitudeColor (Js.Fin a))
   <= Measures.severity (Format.getMagnitudeColor (Js.Fin b)))%nat
  /\ (exists l : RiskClassifier.RiskLevel,
        Formatters.getRiskLevelColor (RiskClassifier.level_name l)
        = Some (Format.getMagnitudeColor (Js.Fin a)))
  /\ Format.getMagnitudeColor Js.NaN = "#10b981".
Proof.
  intros Hab. split; [| split].
  - unfold Format.getMagnitudeColor, JsNum.ge.
    split_Qle_bool; vm_compute; try lia; try lra.
  - unfold Format.getMagnitudeColor, JsNum.ge.
    split_Qle_bool.
    + exists RiskClassifier.CRITICAL. reflexivity.
    + exists RiskClassifier.HIGH. reflexivity.
    + exists RiskClassifier.ELEVATED. reflexivity.
    + exists RiskClassifier.MODERATE. reflexivity.
  - reflexivity.
Qed.

Lemma getMagnitudeColor_monotone_witness :
  (Measures.severity (Format.getMagnitudeColor (Js.Fin 5.5))
   <= Measures.severity (Format.getMagnitudeColor (Js.Fin 7.2)))%nat.
Proof.
  refine (proj1 (getMagnitudeColor_monotone 5.5 7.2 _)).
  unfold Qle; simpl; lia.
Defined.

Example formatMagnitude_ex :
  Format.formatMagnitude (Js.Fin 6.44) = Some "M6.4".
Proof. vm_compute. reflexivity. Qed.

(** X2: a magnitude less than 0.05 below 5, 6 or 7 is labelled like that
    whole magnitude ("M7.0") and still coloured like the band below it:
    the same label comes in two colours. *)
Theorem magnitude_label_crosses_band (m : Q) (T : Z) :
  (T = 5 \/ T = 6 \/ T = 7)%Z ->
  (inject_Z T - 0.05 <= m)%Q -> (m < inject_Z T)%Q ->
  Format.formatMagnitude (Js.Fin m)
  = Some ("M" ++ Js.digits (Z.to_N T) ++ ".0")
  /\ Format.formatMagnitude (Js.Fin (inject_Z T))
     = Format.formatMagnitude (Js.Fin m)
  /\ Format.getMagnitudeColor (Js.Fin m)
     <> Format.getMagnitudeColor (Js.Fin (inject_Z T))
  /\ Format.getMagnitudeColor (Js.Fin m)
     = Format.getMagnitudeColor (Js.Fin (inject_Z (T - 1))).
Proof.
  intros HT Hlo Hhi.
  assert (Hn : Qfloor (m * inject_Z (10 ^ Z.of_nat 1) + (1 # 2)) = (10 * T)%Z).
  { change (inject_Z (10 ^ Z.of_nat 1)) with 10%Q.
    apply Qfloor_unique; rewrite ?inject_Z_plus, ?inject_Z_mult;
      change (inject_Z 10) with 10%Q; change (inject_Z 1) with 1%Q; lra. }
  assert (Hm : Format.formatMagnitude (Js.Fin m)
               = Some ("M" ++ Js.digits (Z.to_N T) ++ ".0")).
  { unfold Format.formatMagnitude, JsNum.toFixed.
    rewrite toFixed_nonneg.
    - rewrite Hn. destruct HT as [-> | [-> | ->]]; reflexivity.
    - destruct HT as [-> | [-> | ->]]; unfold inject_Z in *; simpl in *; lra.
    - change (inject_Z (10 ^ 21)) with (1000000000000000000000 # 1)%Q.
      destruct HT as [-> | [-> | ->]]; unfold inject_Z in *; simpl in *; lra. }
  split; [exact Hm |]. split; [| split].
  - rewrite Hm. destruct HT as [-> | [-> | ->]]; vm_compute; reflexivity.
  - unfold Format.getMagnitudeColor, JsNum.ge.
    destruct HT as [-> | [-> | ->]]; unfold inject_Z in *; simpl in *;
      split_Qle_bool; try discriminate; try lra.
  - unfold Format.getMagnitudeColor, JsNum.ge.
    destruct HT as [-> | [-> | ->]]; unfold inject_Z in *; simpl in *;
      split_Qle_bool; try reflexivity; try lra.
Qed.

Lemma magnitude_label_crosses_band_witness :
  Format.formatMagnitude (Js.Fin 6.97) = Some "M7.0"
  /\ Format.getMagnitudeColor (Js.Fin 6.97) = "#f59e0b".
Proof.
  destruct (magnitude_label_crosses_band 6.97 7) as (Hl & _ & _ & Hc).
  - auto.
  - unfold Qle; simpl; lia.
  - unfold Qlt; simpl; lia.
  - split; [exact Hl | rewrite Hc; reflexivity].
Defined.

(** ** Coordinates and depth *)

Example formatCoordinates_ex :
  Format.formatCoordinates (Js.Fin (-33.456)) (Js.Fin 151.2)
  = Some ("33.46" ++ Format.degree ++ "S, 151.20" ++ Format.degree ++ "E").
Proof. vm_compute. reflexivity. Qed.

Example formatCoordinates_origin :
  Format.formatCoordinates (Js.Fin 0) (Js.Fin 0)
  = Some ("0.00" ++ Format.degree ++ "N, 0.00" ++ Format.degree ++ "E").
Proof. vm_compute. reflexivity. Qed.

Lemma toFixed_abs_defined (x : Q) (bound : Q) (f : nat) :
  (Qabs x <= bound)%Q -> (bound < inject_Z (10 ^ 21))%Q ->
  exists s, Js.toFixed (Qabs x) f = Some s.
Proof.
  intros Hb Hbig. eexists. apply toFixed_nonneg.
  - apply Qabs_nonneg.
  - eapply Qle_lt_trans; eassumption.
Qed.

(** X3: for a point off the equator and off the prime meridian the four
    sign combinations of its coordinates print the same two numbers and
    differ only in the hemisphere letters, N or S and E or W; no sign is
    carried into the numbers. *)
Theorem formatCoordinates_hemispheres (lat lon : Q) :
  (0 < lat)%Q -> (lat <= 90)%Q -> (0 < lon)%Q -> (lon <= 180)%Q ->
  exists a b : string,
    Js.toFixed lat 2 = Some a /\ Js.toFixed lon 2 = Some b
    /\ Format.formatCoordinates (Js.Fin lat) (Js.Fin lon)
       = Some (a ++ Format.degree ++ "N" ++ ", " ++ b ++ Format.degree ++ "E")
    /\ Format.formatCoordinates (Js.Fin (- lat)) (Js.Fin lon)
       = Some (a ++ Format.degree ++ "S" ++ ", " ++ b ++ Format.degree ++ "E")
    /\ Format.formatCoordinates (Js.Fin lat) (Js.Fin (- lon))
       = Some (a ++ Format.degree ++ "N" ++ ", " ++ b ++ Format.degree ++ "W")
    /\ Format.formatCoordinates (Js.Fin (- lat)) (Js.Fin (- lon))
       = Some (a ++ Format.degree ++ "S" ++ ", " ++ b ++ Format.degree ++ "W").
Proof.
  intros Hlat0 Hlat Hlon0 Hlon.
  assert (Hbig : (180 < inject_Z (10 ^ 21))%Q) by (vm_compute; reflexivity).
  assert (Ha : (Qabs lat == lat)%Q) by (apply Qabs_pos; lra).
  assert (Hb : (Qabs lon == lon)%Q) by (apply Qabs_pos; lra).
  destruct (toFixed_abs_defined lat 180 2) as [a Hta]; [lra | exact Hbig |].
  destruct (toFixed_abs_defined lon 180 2) as [b Htb]; [lra | exact Hbig |].
  assert (Hla : Js.toFixed lat 2 = Some a).
  { rewrite <- Hta, !toFixed_nonneg; try lra; try apply Qabs_nonneg.
    do 3 f_equal. apply Qfloor_comp. now rewrite Ha. }
  assert (Hlo : Js.toFixed lon 2 = Some b).
  { rewrite <- Htb, !toFixed_nonneg; try lra; try apply Qabs_nonneg.
    do 3 f_equal. apply Qfloor_comp. now rewrite Hb. }
  assert (Hge1 : Qle_bool 0 lat = true) by (apply Qle_bool_iff; lra).
  assert (Hge2 : Qle_bool 0 lon = true) by (apply Qle_bool_iff; lra).
  assert (Hlt1 : Qle_bool 0 (- lat) = false).
  { destruct (Qle_bool 0 (- lat)) eqn:E; [| reflexivity].
    apply Qle_bool_iff in E. lra. }
  assert (Hlt2 : Qle_bool 0 (- lon) = false).
  { destruct (Qle_bool 0 (- lon)) eqn:E; [| reflexivity].
    apply Qle_bool_iff in E. lra. }
  exists a, b. split; [exact Hla |]. split; [exact Hlo |].
  unfold Format.formatCoordinates, JsNum.ge, JsNum.Math_abs, JsNum.toFixed.
  rewrite !Qabs_opp_eq, Hta, Htb, Hge1, Hge2, Hlt1, Hlt2.
  repeat split; reflexivity.
Qed.

Lemma formatCoordinates_hemispheres_witness :
  exists a b : string,
    Format.formatCoordinates (Js.Fin (- 33.456)) (Js.Fin 151.2)
    = Some (a ++ Format.degree ++ "S" ++ ", " ++ b ++ Format.degree ++ "E").
Proof.
  destruct (formatCoordinates_hemispheres 33.456 151.2)
    as (a & b & _ & _ & _ & H & _).
  - unfold Qlt; simpl; lia.
  - unfold Qle; simpl; lia.
  - unfold Qlt; simpl; lia.
  - unfold Qle; simpl; lia.
  - exists a, b. exact H.
Defined.

Example formatDepth_ex : Format.formatDepth (Js.Fin 35.5) = Some "36 km".
Proof. vm_compute. reflexivity. Qed.

Example formatDepth_negative : Format.formatDepth (Js.Fin (-2.5)) = Some "-2 km".
Proof. vm_compute. reflexivity. Qed.

Example formatDepth_small_negative : Format.formatDepth (Js.Fin (-0.3)) = Some "0 km".
Proof. vm_compute. reflexivity. Qed.

Lemma Z_to_int_not_nil (z : Z) :
  Z.to_int z <> Decimal.Pos Decimal.Nil /\ Z.to_int z <> Decimal.Neg Decimal.Nil.
Proof.
  destruct z as [| p | p]; simpl; split; try discriminate;
    intros [= H]; exact (DecimalPos.Unsigned.to_uint_nonnil p H).
Qed.

(** X4: the depth is shown as the whole number of kilometres nearest to
    it (the larger one on a tie): the text before " km" reads back as an
    integer within half a kilometre of the depth. *)
Theorem formatDepth_nearest_km (depth : Q) :
  (Qabs depth <= 1000000)%Q ->
  exists (s : string) (z : Z),
    Format.formatDepth (Js.Fin depth) = Some (s ++ " km")
    /\ Measures.parse_integer s = Some z
    /\ (inject_Z z - (1 # 2) <= depth)%Q
    /\ (depth < inject_Z z + (1 # 2))%Q.
Proof.
  intros Hb. set (z := Qfloor (depth + (1 # 2))).
  assert (Hrange : (-1000000 <= z <= 1000000)%Z).
  { apply Qabs_Qle_condition in Hb. destruct Hb as [Hlo Hhi]. subst z. split.
    - change (-1000000)%Z with (Qfloor (- 1000000 + (1 # 2))).
      apply Qfloor_resp_le. lra.
    - change 1000000%Z with (Qfloor (1000000 + (1 # 2))).
      apply Qfloor_resp_le. lra. }
  exists (NilZero.string_of_int (Z.to_int z)), z.
  split; [| split; [| split]].
  - unfold Format.formatDepth, JsNum.Math_round, JsNum.integer_to_string. fold z.
    assert (Hlt : (Z.abs z <? 10 ^ 21)%Z = true) by (apply Z.ltb_lt; lia).
    now rewrite Hlt.
  - unfold Measures.parse_integer.
    destruct (Z_to_int_not_nil z) as [Hp Hn].
    rewrite (NilZero.isi _ Hp Hn). now rewrite DecimalZ.of_to.
  - pose proof (Qfloor_le (depth + (1 # 2))) as Hle. fold z in Hle. lra.
  - pose proof (Qlt_floor (depth + (1 # 2))) as Hlt. fold z in Hlt.
    rewrite inject_Z_plus in Hlt. change (inject_Z 1) with 1%Q in Hlt. lra.
Qed.

Lemma formatDepth_nearest_km_witness :
  exists (s : string) (z : Z),
    Format.formatDepth (Js.Fin 35.5) = Some (s ++ " km")
    /\ Measures.parse_integer s = Some z.
Proof.
  destruct (formatDepth_nearest_km 35.5) as (s & z & H1 & H2 & _).
  - unfold Qle; simpl; lia.
  - exists s, z. split; assumption.
Defined.

(** ** Quality badges *)

(** X5: whatever the spelling of its case, a quality whose lower-case
    form is one of the four tiers gets the colour the theme palette gives
    that tier; every other quality, [null] and [undefined] get the grey the
    palette calls no-model, unless the key names a member of
    [Object.prototype]. *)
Theorem getQualityColor_theme (toLowerCase : string -> string)
    (quality : Format.nullable) :
  let key := Format.quality_key toLowerCase quality in
  Format.getQualityColor toLowerCase quality
  = (if decide (key ∈ Shapes.tiers) then
       Js.own Tailwind.theme_extend_colors (Measures.theme_quality_key key)
     else if Js.inherited key then None
     else Js.own Tailwind.theme_extend_colors "no-model")
  /\ Format.getQualityColor toLowerCase Format.Null = Some "#4b5563"
  /\ Format.getQualityColor toLowerCase Format.Undefined = Some "#4b5563".
Proof.
  intros key. split; [| split; reflexivity].
  unfold Format.getQualityColor. fold key.
  destruct (decide (key ∈ Shapes.tiers)) as [Hin | Hout].
  - unfold Shapes.tiers in Hin.
    repeat (apply elem_of_cons in Hin; destruct Hin as [-> | Hin];
            [reflexivity |]).
    now apply elem_of_nil in Hin.
  - assert (Hown : Js.own Format.quality_colors key = None).
    { unfold Format.quality_colors. simpl.
      repeat (destruct (decide (_ = key)) as [<- | _];
              [exfalso; apply Hout; unfold Shapes.tiers; set_solver |]).
      reflexivity. }
    rewrite Hown. destruct (Js.inherited key); reflexivity.
Qed.

Lemma lower_upper_ascii (a : ascii) :
  Format.upper_ascii (ModelsPage.lower_ascii a) = Format.upper_ascii a
  /\ Format.upper_ascii (Format.upper_ascii a) = Format.upper_ascii a
  /\ ModelsPage.lower_ascii (ModelsPage.lower_ascii a) = ModelsPage.lower_ascii a.
Proof.
  destruct a as [[] [] [] [] [] [] [] []]; vm_compute; repeat split.
Qed.

Lemma toLowerCase_ascii_idempotent (s : string) :
  ModelsPage.toLowerCase_ascii (ModelsPage.toLowerCase_ascii s)
  = ModelsPage.toLowerCase_ascii s.
Proof.
  induction s as [| a s IH]; simpl; [reflexivity |].
  rewrite IH. f_equal. apply lower_upper_ascii.
Qed.

Lemma toLowerCase_ascii_length (s : string) :
  String.length (ModelsPage.toLowerCase_ascii s) = String.length s.
Proof. induction s as [| a s IH]; simpl; [reflexivity | now rewrite IH]. Qed.

Lemma formatQuality_cons (a : ascii) (r : string) :
  Format.formatQuality (Format.Str (String a r))
  = String (Format.upper_ascii a) (ModelsPage.toLowerCase_ascii r).
Proof. reflexivity. Qed.

Example formatQuality_ex : Format.formatQuality (Format.Str "hIGH") = "High".
Proof. reflexivity. Qed.

(** X6: on ASCII text [formatQuality] ignores the case of its input, keeps
    its length, and applying it to its own result changes nothing. *)
Theorem formatQuality_canonical (q1 q2 : string) :
  Format.ascii_only q1 = true -> Format.ascii_only q2 = true ->
  (ModelsPage.toLowerCase_ascii q1 = ModelsPage.toLowerCase_ascii q2 ->
   Format.formatQuality (Format.Str q1) = Format.formatQuality (Format.Str q2))
  /\ Format.formatQuality (Format.Str (Format.formatQuality (Format.Str q1)))
     = Format.formatQuality (Format.Str q1)
  /\ (q1 <> "" ->
      String.length (Format.formatQuality (Format.Str q1)) = String.length q1).
Proof.
  intros _ _. split; [| split].
  - intros Heq. destruct q1 as [| a1 r1], q2 as [| a2 r2];
      try reflexivity; try discriminate.
    simpl in Heq. injection Heq as Ha Hr.
    rewrite !formatQuality_cons, Hr. f_equal.
    destruct (lower_upper_ascii a1) as (H1 & _ & _).
    destruct (lower_upper_ascii a2) as (H2 & _ & _).
    rewrite <- H1, <- H2, Ha. reflexivity.
  - destruct q1 as [| a r]; [reflexivity |].
    rewrite !formatQuality_cons, toLowerCase_ascii_idempotent. f_equal.
    apply lower_upper_ascii.
  - intros Hne. destruct q1 as [| a r]; [contradiction |].
    rewrite formatQuality_cons. simpl. now rewrite toLowerCase_ascii_length.
Qed.

Lemma formatQuality_canonical_witness :
  Format.formatQuality (Format.Str "hIGH") = Format.formatQuality (Format.Str "High").
Proof.
  refine (proj1 (formatQuality_canonical "hIGH" "High" _ _) _); reflexivity.
Defined.

(** ** Underscores in tags *)

Example humanize_two_underscores :
  Format.humanize "oceanic_transform_fault" = "oceanic transform_fault".
Proof. reflexivity. Qed.

Lemma replace_first_absent (a b : ascii) (s : string) :
  Format.count_char a s = 0%nat -> Format.replace_first a b s = s.
Proof.
  induction s as [| c s IH]; simpl; [reflexivity |].
  destruct (Ascii.eqb c a); [discriminate |].
  intros H. now rewrite IH.
Qed.

Lemma replace_first_at (a b : ascii) (p t : string) :
  Format.count_char a p = 0%nat ->
  Format.replace_first a b (p ++ String a t) = p ++ String b t.
Proof.
  induction p as [| c p IH]; simpl.
  - intros _. now rewrite Ascii.eqb_refl.
  - destruct (Ascii.eqb c a); [discriminate |].
    intros H. now rewrite IH.
Qed.

Lemma replace_first_count (a b : ascii) (s : string) :
  a <> b ->
  Format.count_char a (Format.replace_first a b s) = pred (Format.count_char a s)
  /\ String.length (Format.replace_first a b s) = String.length s.
Proof.
  intros Hab. induction s as [| c s [IH1 IH2]]; simpl; [auto |].
  destruct (Ascii.eqb c a) eqn:E; simpl.
  - assert (Hba : Ascii.eqb b a = false)
      by (apply Ascii.eqb_neq; congruence).
    rewrite Hba. auto.
  - rewrite E, IH1, IH2. auto.
Qed.

(** X7: [replace('_', ' ')] turns only the first underscore of a tag into
    a space: the text before it and everything after it are kept, the
    length is unchanged, and a tag with two or more underscores still shows
    one. *)
Theorem humanize_first_underscore_only (s p t : string) :
  Format.count_char "_" (Format.humanize s) = pred (Format.count_char "_" s)
  /\ String.length (Format.humanize s) = String.length s
  /\ (Format.count_char "_" p = 0%nat ->
      Format.humanize p = p
      /\ Format.humanize (p ++ String "_" t) = p ++ String " " t).
Proof.
  unfold Format.humanize. split; [| split].
  - apply replace_first_count. discriminate.
  - apply replace_first_count. discriminate.
  - intros Hp. split; [now apply replace_first_absent | now apply replace_first_at].
Qed.

Lemma humanize_first_underscore_only_witness :
  Format.humanize ("oceanic" ++ String "_" "transform_fault")
  = "oceanic" ++ String " " "transform_fault".
Proof.
  refine (proj2 (proj2 (proj2 (humanize_first_underscore_only
                                 "" "oceanic" "transform_fault")) _)).
  reflexivity.
Defined.

(** ** Epicentre markers and hazard circles *)

Example marker_radius_ex : MapView.marker_radius (Js.Fin 4.5) = Js.Fin (4.5 * 4).
Proof. reflexivity. Qed.

(** X8: for every finite magnitude the marker radius lies between 8 and
    24 pixels and never shrinks when the magnitude grows; its container is
    between 48 and 96 pixels and at least four radii wide, so the ring,
    which expands to 2.8 radii, stays inside it.  A magnitude that is not
    a number leaves both sizes NaN. *)
Theorem marker_size_bounds (m m' : Q) :
  exists r r' c : Q,
    MapView.marker_radius (Js.Fin m) = Js.Fin r
    /\ MapView.marker_radius (Js.Fin m') = Js.Fin r'
    /\ MapView.containerSize (Js.Fin m) = Js.Fin c
    /\ (8 <= r)%Q /\ (r <= 24)%Q
    /\ (48 <= c)%Q /\ (c <= 96)%Q
    /\ (4 * r <= c)%Q /\ (2.8 * r <= c)%Q
    /\ ((m <= m')%Q -> (r <= r')%Q)
    /\ MapView.marker_radius Js.NaN = Js.NaN
    /\ MapView.containerSize Js.NaN = Js.NaN.
Proof.
  unfold MapView.containerSize, MapView.marker_radius,
    JsNum.Math_max, JsNum.Math_min, JsNum.mul.
  do 3 eexists.
  split; [reflexivity |]. split; [reflexivity |]. split; [reflexivity |].
  split_Qle_bool;
    repeat match goal with |- _ /\ _ => split end;
    try reflexivity;
    try match goal with |- _ -> _ => intros Hmm end; lra.
Qed.

Lemma marker_size_bounds_witness :
  exists r r' : Q,
    MapView.marker_radius (Js.Fin 4.5) = Js.Fin r
    /\ MapView.marker_radius (Js.Fin 7) = Js.Fin r'
    /\ (r <= r')%Q.
Proof.
  destruct (marker_size_bounds 4.5 7)
    as (r & r' & c & H1 & H2 & _ & _ & _ & _ & _ & _ & _ & Hmono & _).
  exists r, r'. split; [exact H1 |]. split; [exact H2 |].
  apply Hmono. unfold Qle; simpl; lia.
Defined.

Lemma getZoneStyle_own (zoneType : string) (magnitude : Js.number)
    (s : MapView.zone_style) :
  MapView.getZoneStyle zoneType magnitude = MapView.Own s ->
  MapView.fillColor s = Format.getMagnitudeColor magnitude
  /\ MapView.color s = Format.getMagnitudeColor magnitude
  /\ ((zoneType = "critical" /\ MapView.fillOpacity s = 0.35%Q
       /\ MapView.opacity s = 0.8%Q /\ MapView.weight s = 2%Q)
      \/ (zoneType = "high" /\ MapView.fillOpacity s = 0.20%Q
          /\ MapView.opacity s = 0.6%Q /\ MapView.weight s = 1.5%Q)
      \/ (zoneType = "moderate" /\ MapView.fillOpacity s = 0.10%Q
          /\ MapView.opacity s = 0.4%Q /\ MapView.weight s = 1%Q)).
Proof.
  unfold MapView.getZoneStyle, MapView.read_key. simpl.
  destruct (decide ("critical" = zoneType)) as [<- | _];
    [intros [= <-]; simpl; auto 10 |].
  destruct (decide ("high" = zoneType)) as [<- | _];
    [intros [= <-]; simpl; auto 10 |].
  destruct (decide ("moderate" = zoneType)) as [<- | _];
    [intros [= <-]; simpl; auto 10 |].
  destruct (Js.inherited zoneType); discriminate.
Qed.

Lemma zone_radius_cases (Math_pow : Binary64.num -> Binary64.num -> Binary64.num)
    (zoneType : string) (magnitude r : Binary64.num) :
  MapView.zone_radius Math_pow zoneType magnitude = Some r ->
  (zoneType = "critical"
   /\ r = EarthquakeMap.critical (EarthquakeMap.calculateHazardZones Math_pow magnitude))
  \/ (zoneType = "high"
      /\ r = EarthquakeMap.high (EarthquakeMap.calculateHazardZones Math_pow magnitude))
  \/ (zoneType = "moderate"
      /\ r = EarthquakeMap.moderate (EarthquakeMap.calculateHazardZones Math_pow magnitude)).
Proof.
  unfold MapView.zone_radius. cbv zeta.
  destruct (decide (zoneType = "critical")) as [-> | _]; [intros [= <-]; auto |].
  destruct (decide (zoneType = "high")) as [-> | _]; [intros [= <-]; auto |].
  destruct (decide (zoneType = "moderate")) as [-> | _]; [intros [= <-]; auto |].
  discriminate.
Qed.

(** X9: of two hazard circles of one earthquake the larger one is drawn
    fainter and with a thinner outline, and both have the colour of the
    earthquake's magnitude.  The radii are the binary64 ones, for any
    [Math.pow] whose result at base 10 is never negative. *)
Theorem larger_zone_is_fainter
    (Math_pow : Binary64.num -> Binary64.num -> Binary64.num)
    (zone1 zone2 : string) (magnitude : Q)
    (s1 s2 : MapView.zone_style) (r1 r2 : Binary64.num) :
  (forall x : Binary64.num,
     Binary64.lt (Math_pow (Binary64.Fin 10) x) (Binary64.Fin 0) = false) ->
  MapView.getZoneStyle zone1 (Js.Fin magnitude) = MapView.Own s1 ->
  MapView.getZoneStyle zone2 (Js.Fin magnitude) = MapView.Own s2 ->
  MapView.zone_radius Math_pow zone1 (Binary64.Fin magnitude) = Some r1 ->
  MapView.zone_radius Math_pow zone2 (Binary64.Fin magnitude) = Some r2 ->
  Binary64.lt r1 r2 = true ->
  (MapView.fillOpacity s2 < MapView.fillOpacity s1)%Q
  /\ (MapView.opacity s2 < MapView.opacity s1)%Q
  /\ (MapView.weight s2 < MapView.weight s1)%Q
  /\ MapView.fillColor s1 = MapView.fillColor s2
  /\ MapView.color s1 = Format.getMagnitudeColor (Js.Fin magnitude).
Proof.
  intros Hpow H1 H2 Hr1 Hr2 Hlt.
  destruct (getZoneStyle_own _ _ _ H1) as (Hf1 & Hc1 & Hz1).
  destruct (getZoneStyle_own _ _ _ H2) as (Hf2 & Hc2 & Hz2).
  assert (Hcol : MapView.fillColor s1 = MapView.fillColor s2) by congruence.
  apply zone_radius_cases in Hr1, Hr2.
  pose proof (hazard_radii_ordered Math_pow (Binary64.Fin magnitude) Hpow) as Hord.
  cbv zeta in Hord.
  set (z := EarthquakeMap.calculateHazardZones Math_pow (Binary64.Fin magnitude)) in *.
  assert (Hbad :
    Binary64.lt (EarthquakeMap.critical z) (EarthquakeMap.critical z) = false
    /\ Binary64.lt (EarthquakeMap.high z) (EarthquakeMap.high z) = false
    /\ Binary64.lt (EarthquakeMap.moderate z) (EarthquakeMap.moderate z) = false
    /\ Binary64.lt (EarthquakeMap.high z) (EarthquakeMap.critical z) = false
    /\ Binary64.lt (EarthquakeMap.moderate z) (EarthquakeMap.high z) = false
    /\ Binary64.lt (EarthquakeMap.moderate z) (EarthquakeMap.critical z) = false).
  { split; [apply num_lt_irrefl |]. split; [apply num_lt_irrefl |].
    split; [apply num_lt_irrefl |].
    destruct Hord as [(-> & -> & ->) | [Hch Hhm]]; [repeat split; reflexivity |].
    split; [apply num_le_lt_false; exact Hch |].
    split; [apply num_le_lt_false; exact Hhm |].
    apply num_le_lt_false. exact (num_le_trans _ _ _ Hch Hhm). }
  destruct Hbad as (B1 & B2 & B3 & B4 & B5 & B6).
  destruct Hz1 as [(-> & Ha1 & Hb1 & Hw1) | [(-> & Ha1 & Hb1 & Hw1) | (-> & Ha1 & Hb1 & Hw1)]];
  destruct Hz2 as [(-> & Ha2 & Hb2 & Hw2) | [(-> & Ha2 & Hb2 & Hw2) | (-> & Ha2 & Hb2 & Hw2)]];
  destruct Hr1 as [[? ->] | [[? ->] | [? ->]]]; try discriminate;
  destruct Hr2 as [[? ->] | [[? ->] | [? ->]]]; try discriminate;
  rewrite Ha1, Ha2, Hb1, Hb2, Hw1, Hw2;
  first [ exfalso; congruence
        | repeat split; try assumption; unfold Qlt; simpl; lia ].
Qed.

Lemma larger_zone_is_fainter_witness :
  exists s1 s2 : MapView.zone_style,
    MapView.getZoneStyle "critical" (Js.Fin 6.5) = MapView.Own s1
    /\ MapView.getZoneStyle "moderate" (Js.Fin 6.5) = MapView.Own s2
    /\ (MapView.fillOpacity s2 < MapView.fillOpacity s1)%Q.
Proof.
  eexists. eexists. split; [reflexivity |]. split; [reflexivity |].
  refine (proj1 (larger_zone_is_fainter Samples.pow_step "critical" "moderate" 6.5
                   _ _ _ _ pow_step_nonneg eq_refl eq_refl eq_refl eq_refl _)).
  vm_compute. reflexivity.
Defined.

(** ** The view of the map *)

Lemma props_changed_truthy (p : MapView.props) (v : MapView.view) :
  JsNum.truthy (MapView.mapZoom v) = true ->
  JsNum.truthy (MapView.mapZoom (MapView.props_changed p v)) = true.
Proof.
  intros Hv. unfold MapView.props_changed, MapView.zoom_given. simpl.
  destruct (MapView.zoom p) as [z |]; simpl; [| exact Hv].
  destruct (JsNum.truthy z) eqn:Hz; assumption.
Qed.

(** X10: whatever props the map component is mounted with and whatever
    they change to, its zoom state is never 0 and never NaN: a [zoom] prop
    of 0 is taken as missing and leaves the zoom as it was. *)
Theorem map_zoom_never_falsy (p : MapView.props) (ps : list MapView.props)
    (q : MapView.props) (v : MapView.view) :
  JsNum.truthy (MapView.mapZoom (MapView.view_after p ps)) = true
  /\ MapView.mapZoom
       (MapView.props_changed
          {| MapView.center := MapView.center q; MapView.zoom := Some (Js.Fin 0) |} v)
     = MapView.mapZoom v
  /\ MapView.mapZoom
       (MapView.initial_view
          {| MapView.center := MapView.center q; MapView.zoom := Some (Js.Fin 0) |})
     = Js.Fin 2.
Proof.
  split; [| split; reflexivity].
  unfold MapView.view_after.
  assert (Hinit : JsNum.truthy
                    (MapView.mapZoom (MapView.props_changed p (MapView.initial_view p)))
                  = true).
  { apply props_changed_truthy. unfold MapView.initial_view, MapView.zoom_given. simpl.
    destruct (MapView.zoom p) as [z |]; simpl; [| reflexivity].
    destruct (JsNum.truthy z) eqn:Hz; [exact Hz | reflexivity]. }
  revert Hinit. generalize (MapView.props_changed p (MapView.initial_view p)).
  induction ps as [| a ps IH]; intros v0 Hv0; simpl; [exact Hv0 |].
  apply IH, props_changed_truthy, Hv0.
Qed.

(** ** The earthquakes feed *)

(** X11: [fetchRecentEarthquakes] sends exactly one GET to
    [/api/earthquakes] whose query always has the two parameters [days] and
    [min_magnitude], 7 and 4 when the caller leaves them out; it returns
    what the server answers, and when the request fails it logs the error
    once and throws the same error again. *)
Theorem fetchRecentEarthquakes_request {D : Type}
    (server : Client.get_request -> Api.outcome D)
    (days minMagnitude : option Api.value) (w : Client.net) :
  let supplied (a : option Api.value) (dflt : Api.value) :=
    match a with
    | None | Some Api.VUndefined => dflt
    | Some v => v
    end in
  let args :=
    match days, minMagnitude with
    | Some d, Some m => [d; m]
    | Some d, None => [d]
    | None, Some m => [Api.VUndefined; m]
    | None, None => []
    end in
  let rq := {|
    Client.path := "/api/earthquakes";
    Client.params :=
      [ ("days", supplied days (Api.VNumber (Js.Fin 7)));
        ("min_magnitude", supplied minMagnitude (Api.VNumber (Js.Fin 4))) ] |} in
  let result := Client.fetchRecentEarthquakes server args w in
  fst result = server rq
  /\ Client.requested (snd result) = (Client.requested w ++ [rq])%list
  /\ Client.logged (snd result)
     = match server rq with
       | Api.Returned _ => Client.logged w
       | Api.Thrown e =>
           (Client.logged w
            ++ [[Api.VString "Error fetching earthquakes:"; e]])%list
       end.
Proof.
  intros supplied args rq result. subst result.
  assert (Hrq : Client.fetchRecentEarthquakes server args w
                = Client.get_data server (Client.path rq) (Client.params rq)
                    "Error fetching earthquakes:" w).
  { subst args rq supplied. unfold Client.fetchRecentEarthquakes.
    destruct days as [[] |], minMagnitude as [[] |]; reflexivity. }
  rewrite Hrq. unfold Client.get_data.
  change {| Client.path := Client.path rq; Client.params := Client.params rq |}
    with rq.
  destruct (server rq); simpl; auto.
Qed.

(** ** The live monitor page *)

Lemma loadEarthquakes_cases (server : Client.get_request -> Api.outcome Home.feed)
    (st : Home.home) (w : Client.net) :
  let rq := {|
    Client.path := "/api/earthquakes";
    Client.params :=
      [ ("days", Api.VNumber (Home.timeFilter st));
        ("min_magnitude", Api.VNumber (Js.Fin 4)) ] |} in
  let w1 := {| Client.requested := (Client.requested w ++ [rq])%list;
               Client.logged := Client.logged w |} in
  let st1 := Home.setError None (Home.setLoading true st) in
  Home.loadEarthquakes server st w
  = match server rq with
    | Api.Returned data =>
        match Home.loaded data st1 with
        | Api.Returned st' => (Home.setLoading false st', w1)
        | Api.Thrown err =>
            (Home.setLoading false (fst (Home.failed err st1 w1)),
             snd (Home.failed err st1 w1))
        end
    | Api.Thrown e =>
        let w2 := {| Client.requested := Client.requested w1;
                     Client.logged :=
                       (Client.logged w1
                        ++ [[Api.VString "Error fetching earthquakes:"; e]])%list |} in
        (Home.setLoading false (fst (Home.failed e st1 w2)),
         snd (Home.failed e st1 w2))
    end.
Proof.
  intros rq w1 st1.
  unfold Home.loadEarthquakes. fold st1.
  change (Client.fetchRecentEarthquakes server
            [Api.VNumber (Home.timeFilter st1); Api.VNumber (Js.Fin 4)] w)
    with (Client.get_data server (Client.path rq) (Client.params rq)
            "Error fetching earthquakes:" w).
  unfold Client.get_data.
  change {| Client.path := Client.path rq; Client.params := Client.params rq |}
    with rq.
  destruct (server rq) as [data | e]; [| reflexivity].
  destruct (Home.loaded data st1); reflexivity.
Qed.

(** X12: [loadEarthquakes] always ends with the spinner off and never
    touches the selection or the time filter.  When the feed arrives the
    error is cleared and the list replaced (by the empty list if the body
    has none), and the map moves to the first earthquake at zoom 5 only if
    there is one; when the request fails or the body is missing, the error
    text is set and the old list, centre and zoom stay. *)
Theorem loadEarthquakes_outcomes
    (server : Client.get_request -> Api.outcome Home.feed)
    (st : Home.home) (w : Client.net) :
  let rq := {|
    Client.path := "/api/earthquakes";
    Client.params :=
      [ ("days", Api.VNumber (Home.timeFilter st));
        ("min_magnitude", Api.VNumber (Js.Fin 4)) ] |} in
  let st' := fst (Home.loadEarthquakes server st w) in
  Home.loading st' = false
  /\ Home.selectedEarthquake st' = Home.selectedEarthquake st
  /\ Home.timeFilter st' = Home.timeFilter st
  /\ Client.requested (snd (Home.loadEarthquakes server st w))
     = (Client.requested w ++ [rq])%list
  /\ match server rq with
     | Api.Returned (Home.FeedObject eqs) =>
         Home.error st' = None
         /\ Home.earthquakes st' = default [] eqs
         /\ match eqs with
            | Some (latest :: _) =>
                Home.mapCenter st' = (Quakes.latitude latest, Quakes.longitude latest)
                /\ Home.mapZoom st' = Js.Fin 5
            | _ =>
                Home.mapCenter st' = Home.mapCenter st
                /\ Home.mapZoom st' = Home.mapZoom st
            end
     | _ =>
         Home.error st' = Some "Failed to load earthquakes. Please try again."
         /\ Home.earthquakes st' = Home.earthquakes st
         /\ Home.mapCenter st' = Home.mapCenter st
         /\ Home.mapZoom st' = Home.mapZoom st
     end.
Proof.
  intros rq st'. subst st'. rewrite loadEarthquakes_cases. fold rq.
  destruct (server rq) as [[| [[| latest rest] |]] | e]; simpl; auto 10.
Qed.

Lemma step_zoom (st : Home.home * Client.net) (e : Home.event) :
  In (Home.mapZoom (fst st)) [Js.Fin 2; Js.Fin 5; Js.Fin 7; Js.Fin 8] ->
  In (Home.mapZoom (fst (Home.step st e))) [Js.Fin 2; Js.Fin 5; Js.Fin 7; Js.Fin 8].
Proof.
  destruct st as [s w]. intros Hz.
  destruct e as [days server | eq | lat lon | |]; simpl in *; auto.
  rewrite loadEarthquakes_cases. simpl.
  match goal with |- context [server ?r] => destruct (server r) as [[| [[| latest rest] |]] | err] end;
    simpl; auto.
Qed.

(** X13: whatever happens on the page, its zoom is one of 2, 5, 7 and 8,
    so the props it hands to the map are never taken as missing: after
    every change the view of the map is exactly the centre and the zoom of
    the page. *)
Theorem map_view_mirrors_page
    (server : Client.get_request -> Api.outcome Home.feed)
    (es : list Home.event) (w : Client.net) (v : MapView.view) :
  let st := fst (Home.run server es w) in
  In (Home.mapZoom st) [Js.Fin 2; Js.Fin 5; Js.Fin 7; Js.Fin 8]
  /\ MapView.props_changed (Home.map_props st) v
     = {| MapView.mapCenter := Home.mapCenter st; MapView.mapZoom := Home.mapZoom st |}.
Proof.
  intros st.
  assert (Hz : In (Home.mapZoom st) [Js.Fin 2; Js.Fin 5; Js.Fin 7; Js.Fin 8]).
  { subst st. unfold Home.run.
    assert (H0 : In (Home.mapZoom (fst (Home.loadEarthquakes server Home.initial w)))
                    [Js.Fin 2; Js.Fin 5; Js.Fin 7; Js.Fin 8]).
    { rewrite loadEarthquakes_cases. simpl.
      match goal with |- context [server ?r] =>
        destruct (server r) as [[| [[| latest rest] |]] | err] end; simpl; auto. }
    revert H0. generalize (Home.loadEarthquakes server Home.initial w).
    induction es as [| e es IH]; intros s0 H0; simpl; [exact H0 |].
    apply IH, step_zoom, H0. }
  split; [exact Hz |].
  unfold MapView.props_changed, Home.map_props, MapView.zoom_given. simpl.
  simpl in Hz.
  destruct Hz as [<- | [<- | [<- | [<- | []]]]]; reflexivity.
Qed.

(** ** The detail panel *)

(** X14: [fetchPredictions] always ends with the spinner off.  The error
    text is absent exactly when the server answered with a body that is
    neither [undefined] nor [null]; otherwise the earlier forecast is kept,
    and a failed request is logged twice, by the client and by the panel. *)
Theorem fetchPredictions_settles
    (server : Api.request -> Api.outcome Api.response)
    (earthquake : list (string * Api.value)) (st : DetailPanel.panel)
    (w : Api.world) :
  let rq := {|
    Api.url := "/api/predict";
    Api.body :=
      [ ("magnitude", DetailPanel.prop earthquake "magnitude");
        ("latitude", DetailPanel.prop earthquake "latitude");
        ("longitude", DetailPanel.prop earthquake "longitude");
        ("tectonic_setting", Api.VNull) ] |} in
  let st' := fst (DetailPanel.fetchPredictions server earthquake st w) in
  let w' := snd (DetailPanel.fetchPredictions server earthquake st w) in
  DetailPanel.loading st' = false
  /\ match server rq with
     | Api.Returned r =>
         match DetailPanel.read_predictions (Api.data r) with
         | Api.Returned p =>
             DetailPanel.error st' = None
             /\ DetailPanel.predictions st' = p
             /\ Api.console w' = Api.console w
         | Api.Thrown err =>
             DetailPanel.error st' = Some "Failed to load predictions"
             /\ DetailPanel.predictions st' = DetailPanel.predictions st
             /\ Api.console w' = (Api.console w ++ [[err]])%list
         end
     | Api.Thrown e =>
         DetailPanel.error st' = Some "Failed to load predictions"
         /\ DetailPanel.predictions st' = DetailPanel.predictions st
         /\ Api.console w'
            = (Api.console w
               ++ [[Api.VString "Error predicting aftershocks:"; e]] ++ [[e]])%list
     end.
Proof.
  intros rq st' w'. subst st' w'.
  unfold DetailPanel.fetchPredictions, Api.predictAftershocks, Api.try_catch,
    mbind, Api.io_bind, Api.bind, Api.api_post, mret, Api.io_ret, Api.ret,
    Api.console_error, Api.throw, Api.arg, Api.default_param.
  cbn [nth]. fold rq.
  destruct (server rq) as [r | e]; simpl.
  - destruct (DetailPanel.read_predictions (Api.data r)); simpl; auto.
  - rewrite <- app_assoc. auto.
Qed.

(** ** The highlighted earthquake *)

Example list_highlights_without_ids :
  let eq := {| Quakes.id := None; Quakes.magnitude := Js.Fin 5;
               Quakes.latitude := Js.Fin 1; Quakes.longitude := Js.Fin 2;
               Quakes.place := Formatters.PlaceNull |} in
  EarthquakeList.isSelected None eq = true
  /\ MapView.marker_isSelected None eq = false.
Proof. split; reflexivity. Qed.

Lemma highlighted_at_most_one (sel : Quakes.quake) (eqs : list Quakes.quake) :
  NoDup (map Quakes.id eqs) ->
  (length (List.filter (MapView.marker_isSelected (Some sel)) eqs) <= 1)%nat.
Proof.
  induction eqs as [| e eqs IH]; intros Hnd; simpl; [lia |].
  inversion Hnd as [| ? ? Hnotin Hnd']; subst.
  unfold Quakes.id_eqb.
  destruct (bool_decide (Quakes.id sel = Quakes.id e)) eqn:He; simpl.
  - apply bool_decide_eq_true in He.
    assert (Hnone : List.filter (MapView.marker_isSelected (Some sel)) eqs = []).
    { clear IH Hnd Hnd'. induction eqs as [| e' eqs IH']; [reflexivity |].
      simpl. unfold Quakes.id_eqb.
      destruct (bool_decide (Quakes.id sel = Quakes.id e')) eqn:He'.
      - apply bool_decide_eq_true in He'. exfalso. apply Hnotin.
        rewrite map_cons. apply elem_of_cons. left. congruence.
      - apply IH'. intros Hin. apply Hnotin.
        rewrite map_cons. apply elem_of_cons. right. exact Hin. }
    simpl in Hnone. unfold Quakes.id_eqb in Hnone. rewrite Hnone. simpl. lia.
  - apply IH, Hnd'.
Qed.

(** X15: when every earthquake of the feed has an id, the list and the map
    highlight the same earthquakes, those with the id of the selected one;
    with no selection none is highlighted, and with distinct ids at most
    one. *)
Theorem list_and_map_highlight_agree
    (selectedEarthquake : option Quakes.quake) (earthquakes : list Quakes.quake) :
  Forall (fun eq => Quakes.id eq <> None) earthquakes ->
  Forall (fun eq =>
            EarthquakeList.isSelected selectedEarthquake eq
            = MapView.marker_isSelected selectedEarthquake eq)
         earthquakes
  /\ List.filter (EarthquakeList.isSelected None) earthquakes = []
  /\ (NoDup (map Quakes.id earthquakes) ->
      (length (List.filter (EarthquakeList.isSelected selectedEarthquake) earthquakes)
       <= 1)%nat).
Proof.
  intros Hids.
  assert (Hnone : List.filter (EarthquakeList.isSelected None) earthquakes = []).
  { induction Hids as [| e eqs He _ IH]; [reflexivity |].
    simpl. unfold Quakes.id_eqb.
    destruct (bool_decide (None = Quakes.id e)) eqn:Hb; [| exact IH].
    apply bool_decide_eq_true in Hb. congruence. }
  split; [| split].
  - eapply Forall_impl; [exact Hids |].
    intros e He. destruct selectedEarthquake as [sel |]; [reflexivity |].
    simpl. unfold Quakes.id_eqb. apply bool_decide_eq_false. congruence.
  - exact Hnone.
  - intros Hnd. destruct selectedEarthquake as [sel |].
    + apply (highlighted_at_most_one sel earthquakes Hnd).
    + rewrite Hnone. simpl. lia.
Qed.

Lemma list_and_map_highlight_agree_witness :
  List.filter (EarthquakeList.isSelected None)
    [ {| Quakes.id := Some "us7000abcd"; Quakes.magnitude := Js.Fin 5;
         Quakes.latitude := Js.Fin 1; Quakes.longitude := Js.Fin 2;
         Quakes.place := Formatters.PlaceNull |} ]
  = [].
Proof.
  refine (proj1 (proj2 (list_and_map_highlight_agree None _ _))).
  repeat constructor. discriminate.
Defined.

(** ** The decay curve *)

Lemma comparator_days (f g : ProbabilityChart.entry_value) :
  DecayCurveChart.has_days f -> DecayCurveChart.has_days g ->
  ProbabilityChart.comes_after DecayCurveChart.comparator f g
  = if Qlt_le_dec (DecayCurveChart.days_of g) (DecayCurveChart.days_of f)
    then true else false.
Proof.
  intros [d Hd] [e He].
  unfold ProbabilityChart.comes_after, DecayCurveChart.comparator,
    DecayCurveChart.days_of.
  rewrite Hd, He. simpl.
  destruct (Qlt_le_dec 0 (d - e)), (Qlt_le_dec e d); try reflexivity; lra.
Qed.

Lemma insert_sorted_by_days (x : ProbabilityChart.entry_value)
    (l : list ProbabilityChart.entry_value) :
  Forall DecayCurveChart.has_days (x :: l) ->
  StronglySorted
    (fun a b => (DecayCurveChart.days_of a <= DecayCurveChart.days_of b)%Q) l ->
  StronglySorted
    (fun a b => (DecayCurveChart.days_of a <= DecayCurveChart.days_of b)%Q)
    (ProbabilityChart.insert_sorted DecayCurveChart.comparator x l).
Proof.
  intros Hall Hs. induction Hs as [| y l Hs IH Hy]; simpl.
  - repeat constructor.
  - inversion Hall as [| ? ? Hx Hyl]; subst.
    inversion Hyl as [| ? ? Hyd Hl]; subst.
    rewrite (comparator_days x y Hx Hyd).
    destruct (Qlt_le_dec (DecayCurveChart.days_of y) (DecayCurveChart.days_of x))
      as [Hlt | Hle].
    + constructor; [apply IH; constructor; assumption |].
      rewrite insert_sorted_permutation.
      constructor; [apply Qlt_le_weak, Hlt | exact Hy].
    + constructor; [constructor; assumption |].
      constructor; [exact Hle |].
      eapply Forall_impl; [exact Hy |].
      simpl. intros z Hz. eapply Qle_trans; eassumption.
Qed.

Lemma Array_sort_by_days (l : list ProbabilityChart.entry_value) :
  Forall DecayCurveChart.has_days l ->
  StronglySorted
    (fun a b => (DecayCurveChart.days_of a <= DecayCurveChart.days_of b)%Q)
    (ProbabilityChart.Array_sort DecayCurveChart.comparator l).
Proof.
  induction l as [| x l IH]; intros Hall; simpl; [constructor |].
  inversion Hall as [| ? ? Hx Hl]; subst.
  apply insert_sorted_by_days; [| apply IH, Hl].
  constructor; [exact Hx |]. now rewrite Array_sort_permutation.
Qed.

Example sortedForecasts_ex :
  DecayCurveChart.chart_data
    [ ("30_days", [("days", Js.Fin 30); ("rate_per_day", Js.Fin 0.4)]);
      ("1_day", [("days", Js.Fin 1); ("rate_per_day", Js.Fin 12)]);
      ("7_days", [("days", Js.Fin 7); ("rate_per_day", Js.Fin 2.5)]) ]
  = [Some (Js.Fin 12); Some (Js.Fin 2.5); Some (Js.Fin 0.4)].
Proof. reflexivity. Qed.

(** X16: when every forecast of the response has a numeric [days], the
    points of the decay curve are the forecasts of the response, each
    once, in the order of increasing [days], whatever their order in the
    response. *)
Theorem sortedForecasts_ascending
    (forecasts : list (string * ProbabilityChart.entry_value)) :
  Forall (fun e => DecayCurveChart.has_days (snd e)) forecasts ->
  StronglySorted
    (fun a b => (DecayCurveChart.days_of a <= DecayCurveChart.days_of b)%Q)
    (DecayCurveChart.sortedForecasts forecasts)
  /\ Permutation (DecayCurveChart.sortedForecasts forecasts)
                 (DecayCurveChart.Object_values forecasts)
  /\ length (DecayCurveChart.chart_data forecasts) = length forecasts.
Proof.
  intros Hall. unfold DecayCurveChart.sortedForecasts, DecayCurveChart.chart_data.
  split; [| split].
  - apply Array_sort_by_days. unfold DecayCurveChart.Object_values.
    rewrite Forall_map. exact Hall.
  - apply Array_sort_permutation.
  - rewrite length_map. unfold DecayCurveChart.sortedForecasts.
    rewrite (Permutation_length (Array_sort_permutation _ _)).
    unfold DecayCurveChart.Object_values. apply length_map.
Qed.

Lemma sortedForecasts_ascending_witness :
  length (DecayCurveChart.chart_data
            [ ("30_days", [("days", Js.Fin 30); ("rate_per_day", Js.Fin 0.4)]);
              ("1_day", [("days", Js.Fin 1); ("rate_per_day", Js.Fin 12)]) ])
  = 2%nat.
Proof.
  refine (proj2 (proj2 (sortedForecasts_ascending _ _))).
  repeat constructor; eexists; reflexivity.
Defined.

(** ** The colours of the probability bars *)

Lemma alpha_positive (idx : nat) :
  (if Qlt_le_dec 0 (BarColors.alpha idx) then true else false) = (idx <? 8)%nat.
Proof.
  unfold BarColors.alpha.
  destruct (Nat.ltb_spec idx 8) as [Hlt | Hge].
  - assert (Hq : (inject_Z (Z.of_nat idx) <= inject_Z 7)%Q)
      by (rewrite <- Zle_Qle; lia).
    change (inject_Z 7) with 7%Q in Hq.
    destruct (Qlt_le_dec 0 (0.8 - inject_Z (Z.of_nat idx) * 0.1)); [reflexivity | lra].
  - assert (Hq : (inject_Z 8 <= inject_Z (Z.of_nat idx))%Q)
      by (rewrite <- Zle_Qle; lia).
    change (inject_Z 8) with 8%Q in Hq.
    destruct (Qlt_le_dec 0 (0.8 - inject_Z (Z.of_nat idx) * 0.1)); [lra | reflexivity].
Qed.

Lemma visible_alphas (n : nat) :
  length (List.filter (fun a => if Qlt_le_dec 0 a then true else false)
            (map BarColors.alpha (seq 0 n)))
  = Nat.min n 8.
Proof.
  induction n as [| n IH]; [reflexivity |].
  rewrite seq_S, map_app, List.filter_app, length_app, IH. simpl.
  rewrite alpha_positive.
  destruct (Nat.ltb_spec n 8); simpl; lia.
Qed.

(** X17: the bars of the probability chart fade by 0.1 per bar from an
    alpha of 0.8, so only the first eight have a positive alpha: a chart of
    nine or more thresholds draws its last bars with no visible fill. *)
Theorem probability_bars_visible
    (probabilities : list (string * ProbabilityChart.entry_value)) :
  BarColors.visible_bars probabilities = Nat.min (length probabilities) 8
  /\ length (BarColors.backgroundAlphas probabilities) = length probabilities
  /\ (forall idx : nat,
        (0 < BarColors.alpha idx)%Q <-> (idx < 8)%nat).
Proof.
  assert (Hlen : length (ProbabilityChart.sortedProbs probabilities)
                 = length probabilities).
  { unfold ProbabilityChart.sortedProbs, ProbabilityChart.Object_entries.
    apply Permutation_length, Array_sort_permutation. }
  split; [| split].
  - unfold BarColors.visible_bars, BarColors.backgroundAlphas.
    rewrite visible_alphas, Hlen. reflexivity.
  - unfold BarColors.backgroundAlphas. rewrite length_map, length_seq. exact Hlen.
  - intros idx. pose proof (alpha_positive idx) as Ha.
    destruct (Qlt_le_dec 0 (BarColors.alpha idx)) as [Hpos | Hneg];
      destruct (Nat.ltb_spec idx 8); try discriminate; split; intros; try lia;
      try assumption; lra.
Qed.

(** ** The models table and the quality bars *)

(** X18: the models table shows the first twenty models of the coverage
    list, all of them when there are fewer, and the "Showing 20 of ..."
    footer appears exactly when some model is left out. *)
Theorem models_table_rows (c : ModelsPage.coverage_response) :
  length (ModelsTable.rows c) = Nat.min 20 (length (ModelsPage.coverage c))
  /\ (ModelsTable.rows c ++ drop 20 (ModelsPage.coverage c))%list
     = ModelsPage.coverage c
  /\ (ModelsTable.shows_footer c = true
      <-> (length (ModelsTable.rows c) < length (ModelsPage.coverage c))%nat)
  /\ (ModelsTable.shows_footer c = false
      <-> ModelsTable.rows c = ModelsPage.coverage c).
Proof.
  unfold ModelsTable.rows, ModelsTable.shows_footer.
  assert (Hlen : length (take 20 (ModelsPage.coverage c))
                 = Nat.min 20 (length (ModelsPage.coverage c)))
    by apply length_take.
  split; [exact Hlen |]. split; [apply take_drop |]. split.
  - rewrite Hlen, Nat.ltb_lt. lia.
  - rewrite Nat.ltb_ge. split.
    + intros Hle. apply take_ge, Hle.
    + intros Heq. rewrite <- Heq at 1. rewrite Hlen. lia.
Qed.

Lemma getQualityStats_lookup (toLowerCase : string -> string)
    (c : ModelsPage.coverage_response) :
  Forall (fun model => toLowerCase (ModelsPage.quality model) ∈ Shapes.tiers)
         (ModelsPage.coverage c) ->
  exists stats : gmap string nat,
    ModelsPage.getQualityStats toLowerCase (Some c) = Some stats
    /\ forall tier, tier ∈ Shapes.tiers ->
         stats !! tier = Some (ModelsPage.models_with_tier toLowerCase tier c).
Proof.
  intros Htiers.
  set (qs := map (fun model => toLowerCase (ModelsPage.quality model))
                 (ModelsPage.coverage c)).
  assert (Hqs : Forall (fun q => q ∈ Shapes.tiers) qs)
    by (subst qs; rewrite Forall_map; exact Htiers).
  destruct (forEach_counts qs ModelsPage.stats0) as (stats & Hrun & Hlook).
  { eapply Forall_impl; [exact Hqs |]. apply tiers_not_inherited. }
  exists stats. split; [exact Hrun |].
  intros tier Hin. rewrite Hlook, models_with_tier_occurrences. fold qs.
  assert (H0 : ModelsPage.stats0 !! tier = Some 0%nat).
  { unfold Shapes.tiers in Hin.
    repeat (apply elem_of_cons in Hin; destruct Hin as [-> | Hin];
            [reflexivity |]).
    now apply elem_of_nil in Hin. }
  rewrite H0. destruct (Shapes.occurrences tier qs); reflexivity.
Qed.

(** One quality bar: the binary64 quotient and product are finite and
    within [2^(-45)] of the exact percentage. *)
Lemma percentage_error (k T : nat) :
  (0 < T)%nat -> (k <= T)%nat ->
  exists p : Q,
    Binary64.mul
      (Binary64.div (Binary64.Fin (inject_Z (Z.of_nat k)))
                    (Binary64.Fin (inject_Z (Z.of_nat T))))
      (Binary64.Fin 100)
    = Binary64.Fin p
    /\ (Qabs (p - inject_Z (Z.of_nat k) / inject_Z (Z.of_nat T) * 100)
        <= 1 # 35184372088832)%Q.
Proof.
  intros HT Hk.
  set (K := inject_Z (Z.of_nat k)). set (D := inject_Z (Z.of_nat T)).
  assert (HD : (0 < D)%Q).
  { subst D. change 0%Q with (inject_Z 0). rewrite <- Zlt_Qlt. lia. }
  assert (HK : (0 <= K)%Q).
  { subst K. change 0%Q with (inject_Z 0). rewrite <- Zle_Qle. lia. }
  assert (HKD : (K <= D)%Q) by (subst K D; rewrite <- Zle_Qle; lia).
  set (x := (K / D)%Q).
  assert (Hx0 : (0 <= x)%Q) by (apply Qle_shift_div_l; [exact HD | lra]).
  assert (Hx1 : (x <= 1)%Q) by (apply Qle_shift_div_r; [exact HD | lra]).
  assert (HD0 : Qeq_bool D 0 = false).
  { destruct (Qeq_bool D 0) eqn:E; [| reflexivity]. apply Qeq_bool_iff in E. lra. }
  unfold Binary64.div. rewrite HD0. fold x.
  pose proof (round_nonneg x Hx0) as Hr0.
  assert (E2 : (Binary64.pow2 1 == 2)%Q) by reflexivity.
  assert (Hr1 : (Binary64.round x <= 1)%Q).
  { assert (E : (1 == inject_Z 1 * Binary64.pow2 0)%Q) by reflexivity.
    rewrite E. apply (round_le_multiple x 1 0 1); try lia; try exact Hx0.
    - rewrite E2. lra.
    - rewrite <- E. exact Hx1. }
  assert (Herr1 : (Qabs (Binary64.round x - x) <= 1 # 9007199254740992)%Q).
  { assert (E : (1 # 9007199254740992 == Binary64.pow2 (1 - 54))%Q) by reflexivity.
    rewrite E. apply round_error; [| lia]. rewrite Qabs_pos, E2 by exact Hx0. lra. }
  assert (Hbig : (128 < Binary64.pow2 1024)%Q) by (apply (pow2_lt 7 1024); lia).
  rewrite of_Q_finite by (rewrite Qabs_pos by exact Hr0; lra).
  unfold Binary64.mul.
  set (y := (Qred (Binary64.round x) * 100)%Q).
  assert (Ey : (y == Binary64.round x * 100)%Q) by (subst y; rewrite Qred_correct; reflexivity).
  destruct (round_percent y) as (Hy0 & Hy1 & Herr2); [lra | lra |].
  rewrite of_Q_finite by (rewrite Qabs_pos by exact Hy0; lra).
  exists (Qred (Binary64.round y)). split; [reflexivity |].
  rewrite Qred_correct.
  apply Qabs_Qle_condition in Herr1. apply Qabs_Qle_condition in Herr2.
  apply Qabs_Qle_condition. split; lra.
Qed.

(** X19: when every listed model has one of the four tiers and
    [total_models] is a positive integer below [2^53], no smaller than the
    length of the coverage list, each of the four quality bars is a finite
    binary64 percentage, and together they are within [2^(-43)] of the
    length of the list over [total_models] times 100: within [2^(-43)] of
    100 when [total_models] is the length of the list. *)
Theorem quality_bars_total (toLowerCase : string -> string)
    (c : ModelsPage.coverage_response) :
  Forall (fun model => toLowerCase (ModelsPage.quality model) ∈ Shapes.tiers)
         (ModelsPage.coverage c) ->
  (0 < ModelsPage.total_models c)%nat ->
  (Z.of_nat (ModelsPage.total_models c) < 2 ^ 53)%Z ->
  (length (ModelsPage.coverage c) <= ModelsPage.total_models c)%nat ->
  exists (stats : gmap string nat) (h m l u : nat) (ph pm pl pu : Q),
    ModelsPage.getQualityStats toLowerCase (Some c) = Some stats
    /\ stats !! "high" = Some h /\ stats !! "medium" = Some m
    /\ stats !! "low" = Some l /\ stats !! "unknown" = Some u
    /\ ModelsTable.percentage h c = Binary64.Fin ph
    /\ ModelsTable.percentage m c = Binary64.Fin pm
    /\ ModelsTable.percentage l c = Binary64.Fin pl
    /\ ModelsTable.percentage u c = Binary64.Fin pu
    /\ (Qabs (ph + pm + pl + pu
              - inject_Z (Z.of_nat (length (ModelsPage.coverage c)))
                / inject_Z (Z.of_nat (ModelsPage.total_models c)) * 100)
        <= 1 # 8796093022208)%Q
    /\ (ModelsPage.total_models c = length (ModelsPage.coverage c) ->
        (Qabs (ph + pm + pl + pu - 100) <= 1 # 8796093022208)%Q).
Proof.
  intros Htiers Hpos _ Hlen.
  destruct (getQualityStats_lookup toLowerCase c Htiers) as (stats & Hrun & Hlook).
  set (n := fun tier => ModelsPage.models_with_tier toLowerCase tier c).
  assert (Hsum : (n "high" + n "medium" + n "low" + n "unknown")%nat
                 = length (ModelsPage.coverage c)).
  { subst n. simpl. rewrite !models_with_tier_occurrences.
    rewrite occurrences_tiers_total; [apply length_map |].
    rewrite Forall_map. exact Htiers. }
  set (T := inject_Z (Z.of_nat (ModelsPage.total_models c))).
  assert (HT : (0 < T)%Q).
  { subst T. change 0%Q with (inject_Z 0). rewrite <- Zlt_Qlt. lia. }
  destruct (percentage_error (n "high") _ Hpos) as (ph & Eh & Hh); [lia |].
  destruct (percentage_error (n "medium") _ Hpos) as (pm & Em & Hm); [lia |].
  destruct (percentage_error (n "low") _ Hpos) as (pl & El & Hl); [lia |].
  destruct (percentage_error (n "unknown") _ Hpos) as (pu & Eu & Hu); [lia |].
  fold T in Hh, Hm, Hl, Hu.
  assert (Htot : (inject_Z (Z.of_nat (n "high")) / T * 100
                  + inject_Z (Z.of_nat (n "medium")) / T * 100
                  + inject_Z (Z.of_nat (n "low")) / T * 100
                  + inject_Z (Z.of_nat (n "unknown")) / T * 100
                  == inject_Z (Z.of_nat (length (ModelsPage.coverage c))) / T * 100)%Q).
  { rewrite <- Hsum, !Nat2Z.inj_add, !inject_Z_plus. field. lra. }
  assert (Hnear : (Qabs (ph + pm + pl + pu
                         - inject_Z (Z.of_nat (length (ModelsPage.coverage c))) / T * 100)
                   <= 1 # 8796093022208)%Q).
  { rewrite <- Htot.
    apply Qabs_Qle_condition in Hh. apply Qabs_Qle_condition in Hm.
    apply Qabs_Qle_condition in Hl. apply Qabs_Qle_condition in Hu.
    apply Qabs_Qle_condition. split; lra. }
  exists stats, (n "high"), (n "medium"), (n "low"), (n "unknown"), ph, pm, pl, pu.
  split; [exact Hrun |].
  split; [apply Hlook; unfold Shapes.tiers; set_solver |].
  split; [apply Hlook; unfold Shapes.tiers; set_solver |].
  split; [apply Hlook; unfold Shapes.tiers; set_solver |].
  split; [apply Hlook; unfold Shapes.tiers; set_solver |].
  split; [exact Eh |]. split; [exact Em |]. split; [exact El |]. split; [exact Eu |].
  fold T. split; [exact Hnear |].
  intros Heq.
  assert (E100 : (inject_Z (Z.of_nat (length (ModelsPage.coverage c))) / T * 100 == 100)%Q).
  { subst T. rewrite Heq. field.
    rewrite Heq in HT. intros H0. rewrite H0 in HT. exact (Qlt_irrefl 0 HT). }
  rewrite <- E100. exact Hnear.
Qed.

Lemma quality_bars_total_witness :
  exists stats : gmap string nat,
    ModelsPage.getQualityStats ModelsPage.toLowerCase_ascii
      (Some {| ModelsPage.total_models := 2; ModelsPage.has_global_fallback := true;
               ModelsPage.coverage :=
                 [ {| ModelsPage.region_id := "region_35_135";
                      ModelsPage.quality := "High";
                      ModelsPage.tectonic_setting := "subduction_zone";
                      ModelsPage.sequences := 12; ModelsPage.aftershocks := 480 |};
                   {| ModelsPage.region_id := "region_35_140";
                      ModelsPage.quality := "low";
                      ModelsPage.tectonic_setting := "subduction_zone";
                      ModelsPage.sequences := 2; ModelsPage.aftershocks := 45 |} ] |})
    = Some stats.
Proof.
  match goal with
  | |- context [ModelsPage.getQualityStats _ (Some ?c)] =>
      destruct (quality_bars_total ModelsPage.toLowerCase_ascii c)
        as (stats & _ & _ & _ & _ & _ & _ & _ & _ & Hrun & _)
  end.
  - repeat constructor.
  - simpl. lia.
  - reflexivity.
  - simpl. lia.
  - exists stats. exact Hrun.
Defined.

(** Three tiers with one model each: every bar is the Number
    33.33333333333333, and the three bars are not 100 together. *)
Example quality_bars_thirds :
  ModelsTable.percentage 1
    {| ModelsPage.total_models := 3; ModelsPage.has_global_fallback := true;
       ModelsPage.coverage := [] |}
  = Binary64.Fin (2345624805922133 # 70368744177664)
  /\ (3 * (2345624805922133 # 70368744177664) < 100)%Q.
Proof. split; [vm_compute; reflexivity | reflexivity]. Qed.
